(** * bullhorn-auth-client: the session acquisition engine of [index.js]

    A shallow embedding of [index.js] (release 1.1.0): the transport helper
    [requestWithRetry], the protocol operations [loginInfo], [step0] .. [step3]
    and [ping], the environment helpers [credentialsFromEnv] and
    [tokensFromEnv], and the decision procedure [loginToBullhorn].

    Conventions of the embedding.
    - A [string] stands for a JavaScript string all of whose code units are
      below 256; one [ascii] is one code unit.
    - A JavaScript number is a [jsnum]: NaN, the two infinities, or a finite
      value carried as a rational.  Every finite double is a rational and the
      source only compares numbers, so the comparisons are exact.
    - Asynchronous code is sequential here: every [await] is a bind of the
      monad [M], whose state is the trace of what the program did to the
      outside world (requests, observer calls, timer waits). *)

From Stdlib Require Import ZArith QArith Qround String Ascii List Bool Lia.
From stdpp Require Import base option list gmap strings pretty.

Local Open Scope string_scope.
Local Open Scope list_scope.
Local Open Scope Z_scope.

(** ** JavaScript values *)

Inductive jsnum : Type :=
| NaN
| PInf
| NInf
| Fin (q : Q).

(** The scalar values that configuration fields and JSON fields can hold. *)
Inductive jsval : Type :=
| VUndefined
| VNull
| VBool (b : bool)
| VNum (n : jsnum)
| VStr (s : string).

(** What [querystring.parse(q)[k]] can be: missing, one string, or (for a
    repeated key) an array of strings. *)
Inductive qsval : Type :=
| QAbsent
| QOne (s : string)
| QMany (l : list string).

(** What the embedding takes from the JavaScript runtime without looking
    inside:
    - [Number(s)] on a string;
    - the printing of a number inside a template literal;
    - [url.parse(s).query]: [None] when [url.parse] throws on the string,
      otherwise the [query] property, [null] or a string;
    - [querystring.parse(q)[k]] on a string [q]. *)
Class Platform : Type := {
  StringToNumber : string -> jsnum;
  NumberToString : jsnum -> string;
  url_parse_query : string -> option (option string);
  qs_parse_get : string -> string -> qsval
}.

Definition Qlt_bool (a b : Q) : bool := negb (Qle_bool b a).

(** [x < 0], [x <= 0] and [x > y] on numbers; any comparison with NaN is false. *)
Definition num_lt0 (n : jsnum) : bool :=
  match n with
  | NaN => false
  | PInf => false
  | NInf => true
  | Fin q => Qlt_bool q 0
  end.

Definition num_le0 (n : jsnum) : bool :=
  match n with
  | NaN => false
  | PInf => false
  | NInf => true
  | Fin q => Qle_bool q 0
  end.

Definition num_gt (a b : jsnum) : bool :=
  match a, b with
  | NaN, _ | _, NaN => false
  | PInf, PInf => false
  | PInf, _ => true
  | NInf, _ => false
  | Fin _, PInf => false
  | Fin _, NInf => true
  | Fin x, Fin y => Qlt_bool y x
  end.

(** [Number.isFinite] on a number. *)
Definition num_isFinite (n : jsnum) : bool :=
  match n with Fin _ => true | _ => false end.

(** Truthiness, as tested by [!x], [x && y] and [x || y]. *)
Definition truthy (v : jsval) : bool :=
  match v with
  | VUndefined | VNull => false
  | VBool b => b
  | VNum NaN => false
  | VNum (Fin q) => negb (Qeq_bool q 0)
  | VNum _ => true
  | VStr s => negb (bool_decide (s = ""))
  end.

(** An optional string property: [None] reads as [undefined]. *)
Definition ofOpt (o : option string) : jsval :=
  match o with Some s => VStr s | None => VUndefined end.

Definition truthyS (o : option string) : bool := truthy (ofOpt o).

(** [a ?? b] *)
Definition nullish (v : jsval) : bool :=
  match v with VUndefined | VNull => true | _ => false end.

Definition coalesce (a b : jsval) : jsval := if nullish a then b else a.

Section Conversions.
Context {P : Platform}.

(** [Number(v)] *)
Definition ToNumber (v : jsval) : jsnum :=
  match v with
  | VUndefined => NaN
  | VNull => Fin 0
  | VBool true => Fin 1
  | VBool false => Fin 0
  | VNum n => n
  | VStr s => StringToNumber s
  end.

(** [`${v}`] *)
Definition ToString (v : jsval) : string :=
  match v with
  | VUndefined => "undefined"
  | VNull => "null"
  | VBool true => "true"
  | VBool false => "false"
  | VNum n => NumberToString n
  | VStr s => s
  end.
End Conversions.

(** ** [encodeURIComponent] *)

Definition inRange (lo hi : ascii) (c : ascii) : bool :=
  (N.leb (N_of_ascii lo) (N_of_ascii c)) && (N.leb (N_of_ascii c) (N_of_ascii hi)).

Definition isDigit (c : ascii) : bool := inRange "0" "9" c.

Definition isAlpha (c : ascii) : bool := inRange "a" "z" c || inRange "A" "Z" c.

Fixpoint memChar (c : ascii) (s : string) : bool :=
  match s with
  | EmptyString => false
  | String d r => bool_decide (c = d) || memChar c r
  end.

(** The characters [encodeURIComponent] leaves alone. *)
Definition uriUnreserved (c : ascii) : bool :=
  isAlpha c || isDigit c || memChar c "-_.!~*'()".

Definition hexDigit (n : N) : ascii :=
  match String.get (N.to_nat n) "0123456789ABCDEF" with
  | Some c => c
  | None => "0"%char
  end.

Definition pctByte (b : N) : string :=
  String "%" (String (hexDigit (N.div b 16)) (String (hexDigit (N.modulo b 16)) "")).

(** One code unit below 256 is one or two UTF-8 bytes. *)
Definition encodeChar (c : ascii) : string :=
  let n := N_of_ascii c in
  if uriUnreserved c then String c ""
  else if N.ltb n 128 then pctByte n
  else pctByte (192 + N.div n 64) +:+ pctByte (128 + N.modulo n 64).

Fixpoint encodeURIComponentS (s : string) : string :=
  match s with
  | EmptyString => ""
  | String c r => encodeChar c +:+ encodeURIComponentS r
  end.

(** The helper that the source keeps for later use. *)
Definition _encodePasswordIfNeeded (password : string) : string :=
  encodeURIComponentS password.

(** ** [parseInt(s, 10)] *)

(** White space and line terminators among the code units below 256. *)
Definition isStrWhiteSpaceChar (c : ascii) : bool :=
  let n := N_of_ascii c in
  (N.leb 9 n && N.leb n 13) || N.eqb n 32 || N.eqb n 160.

Fixpoint trimStart (s : string) : string :=
  match s with
  | String c r => if isStrWhiteSpaceChar c then trimStart r else s
  | EmptyString => ""
  end.

Definition digitVal (c : ascii) : Z := Z.of_N (N_of_ascii c) - 48.

(** Value of the longest prefix of decimal digits, [None] when it is empty. *)
Fixpoint digitsPrefix (acc : option Z) (s : string) : option Z :=
  match s with
  | String c r =>
      if isDigit c
      then digitsPrefix (Some (10 * default 0 acc + digitVal c)) r
      else acc
  | EmptyString => acc
  end.

(** The double nearest to an integer (ties to even); integers of magnitude
    below 2^53 are exact, and what rounds to 2^1024 or more is infinite. *)
Definition roundInteger (n : Z) : jsnum :=
  let a := Z.abs n in
  if a <? 2 ^ 53 then Fin (inject_Z n)
  else
    let e := Z.log2 a - 52 in
    let q := a / 2 ^ e in
    let r := a mod 2 ^ e in
    let h := 2 ^ (e - 1) in
    let q' := if (h <? r) || ((r =? h) && Z.odd q) then q + 1 else q in
    let m := q' * 2 ^ e in
    if 2 ^ 1024 <=? m then (if n <? 0 then NInf else PInf)
    else Fin (inject_Z (Z.sgn n * m)).

Definition parseInt10 (s : string) : jsnum :=
  let s1 := trimStart s in
  let '(sign, s2) :=
    match s1 with
    | String "-" r => (-1, r)
    | String "+" r => (1, r)
    | _ => (1, s1)
    end in
  match digitsPrefix None s2 with
  | None => NaN
  | Some m => roundInteger (sign * m)
  end.

(** ** Query-string values *)

Fixpoint joinWith (sep : string) (l : list string) : string :=
  match l with
  | [] => ""
  | [x] => x
  | x :: r => x +:+ sep +:+ joinWith sep r
  end.

(** [`${v}`] for a query-string value. *)
Definition qsToString (v : qsval) : string :=
  match v with
  | QAbsent => "undefined"
  | QOne s => s
  | QMany l => joinWith "," l
  end.

(** ** Data model *)

(** [BullhornCredentials]; a caller may leave any field out. *)
Record BullhornCredentials : Type := {
  clientId : option string;
  clientSecret : option string;
  username : option string;
  password : option string
}.

Record TokenInput : Type := {
  restUrl : option string;
  restToken : option string;
  refreshToken : option string;
  accessToken : option string
}.

Definition noTokens : TokenInput :=
  {| restUrl := None; restToken := None; refreshToken := None; accessToken := None |}.

(** The first argument of [loginToBullhorn]: an object with two optional
    properties, or something that is not an object at all. *)
Inductive Params : Type :=
| NotAnObject (v : jsval)
| ParamsObject (credentials : option BullhornCredentials) (tokens : option TokenInput).

Inductive Method : Type := existing | refresh | full | access.

Record AuthResult : Type := {
  r_restUrl : jsval;
  r_restToken : jsval;
  r_refreshToken : jsval;
  r_accessToken : jsval;
  r_minRemaining : option string;
  r_method : Method
}.

(** ** Environment helpers *)

Section Env.
Variable env : gmap string string.

Definition credentialsFromEnv : option BullhornCredentials :=
  let clientId := env !! "BH_CLIENT_ID" in
  let clientSecret := env !! "BH_CLIENT_SECRET" in
  let username := env !! "BH_USERNAME" in
  let password := env !! "BH_PASSWORD" in
  if truthyS clientId && truthyS clientSecret && truthyS username && truthyS password
  then Some {| clientId := clientId; clientSecret := clientSecret;
               username := username; password := password |}
  else None.

(** A JavaScript object with string-or-undefined properties: a key can be
    present and hold [undefined] ([Some None]) or be absent ([None]). *)
Definition tokensFromEnv : gmap string (option string) :=
  let tokens : gmap string (option string) :=
    <["accessToken" := env !! "BH_ACCESS_TOKEN"]>
      (<["refreshToken" := env !! "BH_REFRESH_TOKEN"]>
         (<["restToken" := env !! "BH_REST_TOKEN"]>
            (<["restUrl" := env !! "BH_REST_URL"]> ∅))) in
  foldl (fun (t : gmap string (option string)) k =>
           if bool_decide (mjoin (t !! k) = None) then delete k t else t)
        tokens
        ["restUrl"; "restToken"; "refreshToken"; "accessToken"].
End Env.

(** Reading the properties of such an object as a [TokenInput]. *)
Definition tokenInputOf (o : gmap string (option string)) : TokenInput :=
  {| restUrl := mjoin (o !! "restUrl");
     restToken := mjoin (o !! "restToken");
     refreshToken := mjoin (o !! "refreshToken");
     accessToken := mjoin (o !! "accessToken") |}.

(** ** The outside world *)

(** What [response.json()] gives: a rejection (the body is not JSON), [null],
    or an object read through its scalar fields (a scalar or an array body
    reads as an object without the fields the program asks for). *)
Inductive JsonBody : Type :=
| BodyInvalid
| BodyNull
| BodyObject (fields : gmap string jsval).

(** A fetch [Response]; header names are lower-cased. *)
Record Response : Type := {
  status : Z;
  statusText : string;
  headers : gmap string string;
  body : JsonBody
}.

(** A thrown value: an [Error] with its message and optional [response]
    property, or [undefined]. *)
Inductive exn : Type :=
| ExnUndefined
| ExnError (message : string) (response : option Response).

Record RequestInit : Type := {
  method : string;
  redirect : option string;
  reqHeaders : list (string * string)
}.

(** The argument of [onRetryAttempt]. *)
Record RetryInfo : Type := {
  attempt : Z;
  ri_status : option Z;
  ri_error : string
}.

Inductive event : Type :=
| EvFetch (url : string) (init : RequestInit) (timeoutMs : Q)
| EvObserver (info : RetryInfo)
| EvSleep (ms : Z).

(** A fetch resolves with a response or rejects with an error object
    (a network failure, or the abort raised when the time limit passes). *)
Inductive FetchOutcome : Type :=
| Resolved (res : Response)
| Rejected (message : string) (response : option Response).

(** A deterministic network: the outcome of a fetch is a function of
    everything done so far, the fetch itself being the last event. *)
Definition Transport : Type := list event -> FetchOutcome.

(** An observer: [true] when the call throws. *)
Definition Observer : Type := RetryInfo -> bool.

Record HttpCfg : Type := {
  cfg_timeoutMs : jsval;
  cfg_userAgent : option string;
  cfg_retries : jsval;
  cfg_onRetryAttempt : option Observer
}.

(** What [createHttpOptions] returns; both numbers are finite by construction. *)
Record HttpOptions : Type := {
  o_timeoutMs : Q;
  o_userAgent : string;
  o_retries : Q;
  o_onRetryAttempt : option Observer
}.

Record AuthConfig : Type := {
  ttlDays : jsval;
  minRemainingThreshold : jsval;
  http : option HttpCfg
}.

(** [{}] *)
Definition emptyHttpCfg : HttpCfg :=
  {| cfg_timeoutMs := VUndefined; cfg_userAgent := None;
     cfg_retries := VUndefined; cfg_onRetryAttempt := None |}.

Definition emptyConfig : AuthConfig :=
  {| ttlDays := VUndefined; minRemainingThreshold := VUndefined; http := None |}.

(** ** The monad of the program: a trace, and a result or a thrown value *)

Inductive outcome (A : Type) : Type :=
| Ret (a : A)
| Throw (e : exn)
| OutOfFuel.
Arguments Ret {A} a.
Arguments Throw {A} e.
Arguments OutOfFuel {A}.

Definition M (A : Type) : Type := list event -> outcome A * list event.

Definition ret {A} (a : A) : M A := fun tr => (Ret a, tr).

Definition throw {A} (e : exn) : M A := fun tr => (Throw e, tr).

Definition bind {A B} (m : M A) (k : A -> M B) : M B :=
  fun tr =>
    match m tr with
    | (Ret a, tr') => k a tr'
    | (Throw e, tr') => (Throw e, tr')
    | (OutOfFuel, tr') => (OutOfFuel, tr')
    end.

(** [try { m } catch (e) { h e }] *)
Definition tryCatch {A} (m : M A) (h : exn -> M A) : M A :=
  fun tr =>
    match m tr with
    | (Throw e, tr') => h e tr'
    | r => r
    end.

Definition emit (e : event) : M unit := fun tr => (Ret tt, tr ++ [e]).

Notation "'let!' x ':=' m 'in' k" := (bind m (fun x => k))
  (at level 10, x name, m at level 100, k at level 200).
Notation "'do!' m 'in' k" := (bind m (fun _ => k))
  (at level 10, m at level 100, k at level 200).

Definition newError {A} (msg : string) : M A := throw (ExnError msg None).

(** [err?.response?.status] *)
Definition exnStatus (e : exn) : option Z :=
  match e with
  | ExnError _ (Some r) => Some (status r)
  | _ => None
  end.

Definition exnStatusText (e : exn) : option string :=
  match e with
  | ExnError _ (Some r) => Some (statusText r)
  | _ => None
  end.

(** [err.message]; reading a property of [undefined] throws. *)
Definition exnMessage (e : exn) : M string :=
  match e with
  | ExnError m _ => ret m
  | ExnUndefined => newError "Cannot read properties of undefined (reading 'message')"
  end.

(** ** Transport helper *)

(** [Number.isFinite(v) ? v : d] *)
Definition finiteOr (v : jsval) (d : Q) : Q :=
  match v with VNum (Fin q) => q | _ => d end.

Definition createHttpOptions (httpCfg : HttpCfg) : M HttpOptions :=
  let timeoutMs := finiteOr (cfg_timeoutMs httpCfg) 30000 in
  if Qle_bool timeoutMs 0 then newError "timeoutMs must be a positive number"
  else
    let retries := finiteOr (cfg_retries httpCfg) 0 in
    if Qlt_bool retries 0 then newError "retries must be a non-negative number"
    else
      ret {| o_timeoutMs := timeoutMs;
             o_userAgent := (if truthyS (cfg_userAgent httpCfg)
                             then default "" (cfg_userAgent httpCfg)
                             else "bullhorn-auth-client");
             o_retries := retries;
             o_onRetryAttempt := cfg_onRetryAttempt httpCfg |}.

(** The two rate-limit headers and the status line, for diagnostics. *)
Record BasicLog : Type := {
  log_status : Z;
  log_statusText : string;
  log_limitMinute : option string;
  log_remainingMinute : option string
}.

Definition basicLogFromResponse (res : Response) : BasicLog :=
  {| log_status := status res;
     log_statusText := statusText res;
     log_limitMinute := headers res !! "x-ratelimit-limit-minute";
     log_remainingMinute := headers res !! "x-ratelimit-remaining-minute" |}.

(** [Math.min(1000 * Math.pow(2, attempt - 1), 4000)] *)
Definition backoffMs (attempt : Z) : Z := Z.min (1000 * 2 ^ (attempt - 1)) 4000.

(** [res.status >= 500 || res.status === 429] *)
Definition retryable (res : Response) : bool :=
  (500 <=? status res) || (status res =? 429).

(** How one turn of the [while] loop of [requestWithRetry] ends. *)
Inductive loopExit : Type :=
| LoopReturn (res : Response)
| LoopBreak (lastError : exn)
| LoopContinue (attempt : Z) (lastError : exn).

Section Engine.
Context {P : Platform}.
Variable fetch : Transport.
Variable process_env : gmap string string.

(** The timer only decides which outcome the network reports; the request
    and its time limit are recorded. *)
Definition doFetch (urlStr : string) (init : RequestInit) (httpOpts : HttpOptions)
  : M Response :=
  fun tr =>
    let tr' := tr ++ [EvFetch urlStr init (o_timeoutMs httpOpts)] in
    match fetch tr' with
    | Resolved res => (Ret res, tr')
    | Rejected message response => (Throw (ExnError message response), tr')
    end.

(** [try { httpOpts.onRetryAttempt({...}) } catch {}] *)
Definition notifyRetry (f : Observer) (attempt : Z) (err : exn) : M unit :=
  tryCatch
    (let! msg := exnMessage err in
     let info := {| attempt := attempt; ri_status := exnStatus err; ri_error := msg |} in
     do! emit (EvObserver info) in
     if f info then newError "observer failure" else ret tt)
    (fun _ => ret tt).

(** The body of the loop: the [try] block and its [catch] handler. *)
Definition retryTurn (urlStr : string) (init : RequestInit) (httpOpts : HttpOptions)
           (attempt : Z) : M loopExit :=
  tryCatch
    (let! res := doFetch urlStr init httpOpts in
     if retryable res
     then throw (ExnError ("HTTP " +:+ pretty (status res)) (Some res))
     else ret (LoopReturn res))
    (fun err =>
       let lastError := err in
       let attempt := attempt + 1 in
       if Qlt_bool (o_retries httpOpts) (inject_Z attempt) then ret (LoopBreak lastError)
       else
         do! match o_onRetryAttempt httpOpts with
             | Some f => notifyRetry f attempt err
             | None => ret tt
             end in
         do! emit (EvSleep (backoffMs attempt)) in
         ret (LoopContinue attempt lastError)).

Fixpoint retryLoop (fuel : nat) (urlStr : string) (init : RequestInit)
         (httpOpts : HttpOptions) (attempt : Z) (lastError : exn) : M Response :=
  match fuel with
  | O => fun tr => (OutOfFuel, tr)
  | S fuel' =>
      if Qle_bool (inject_Z attempt) (o_retries httpOpts) then
        let! x := retryTurn urlStr init httpOpts attempt in
        match x with
        | LoopReturn res => ret res
        | LoopBreak lastError => throw lastError
        | LoopContinue attempt lastError =>
            retryLoop fuel' urlStr init httpOpts attempt lastError
        end
      else throw lastError
  end.

(** The loop runs at most [floor retries + 1] turns. *)
Definition retryFuel (httpOpts : HttpOptions) : nat :=
  S (Z.to_nat (Qfloor (o_retries httpOpts))).

Definition requestWithRetry (urlStr : string) (init : RequestInit)
           (httpOpts : HttpOptions) : M Response :=
  retryLoop (retryFuel httpOpts) urlStr init httpOpts 0 ExnUndefined.

(** ** Protocol operations *)

Definition GET : RequestInit := {| method := "GET"; redirect := None; reqHeaders := [] |}.
Definition POST : RequestInit := {| method := "POST"; redirect := None; reqHeaders := [] |}.

(** [await response.json()] *)
Definition json (res : Response) : M (option (gmap string jsval)) :=
  match body res with
  | BodyInvalid => newError "Unexpected end of JSON input"
  | BodyNull => ret None
  | BodyObject fields => ret (Some fields)
  end.

(** [body.k]; reading a property of [null] throws. *)
Definition prop (b : option (gmap string jsval)) (k : string) : M jsval :=
  match b with
  | None => newError ("Cannot read properties of null (reading '" +:+ k +:+ "')")
  | Some fields => ret (default VUndefined (fields !! k))
  end.

Record LoginInfo : Type := {
  li_oauthUrl : jsval;
  li_restUrl : jsval;
  li_raw : BasicLog
}.

Definition loginInfoUrl (username : string) : string :=
  "https://rest.bullhornstaffing.com/rest-services/loginInfo?username="
    +:+ encodeURIComponentS username.

Definition loginInfo (httpOpts : HttpOptions) (username : option string) : M LoginInfo :=
  if negb (truthyS username) then newError "username must be a non-empty string"
  else
    let urlStr := loginInfoUrl (default "" username) in
    let! response := requestWithRetry urlStr GET httpOpts in
    let! body := json response in
    let! oauthUrl := prop body "oauthUrl" in
    let! restUrl := prop body "restUrl" in
    ret {| li_oauthUrl := oauthUrl; li_restUrl := restUrl;
           li_raw := basicLogFromResponse response |}.

Inductive Step0Result : Type :=
| Step0Ok (accessToken refreshToken : jsval) (raw : BasicLog)
| Step0Fail (status : option Z) (error : string) (statusText : option string).

Definition step0Url (oauthUrl refreshToken clientId clientSecret : jsval) : string :=
  ToString oauthUrl +:+ "/token?grant_type=refresh_token&refresh_token="
    +:+ ToString refreshToken +:+ "&client_id=" +:+ ToString clientId
    +:+ "&client_secret=" +:+ ToString clientSecret.

Definition step0 (httpOpts : HttpOptions)
           (oauthUrl refreshToken clientId clientSecret : jsval) : M Step0Result :=
  tryCatch
    (let urlStr := step0Url oauthUrl refreshToken clientId clientSecret in
     let! response := requestWithRetry urlStr POST httpOpts in
     let! body := json response in
     let! access_token := prop body "access_token" in
     let! refresh_token := prop body "refresh_token" in
     ret (Step0Ok access_token refresh_token (basicLogFromResponse response)))
    (fun error =>
       let status := exnStatus error in
       let! msg := exnMessage error in
       ret (Step0Fail status msg (exnStatusText error))).

Record Step1Result : Type := {
  tmpAuthCode : qsval;
  s1_raw : BasicLog
}.

Definition step1Url (oauthUrl clientId username password : jsval) : string :=
  ToString oauthUrl +:+ "/authorize?client_id=" +:+ ToString clientId
    +:+ "&response_type=code&action=Login&username="
    +:+ encodeURIComponentS (ToString username)
    +:+ "&password=" +:+ encodeURIComponentS (ToString password).

Definition step1Init : RequestInit :=
  {| method := "GET"; redirect := Some "manual";
     reqHeaders := [("Content-Type", "application/x-www-form-urlencoded")] |}.

(** [url.parse(location).query]; [url.parse] refuses an argument that is
    not a string, and some strings. *)
Definition parsedQuery (location : option string) : M (option string) :=
  match location with
  | None => newError "The 'url' argument must be of type string. Received null"
  | Some l =>
      match url_parse_query l with
      | Some query => ret query
      | None => newError "Invalid URL"
      end
  end.

(** [qs.parse(query).code]; what is not a string parses to an empty object. *)
Definition queryCode (query : option string) : qsval :=
  match query with
  | None => QAbsent
  | Some q => qs_parse_get q "code"
  end.

Definition step1 (httpOpts : HttpOptions)
           (oauthUrl clientId username password : jsval) : M Step1Result :=
  let urlStr := step1Url oauthUrl clientId username password in
  let! response := requestWithRetry urlStr step1Init httpOpts in
  let location := headers response !! "location" in
  let! query := parsedQuery location in
  let tmpAuthCode := queryCode query in
  ret {| tmpAuthCode := tmpAuthCode; s1_raw := basicLogFromResponse response |}.

Record Step2Result : Type := {
  s2_accessToken : jsval;
  s2_refreshToken : jsval;
  s2_raw : BasicLog
}.

Definition step2Url (oauthUrl clientId clientSecret : jsval) (tmpAuthCode : qsval) : string :=
  ToString oauthUrl +:+ "/token?grant_type=authorization_code&client_id="
    +:+ ToString clientId +:+ "&client_secret=" +:+ ToString clientSecret
    +:+ "&code=" +:+ qsToString tmpAuthCode.

Definition step2 (httpOpts : HttpOptions)
           (oauthUrl clientId clientSecret : jsval) (tmpAuthCode : qsval) : M Step2Result :=
  let urlStr := step2Url oauthUrl clientId clientSecret tmpAuthCode in
  let! response := requestWithRetry urlStr POST httpOpts in
  let! body := json response in
  let! access_token := prop body "access_token" in
  let! refresh_token := prop body "refresh_token" in
  ret {| s2_accessToken := access_token; s2_refreshToken := refresh_token;
         s2_raw := basicLogFromResponse response |}.

Record Step3Result : Type := {
  s3_restUrl : jsval;
  s3_restToken : jsval;
  s3_raw : BasicLog
}.

(** [process.env.BULLHORN_TTL || 30] *)
Definition envTtl : jsval :=
  if truthyS (process_env !! "BULLHORN_TTL")
  then ofOpt (process_env !! "BULLHORN_TTL")
  else VNum (Fin 30).

Definition step3Url (restUrl accessToken : jsval) (ttlDays : jsnum) : string :=
  let ttl := if num_isFinite ttlDays then ttlDays else ToNumber envTtl in
  ToString restUrl +:+ "/login?version=*&access_token=" +:+ ToString accessToken
    +:+ "&ttl=" +:+ NumberToString ttl.

Definition step3 (httpOpts : HttpOptions) (restUrl accessToken : jsval)
           (ttlDays : jsnum) : M Step3Result :=
  let urlStr := step3Url restUrl accessToken ttlDays in
  let! response := requestWithRetry urlStr POST httpOpts in
  let! body := json response in
  let! restUrl := prop body "restUrl" in
  let! BhRestToken := prop body "BhRestToken" in
  ret {| s3_restUrl := restUrl; s3_restToken := BhRestToken;
         s3_raw := basicLogFromResponse response |}.

Inductive PingResult : Type :=
| PingOk (minRemaining : option string) (raw : BasicLog)
| PingFail (status : option Z) (error : string) (statusText : option string).

Definition pingUrl (restUrl : jsval) : string := ToString restUrl +:+ "/ping".

Definition pingInit (restToken : jsval) : RequestInit :=
  {| method := "GET"; redirect := None;
     reqHeaders := [("BhRestToken", ToString restToken)] |}.

Definition ping (httpOpts : HttpOptions) (restUrl restToken : jsval) : M PingResult :=
  tryCatch
    (let urlStr := pingUrl restUrl in
     let! response := requestWithRetry urlStr (pingInit restToken) httpOpts in
     let log := basicLogFromResponse response in
     let minRemaining := headers response !! "x-ratelimit-remaining-minute" in
     ret (PingOk (match minRemaining with
                  | Some x => Some x
                  | None => log_remainingMinute log
                  end) log))
    (fun error =>
       let status := exnStatus error in
       let! msg := exnMessage error in
       ret (PingFail status msg (exnStatusText error))).

(** ** The decision procedure *)

(** [creds?.f] *)
Definition credField (f : BullhornCredentials -> option string)
           (creds : option BullhornCredentials) : option string :=
  creds ≫= f.

(** [Number(configured ?? process.env[name] ?? fallback)] *)
Definition numberSetting (configured : jsval) (name : string) (fallback : Q) : jsnum :=
  ToNumber (coalesce (coalesce configured (ofOpt (process_env !! name)))
                     (VNum (Fin fallback))).

(** The [if (tokens.restToken && tokens.restUrl)] block: [Some] is its
    [return], [None] is leaving the block at its end. *)
Definition tryExisting (httpOpts : HttpOptions) (threshold : jsnum)
           (tokens : TokenInput) : M (option AuthResult) :=
  if truthyS (restToken tokens) && truthyS (restUrl tokens) then
    let! pingResult := ping httpOpts (ofOpt (restUrl tokens)) (ofOpt (restToken tokens)) in
    match pingResult with
    | PingOk minRemaining _ =>
        let remaining := parseInt10 (default "0" minRemaining) in
        if num_isFinite remaining && num_gt remaining threshold then
          ret (Some {| r_restUrl := ofOpt (restUrl tokens);
                       r_restToken := ofOpt (restToken tokens);
                       r_refreshToken := ofOpt (refreshToken tokens);
                       r_accessToken := ofOpt (accessToken tokens);
                       r_minRemaining := Some (default "" minRemaining);
                       r_method := existing |})
        else ret None
    | PingFail _ _ _ => ret None
    end
  else ret None.

(** The [if (tokens.refreshToken && creds?.clientId && ...)] block. *)
Definition tryRefresh (httpOpts : HttpOptions) (ttlDays : jsnum)
           (tokens : TokenInput) (creds : option BullhornCredentials)
  : M (option AuthResult) :=
  if truthyS (refreshToken tokens) && truthyS (credField clientId creds)
     && truthyS (credField clientSecret creds) && truthyS (credField username creds) then
    let! info := loginInfo httpOpts (credField username creds) in
    let oauthUrl := li_oauthUrl info in
    let restUrl := li_restUrl info in
    let! r0 := step0 httpOpts oauthUrl (ofOpt (refreshToken tokens))
                     (ofOpt (credField clientId creds))
                     (ofOpt (credField clientSecret creds)) in
    match r0 with
    | Step0Ok r0_accessToken r0_refreshToken _ =>
        let! r3 := step3 httpOpts restUrl r0_accessToken ttlDays in
        ret (Some {| r_restUrl := s3_restUrl r3;
                     r_restToken := s3_restToken r3;
                     r_refreshToken := r0_refreshToken;
                     r_accessToken := r0_accessToken;
                     r_minRemaining := None;
                     r_method := refresh |})
    | Step0Fail _ _ _ => ret None
    end
  else ret None.

(** The [if (tokens.accessToken)] block. *)
Definition tryAccess (httpOpts : HttpOptions) (ttlDays : jsnum)
           (tokens : TokenInput) (creds : option BullhornCredentials)
  : M (option AuthResult) :=
  if truthyS (accessToken tokens) then
    let restUrl0 := ofOpt (restUrl tokens) in
    let! restUrl :=
      (if negb (truthy restUrl0) && truthyS (credField username creds) then
         let! info := loginInfo httpOpts (credField username creds) in
         ret (li_restUrl info)
       else ret restUrl0) in
    if negb (truthy restUrl) then
      newError "accessToken provided but restUrl (or credentials.username to derive it) is missing"
    else
      let! s3 := step3 httpOpts restUrl (ofOpt (accessToken tokens)) ttlDays in
      ret (Some {| r_restUrl := s3_restUrl s3;
                   r_restToken := s3_restToken s3;
                   r_refreshToken := ofOpt (refreshToken tokens);
                   r_accessToken := ofOpt (accessToken tokens);
                   r_minRemaining := None;
                   r_method := access |})
  else ret None.

Definition insufficientInput : string :=
  "Insufficient input: provide either (restUrl+restToken) or (refreshToken+client creds) or full credentials".

(** The rest of the function: the credential check and the full login. *)
Definition fullLogin (httpOpts : HttpOptions) (ttlDays : jsnum)
           (creds : option BullhornCredentials) : M AuthResult :=
  if negb (truthyS (credField clientId creds)) || negb (truthyS (credField clientSecret creds))
     || negb (truthyS (credField username creds)) || negb (truthyS (credField password creds))
  then newError insufficientInput
  else
    let! info := loginInfo httpOpts (credField username creds) in
    let oauthUrl := li_oauthUrl info in
    let restUrl := li_restUrl info in
    let! s1 := step1 httpOpts oauthUrl (ofOpt (credField clientId creds))
                     (ofOpt (credField username creds))
                     (ofOpt (credField password creds)) in
    let! s2 := step2 httpOpts oauthUrl (ofOpt (credField clientId creds))
                     (ofOpt (credField clientSecret creds)) (tmpAuthCode s1) in
    let! s3 := step3 httpOpts restUrl (s2_accessToken s2) ttlDays in
    ret {| r_restUrl := s3_restUrl s3;
           r_restToken := s3_restToken s3;
           r_refreshToken := s2_refreshToken s2;
           r_accessToken := s2_accessToken s2;
           r_minRemaining := None;
           r_method := full |}.

(** The three validations of the configuration, in source order. *)
Definition validateConfig (config : AuthConfig) : M (HttpOptions * jsnum * jsnum) :=
  let! httpOpts := createHttpOptions (default emptyHttpCfg (http config)) in
  let threshold := numberSetting (minRemainingThreshold config) "THRESHOLD_REMAINING_MIN" 100 in
  if negb (num_isFinite threshold) || num_lt0 threshold
  then newError "minRemainingThreshold must be a non-negative number"
  else
    let ttlDays := numberSetting (ttlDays config) "BULLHORN_TTL" 30 in
    if negb (num_isFinite ttlDays) || num_le0 ttlDays
    then newError "ttlDays must be a positive number"
    else ret (httpOpts, threshold, ttlDays).

(** From the access-token block to the end of the function. *)
Definition fromAccess (httpOpts : HttpOptions) (ttlDays : jsnum)
           (tokens : TokenInput) (creds : option BullhornCredentials) : M AuthResult :=
  let! r3 := tryAccess httpOpts ttlDays tokens creds in
  match r3 with
  | Some r => ret r
  | None => fullLogin httpOpts ttlDays creds
  end.

(** From the refresh block to the end of the function. *)
Definition fromRefresh (httpOpts : HttpOptions) (ttlDays : jsnum)
           (tokens : TokenInput) (creds : option BullhornCredentials) : M AuthResult :=
  let! r2 := tryRefresh httpOpts ttlDays tokens creds in
  match r2 with
  | Some r => ret r
  | None => fromAccess httpOpts ttlDays tokens creds
  end.

Definition loginToBullhorn (params : Params) (config : AuthConfig) : M AuthResult :=
  match params with
  | NotAnObject _ => newError "params must be an object with credentials and/or tokens"
  | ParamsObject credentials tokens =>
      let! cfg := validateConfig config in
      let '(httpOpts, threshold, ttlDays) := cfg in
      let tokens := default noTokens tokens in
      let creds := credentials in
      let! r1 := tryExisting httpOpts threshold tokens in
      match r1 with
      | Some r => ret r
      | None => fromRefresh httpOpts ttlDays tokens creds
      end
  end.
End Engine.

(** ** Concrete runtimes and networks for the examples *)

(** A runtime for the examples: it reads and prints decimal integers and
    takes plain URLs and query strings apart, which is all the examples ask
    of it. *)
Definition sampleStringToNumber (s : string) : jsnum :=
  match s with
  | EmptyString => Fin 0
  | String "-" r =>
      match digitsPrefix None r with
      | Some m => if bool_decide (r = pretty m) then Fin (inject_Z (- m)) else NaN
      | None => NaN
      end
  | _ =>
      match digitsPrefix None s with
      | Some m => if bool_decide (s = pretty m) then Fin (inject_Z m) else NaN
      | None => NaN
      end
  end.

Definition sampleNumberToString (n : jsnum) : string :=
  match n with
  | NaN => "NaN"
  | PInf => "Infinity"
  | NInf => "-Infinity"
  | Fin q => pretty (Qfloor q)
  end.

(** Cut a string at the first occurrence of a character. *)
Fixpoint cutAt (c : ascii) (s : string) : string * option string :=
  match s with
  | EmptyString => ("", None)
  | String d r =>
      if bool_decide (d = c) then ("", Some r)
      else let '(a, b) := cutAt c r in (String d a, b)
  end.

Fixpoint splitOn (c : ascii) (s : string) : list string :=
  match s with
  | EmptyString => [""]
  | String d r =>
      if bool_decide (d = c) then "" :: splitOn c r
      else match splitOn c r with
           | x :: xs => String d x :: xs
           | [] => [String d ""]
           end
  end.

(** The query of a plain URL: what stands between the first [?] and the
    fragment. *)
Definition sampleQuery (s : string) : option (option string) :=
  Some (snd (cutAt "?" (fst (cutAt "#" s)))).

(** The values of a key in a query string without escapes. *)
Definition sampleQsGet (q k : string) : qsval :=
  let pairs := (fun seg => let '(key, v) := cutAt "=" seg in (key, default "" v))
                 <$> filter (fun seg => seg <> "") (splitOn "&" q) in
  match snd <$> filter (fun kv => fst kv = k) pairs with
  | [] => QAbsent
  | [v] => QOne v
  | vs => QMany vs
  end.

Definition samplePlatform : Platform :=
  {| StringToNumber := sampleStringToNumber;
     NumberToString := sampleNumberToString;
     url_parse_query := sampleQuery;
     qs_parse_get := sampleQsGet |}.

(** Number of requests in a history. *)
Definition isFetch (e : event) : bool :=
  match e with EvFetch _ _ _ => true | _ => false end.

Fixpoint fetches (tr : list event) : nat :=
  match tr with
  | [] => O
  | e :: r => ((if isFetch e then 1 else 0) + fetches r)%nat
  end.

(** A network that answers the n-th request (from 0) with [f n]. *)
Definition bySequence (f : nat -> FetchOutcome) : Transport :=
  fun tr => f (pred (fetches tr)).

(** The network of the test suite: the responses in order, the last one
    repeated. *)
Definition fetchSequence (responses : list FetchOutcome) : Transport :=
  bySequence (fun n =>
    match responses !! n with
    | Some r => r
    | None => List.last responses (Rejected "fetch failed" None)
    end).

Definition response (st : Z) (hs : list (string * string)) (fields : list (string * jsval))
  : Response :=
  {| status := st; statusText := (if st =? 200 then "OK" else "");
     headers := list_to_map hs; body := BodyObject (list_to_map fields) |}.

Definition sampleOptions (retries : Z) (obs : option Observer) : HttpOptions :=
  {| o_timeoutMs := 30000; o_userAgent := "bullhorn-auth-client";
     o_retries := inject_Z retries; o_onRetryAttempt := obs |}.

(** The same options with another observer. *)
Definition withObserver (httpOpts : HttpOptions) (g : Observer) : HttpOptions :=
  {| o_timeoutMs := o_timeoutMs httpOpts; o_userAgent := o_userAgent httpOpts;
     o_retries := o_retries httpOpts; o_onRetryAttempt := Some g |}.

(** Two server errors, then success. *)
Definition twoFailures : nat -> FetchOutcome :=
  fun n =>
    match n with
    | O => Resolved (response 500 [] [])
    | S O => Resolved (response 503 [] [])
    | _ => Resolved (response 200 [("x-ratelimit-remaining-minute", "500")] [])
    end.

Definition error500 : exn := ExnError "HTTP 500" (Some (response 500 [] [])).
Definition error503 : exn := ExnError "HTTP 503" (Some (response 503 [] [])).

(** An observer that always throws. *)
Definition throwingObserver : Observer := fun _ => true.

(** A session that answers every ping with a remaining quota of 500. *)
Definition healthySession : Transport :=
  bySequence (fun _ => Resolved (response 200 [("x-ratelimit-remaining-minute", "500")] [])).

(** A server that answers 401 without rate-limit headers. *)
Definition unauthorized : Transport :=
  bySequence (fun _ => Resolved (response 401 [] [])).

Definition sessionTokens : TokenInput :=
  {| restUrl := Some "https://rest"; restToken := Some "T";
     refreshToken := None; accessToken := None |}.

Definition threshold100 : AuthConfig :=
  {| ttlDays := VUndefined; minRemainingThreshold := VNum (Fin 100); http := None |}.

(** What [createHttpOptions({})] returns. *)
Definition defaultOptions : HttpOptions :=
  {| o_timeoutMs := 30000; o_userAgent := "bullhorn-auth-client";
     o_retries := 0; o_onRetryAttempt := None |}.

(** [timeoutMs: -Infinity] *)
Definition timeoutMinusInfinity : AuthConfig :=
  {| ttlDays := VUndefined; minRemainingThreshold := VUndefined;
     http := Some {| cfg_timeoutMs := VNum NInf; cfg_userAgent := None;
                     cfg_retries := VUndefined; cfg_onRetryAttempt := None |} |}.

(** [ttlDays: 0] *)
Definition ttlZero : AuthConfig :=
  {| ttlDays := VNum (Fin 0); minRemainingThreshold := VUndefined; http := None |}.

(** A redirect whose target has no [code] parameter. *)
Definition redirectWithoutCode : Transport :=
  bySequence (fun _ => Resolved (response 302 [("location", "https://cb")] [])).

(** All four credential variables are set, the password to the empty string. *)
Definition emptyPasswordEnv : gmap string string :=
  <["BH_CLIENT_ID" := "id"]>
    (<["BH_CLIENT_SECRET" := "sec"]>
       (<["BH_USERNAME" := "u"]> (<["BH_PASSWORD" := ""]> ∅))).

(** The refresh request as the specification words it: every value
    percent-encoded. *)
Definition spec_step0Url {P : Platform} (oauthUrl refreshToken clientId clientSecret : jsval)
  : string :=
  ToString oauthUrl +:+ "/token?grant_type=refresh_token&refresh_token="
    +:+ encodeURIComponentS (ToString refreshToken)
    +:+ "&client_id=" +:+ encodeURIComponentS (ToString clientId)
    +:+ "&client_secret=" +:+ encodeURIComponentS (ToString clientSecret).

Definition redirectWithCode : Transport :=
  bySequence (fun _ => Resolved (response 302 [("location", "https://cb?code=CODE")] [])).

Definition fullCredentials : BullhornCredentials :=
  {| clientId := Some "id"; clientSecret := Some "sec";
     username := Some "u"; password := Some "p" |}.

(** The refresh scenario of the test suite: the ping is answered 401, then
    [loginInfo], the refresh exchange and the REST login succeed. *)
Definition refreshScenario : Transport :=
  fetchSequence
    [Resolved (response 401 [] []);
     Resolved (response 200 [] [("oauthUrl", VStr "https://oauth");
                                ("restUrl", VStr "https://rest")]);
     Resolved (response 200 [] [("access_token", VStr "A"); ("refresh_token", VStr "R2")]);
     Resolved (response 200 [] [("restUrl", VStr "https://rest"); ("BhRestToken", VStr "RT")])].

Definition staleTokens : TokenInput :=
  {| restUrl := Some "https://rest"; restToken := Some "bad";
     refreshToken := Some "R1"; accessToken := None |}.

(** The access-token scenario of the test suite. *)
Definition accessScenario : Transport :=
  fetchSequence
    [Resolved (response 200 [] [("restUrl", VStr "https://rest"); ("BhRestToken", VStr "RT")])].

Definition accessTokens : TokenInput :=
  {| restUrl := Some "https://rest"; restToken := None;
     refreshToken := None; accessToken := Some "A" |}.

(** The full-login scenario of the test suite. *)
Definition fullLoginScenario : Transport :=
  fetchSequence
    [Resolved (response 200 [] [("oauthUrl", VStr "https://oauth");
                                ("restUrl", VStr "https://rest")]);
     Resolved (response 302 [("location", "https://cb?code=CODE")] []);
     Resolved (response 200 [] [("access_token", VStr "A"); ("refresh_token", VStr "R")]);
     Resolved (response 200 [] [("restUrl", VStr "https://rest"); ("BhRestToken", VStr "RT")])].

(** The network of the test "retry callback error is handled gracefully":
    one rejected request, then a healthy ping. *)
Definition oneRejection : Transport :=
  fetchSequence
    [Rejected "Server error"
              (Some {| status := 500; statusText := ""; headers := ∅; body := BodyInvalid |});
     Resolved (response 200 [("x-ratelimit-remaining-minute", "500")] [])].

Definition oneRetryObserved : AuthConfig :=
  {| ttlDays := VUndefined; minRemainingThreshold := VNum (Fin 100);
     http := Some {| cfg_timeoutMs := VNum (Fin 1000); cfg_userAgent := None;
                     cfg_retries := VNum (Fin 1);
                     cfg_onRetryAttempt := Some throwingObserver |} |}.

(** The longest call: the ping and the refresh exchange are answered 500,
    then the full login succeeds. *)
Definition longestScenario : Transport :=
  fetchSequence
    [Resolved (response 500 [] []);
     Resolved (response 200 [] [("oauthUrl", VStr "https://oauth");
                                ("restUrl", VStr "https://rest")]);
     Resolved (response 500 [] []);
     Resolved (response 200 [] [("oauthUrl", VStr "https://oauth");
                                ("restUrl", VStr "https://rest")]);
     Resolved (response 302 [("location", "https://cb?code=CODE")] []);
     Resolved (response 200 [] [("access_token", VStr "A"); ("refresh_token", VStr "R")]);
     Resolved (response 200 [] [("restUrl", VStr "https://rest"); ("BhRestToken", VStr "RT")])].

(** A server that answers 401 with the quota header of a live session. *)
Definition unauthorizedWithQuota : Transport :=
  bySequence (fun _ => Resolved (response 401 [("x-ratelimit-remaining-minute", "500")]
                                          [("errorMessage", VStr "Bad token")])).

(** A token endpoint that refuses the refresh token with a 400 and an
    error body, after a successful [loginInfo]. *)
Definition refusedRefresh : Transport :=
  fetchSequence
    [Resolved (response 200 [] [("oauthUrl", VStr "https://oauth");
                                ("restUrl", VStr "https://rest")]);
     Resolved (response 400 [] [("error", VStr "invalid_grant")]);
     Resolved (response 401 [] [("errorMessage", VStr "Bad token")])].

Definition refreshOnlyTokens : TokenInput :=
  {| restUrl := None; restToken := None; refreshToken := Some "R1"; accessToken := None |}.

(** The environment of a complete set of credentials. *)
Definition credentialsEnv : gmap string string :=
  <["BH_CLIENT_ID" := "id"]>
    (<["BH_CLIENT_SECRET" := "sec"]>
       (<["BH_USERNAME" := "u"]> (<["BH_PASSWORD" := "p"]> ∅))).

(** [BULLHORN_TTL] is set, to the empty string. *)
Definition emptyTtlEnv : gmap string string := <["BULLHORN_TTL" := ""]> ∅.

(** ** Vocabulary of the statements *)

(** The error that the retry loop sees for an outcome of the network, if
    the outcome is a failure. *)
Definition failureOf (o : FetchOutcome) : option exn :=
  match o with
  | Resolved res =>
      if retryable res then Some (ExnError ("HTTP " +:+ pretty (status res)) (Some res))
      else None
  | Rejected m r => Some (ExnError m r)
  end.

(** What the observer is told about a failed attempt. *)
Definition retryInfoOf (a : Z) (err : exn) : RetryInfo :=
  {| attempt := a; ri_status := exnStatus err;
     ri_error := match err with ExnError m _ => m | ExnUndefined => "" end |}.

Definition observerEvents (obs : option Observer) (a : Z) (err : exn) : list event :=
  match obs, err with
  | Some _, ExnError _ _ => [EvObserver (retryInfoOf a err)]
  | _, _ => []
  end.

(** The events of the failed attempts [a+1], [a+2], ... that are retried. *)
Fixpoint failedTurns (urlStr : string) (init : RequestInit) (httpOpts : HttpOptions)
         (errs : list exn) (a : Z) : list event :=
  match errs with
  | [] => []
  | err :: rest =>
      EvFetch urlStr init (o_timeoutMs httpOpts)
        :: observerEvents (o_onRetryAttempt httpOpts) (a + 1) err
        ++ EvSleep (backoffMs (a + 1))
        :: failedTurns urlStr init httpOpts rest (a + 1)
  end.

(** Every event is the given request, or no request at all. *)
Definition sameTarget (target : event) (d : list event) : Prop :=
  Forall (fun e => isFetch e = true -> e = target) d.

(** [errs] lists the failures of the next requests on a network that
    answers by sequence number, in order. *)
Definition nextFailures (f : nat -> FetchOutcome) (tr : list event) (errs : list exn) : Prop :=
  forall (i : nat) err,
    errs !! i = Some err -> failureOf (f (fetches tr + i)%nat) = Some err.

(** An outcome that is a value or a thrown error object. *)
Definition settled {A} (o : outcome A) : Prop :=
  match o with
  | Ret _ => True
  | Throw (ExnError _ _) => True
  | _ => False
  end.

(** A computation that ends and does nothing to the outside world. *)
Definition quiet {A} (m : M A) : Prop :=
  forall t, snd (m t) = t /\ settled (fst (m t)).

(** [tr'] extends [tr] by the given request, followed by events among which
    every request is that same request again. *)
Definition startsWith (target : event) (tr tr' : list event) : Prop :=
  exists d, tr' = tr ++ target :: d /\ sameTarget target d.

(** The error of the access-token block when no REST URL is at hand. *)
Definition missingRestUrl : exn :=
  ExnError "accessToken provided but restUrl (or credentials.username to derive it) is missing"
           None.

(** The characters that can occur in the output of [encodeURIComponent]. *)
Definition uriSafe (c : ascii) : bool := uriUnreserved c || bool_decide (c = "%"%char).

Fixpoint allChars (p : ascii -> bool) (s : string) : bool :=
  match s with
  | EmptyString => true
  | String c r => p c && allChars p r
  end.

(** Total time waited and number of waits in a trace. *)
Fixpoint sleepTotal (tr : list event) : Z :=
  match tr with
  | [] => 0
  | EvSleep ms :: r => ms + sleepTotal r
  | _ :: r => sleepTotal r
  end.

Fixpoint sleeps (tr : list event) : nat :=
  match tr with
  | [] => O
  | EvSleep _ :: r => S (sleeps r)
  | _ :: r => sleeps r
  end.

(** A computation that ends with a value or an error object after at most
    [n] uses of the transport helper: at most [n] times the requests, and
    [n] times the waiting, that one use can take. *)
Definition bounded (httpOpts : HttpOptions) (n : nat) {A} (m : M A) : Prop :=
  forall tr, exists o d,
    m tr = (o, tr ++ d)
    /\ settled o
    /\ (fetches d <= n * retryFuel httpOpts)%nat
    /\ sleepTotal d <= Z.of_nat n * (4000 * Qfloor (o_retries httpOpts)).

(** The observer calls of a trace, in order. *)
Fixpoint observed (tr : list event) : list RetryInfo :=
  match tr with
  | [] => []
  | EvObserver info :: r => info :: observed r
  | _ :: r => observed r
  end.

(** The reading of the retry sequence in which the wait comes first: every
    observer call directly follows the wait of its attempt. *)
Definition observerAfterDelay (tr : list event) : Prop :=
  forall pre info post,
    tr = pre ++ EvObserver info :: post ->
    exists pre', pre = pre' ++ [EvSleep (backoffMs (attempt info))].

(** The same options with another user agent. *)
Definition withUserAgent (httpOpts : HttpOptions) (ua : string) : HttpOptions :=
  {| o_timeoutMs := o_timeoutMs httpOpts; o_userAgent := ua;
     o_retries := o_retries httpOpts; o_onRetryAttempt := o_onRetryAttempt httpOpts |}.

(** The same configuration with another [http.userAgent]. *)
Definition configWithUserAgent (config : AuthConfig) (ua : option string) : AuthConfig :=
  let h := default emptyHttpCfg (http config) in
  {| ttlDays := ttlDays config;
     minRemainingThreshold := minRemainingThreshold config;
     http := Some {| cfg_timeoutMs := cfg_timeoutMs h; cfg_userAgent := ua;
                     cfg_retries := cfg_retries h;
                     cfg_onRetryAttempt := cfg_onRetryAttempt h |} |}.

(** * Properties *)

(** ** Arithmetic of the loop guard *)

Lemma Qle_bool_inject_floor (a : Z) (r : Q) :
  Qle_bool (inject_Z a) r = true <-> a <= Qfloor r.
Proof.
  rewrite Qle_bool_iff. split.
  - intros Hle. rewrite <- (Qfloor_Z a). now apply Qfloor_resp_le.
  - intros Hle. apply Qle_trans with (inject_Z (Qfloor r)).
    + now rewrite <- Zle_Qle.
    + apply Qfloor_le.
Qed.

Lemma Qlt_bool_floor_inject (a : Z) (r : Q) :
  Qlt_bool r (inject_Z a) = true <-> Qfloor r < a.
Proof.
  unfold Qlt_bool. rewrite negb_true_iff.
  destruct (Qle_bool (inject_Z a) r) eqn:E.
  - apply Qle_bool_inject_floor in E. split; [discriminate | lia].
  - split; [intros _ | reflexivity].
    destruct (Z_lt_le_dec (Qfloor r) a) as [Hlt | Hle]; [exact Hlt |].
    apply Qle_bool_inject_floor in Hle. congruence.
Qed.

Lemma backoffMs_values (a : Z) :
  1 <= a ->
  backoffMs a = (if a =? 1 then 1000 else if a =? 2 then 2000 else 4000).
Proof.
  intros Ha. unfold backoffMs.
  destruct (a =? 1) eqn:E1; [apply Z.eqb_eq in E1; subst; reflexivity |].
  destruct (a =? 2) eqn:E2; [apply Z.eqb_eq in E2; subst; reflexivity |].
  apply Z.eqb_neq in E1, E2.
  apply Z.min_r.
  assert (H4 : 4 = 2 ^ 2) by reflexivity.
  assert (Hpow : 2 ^ 2 <= 2 ^ (a - 1)) by (apply Z.pow_le_mono_r; lia).
  lia.
Qed.

(** ** Counting requests *)

Lemma fetches_app (t1 t2 : list event) :
  fetches (t1 ++ t2) = (fetches t1 + fetches t2)%nat.
Proof.
  induction t1 as [| e t1 IH]; simpl; [reflexivity |].
  rewrite IH. lia.
Qed.

Lemma observerEvents_no_fetch obs a err : fetches (observerEvents obs a err) = O.
Proof. destruct obs, err; reflexivity. Qed.

Lemma fetches_failedTurns urlStr init httpOpts errs a :
  fetches (failedTurns urlStr init httpOpts errs a) = length errs.
Proof.
  revert a. induction errs as [| e errs IH]; intros a; simpl; [reflexivity |].
  rewrite fetches_app, observerEvents_no_fetch. simpl. now rewrite IH.
Qed.

(** ** The retry loop *)

Section RetryFacts.
Variable fetch : Transport.
Variables (urlStr : string) (init : RequestInit) (httpOpts : HttpOptions).

Local Abbreviation theFetch := (EvFetch urlStr init (o_timeoutMs httpOpts)).

Lemma notifyRetry_run f a err tr :
  notifyRetry f a err tr = (Ret tt, tr ++ observerEvents (Some f) a err).
Proof.
  unfold notifyRetry, tryCatch, bind, emit, exnMessage, newError, throw, ret.
  destruct err as [| m r]; simpl.
  - now rewrite app_nil_r.
  - unfold retryInfoOf; simpl. now destruct (f _).
Qed.

Lemma retryTurn_ok a tr res :
  fetch (tr ++ [theFetch]) = Resolved res ->
  retryable res = false ->
  retryTurn fetch urlStr init httpOpts a tr = (Ret (LoopReturn res), tr ++ [theFetch]).
Proof.
  intros Hf Hr.
  unfold retryTurn, tryCatch, bind, doFetch.
  now rewrite Hf, Hr.
Qed.

Lemma retryTurn_fail a tr err :
  failureOf (fetch (tr ++ [theFetch])) = Some err ->
  retryTurn fetch urlStr init httpOpts a tr =
    if Qlt_bool (o_retries httpOpts) (inject_Z (a + 1))
    then (Ret (LoopBreak err), tr ++ [theFetch])
    else (Ret (LoopContinue (a + 1) err),
          (tr ++ [theFetch])
            ++ observerEvents (o_onRetryAttempt httpOpts) (a + 1) err
            ++ [EvSleep (backoffMs (a + 1))]).
Proof.
  intros Hf.
  unfold retryTurn, tryCatch, bind, doFetch.
  unfold failureOf in Hf.
  assert (Hafter : forall t,
    (if Qlt_bool (o_retries httpOpts) (inject_Z (a + 1))
     then ret (LoopBreak err)
     else bind (match o_onRetryAttempt httpOpts with
                | Some f => notifyRetry f (a + 1) err
                | None => ret tt
                end)
               (fun _ => bind (emit (EvSleep (backoffMs (a + 1))))
                              (fun _ => ret (LoopContinue (a + 1) err)))) t
    = if Qlt_bool (o_retries httpOpts) (inject_Z (a + 1))
      then (Ret (LoopBreak err), t)
      else (Ret (LoopContinue (a + 1) err),
            t ++ observerEvents (o_onRetryAttempt httpOpts) (a + 1) err
              ++ [EvSleep (backoffMs (a + 1))])).
  { intros t. destruct (Qlt_bool _ _); [reflexivity |].
    unfold bind, emit, ret.
    destruct (o_onRetryAttempt httpOpts) as [f |].
    - rewrite notifyRetry_run. now rewrite <- app_assoc.
    - destruct err; reflexivity. }
  destruct (fetch (tr ++ [theFetch])) as [res | m r].
  - destruct (retryable res); [| discriminate].
    injection Hf as <-. unfold throw. apply Hafter.
  - injection Hf as <-. apply Hafter.
Qed.

Lemma failureOf_None o :
  failureOf o = None -> exists res, o = Resolved res /\ retryable res = false.
Proof.
  destruct o as [res | m r]; simpl; [| discriminate].
  destruct (retryable res) eqn:E; [discriminate |]. eauto.
Qed.

Lemma failureOf_is_error o err : failureOf o = Some err -> err <> ExnUndefined.
Proof.
  destruct o as [res | m r]; simpl.
  - destruct (retryable res); [| discriminate]. intros [= <-]. discriminate.
  - intros [= <-]. discriminate.
Qed.

Lemma sameTarget_retry_events a err :
  sameTarget theFetch (observerEvents (o_onRetryAttempt httpOpts) a err ++ [EvSleep (backoffMs a)]).
Proof.
  unfold sameTarget. apply Forall_app. split.
  - destruct (o_onRetryAttempt httpOpts), err; repeat constructor; discriminate.
  - repeat constructor. discriminate.
Qed.

(** The loop, entered with a counter that still allows an attempt, ends by
    itself: it returns a response that is not retryable or throws an error
    object, having made at least one and at most
    [floor retries + 1 - attempt] requests, all for the same target. *)
Lemma retryLoop_post fuel a last tr :
  0 <= a <= Qfloor (o_retries httpOpts) ->
  (Z.to_nat (Qfloor (o_retries httpOpts) - a) < fuel)%nat ->
  exists o d,
    retryLoop fetch fuel urlStr init httpOpts a last tr = (o, tr ++ theFetch :: d)
    /\ ((exists res, o = Ret res /\ retryable res = false)
        \/ (exists m r, o = Throw (ExnError m r)))
    /\ Z.of_nat (fetches d) + 1 <= Qfloor (o_retries httpOpts) + 1 - a
    /\ sameTarget theFetch d.
Proof.
  revert a last tr.
  induction fuel as [| fuel IH]; intros a last tr Ha Hfuel; [lia |].
  simpl.
  assert (Hguard : Qle_bool (inject_Z a) (o_retries httpOpts) = true)
    by (apply Qle_bool_inject_floor; lia).
  rewrite Hguard. unfold bind.
  destruct (failureOf (fetch (tr ++ [theFetch]))) as [err |] eqn:Hf.
  - rewrite (retryTurn_fail _ _ _ Hf).
    destruct (Qlt_bool (o_retries httpOpts) (inject_Z (a + 1))) eqn:Hlt.
    + apply Qlt_bool_floor_inject in Hlt.
      exists (Throw err), []. unfold throw.
      split; [reflexivity |]. split; [| split].
      * right. destruct err as [| m r]; [| eauto].
        now apply failureOf_is_error in Hf.
      * simpl. lia.
      * constructor.
    + assert (Hnext : a + 1 <= Qfloor (o_retries httpOpts)).
      { destruct (Z_lt_le_dec (Qfloor (o_retries httpOpts)) (a + 1)) as [Hc | Hc];
          [| exact Hc].
        apply Qlt_bool_floor_inject in Hc. congruence. }
      destruct (IH (a + 1) err
                   ((tr ++ [theFetch])
                      ++ observerEvents (o_onRetryAttempt httpOpts) (a + 1) err
                      ++ [EvSleep (backoffMs (a + 1))]))
        as (o & d & Hrun & Hres & Hcount & Hsame); [lia | lia |].
      exists o,
        ((observerEvents (o_onRetryAttempt httpOpts) (a + 1) err
            ++ [EvSleep (backoffMs (a + 1))]) ++ theFetch :: d).
      split.
      { rewrite Hrun. f_equal. rewrite <- !app_assoc. reflexivity. }
      split; [exact Hres |]. split.
      * rewrite !fetches_app, observerEvents_no_fetch. simpl. lia.
      * apply Forall_app. split; [apply sameTarget_retry_events |].
        constructor; [reflexivity | exact Hsame].
  - destruct (failureOf_None _ Hf) as (res & Hres & Hnr).
    rewrite (retryTurn_ok _ _ _ Hres Hnr).
    exists (Ret res), []. unfold ret. split; [reflexivity |].
    split; [left; eauto |]. split; [simpl; lia | constructor].
Qed.

(** With a non-negative number of retries the transport helper always ends,
    and it starts with a request. *)
Lemma requestWithRetry_post tr :
  Qle_bool 0 (o_retries httpOpts) = true ->
  exists o d,
    requestWithRetry fetch urlStr init httpOpts tr = (o, tr ++ theFetch :: d)
    /\ ((exists res, o = Ret res /\ retryable res = false)
        \/ (exists m r, o = Throw (ExnError m r)))
    /\ Z.of_nat (fetches d) + 1 <= Qfloor (o_retries httpOpts) + 1
    /\ sameTarget theFetch d.
Proof.
  intros Hpos.
  assert (H0 : 0 <= Qfloor (o_retries httpOpts))
    by (apply (Qle_bool_inject_floor 0); exact Hpos).
  unfold requestWithRetry, retryFuel.
  destruct (retryLoop_post (S (Z.to_nat (Qfloor (o_retries httpOpts)))) 0 ExnUndefined tr)
    as (o & d & Hrun & Hres & Hcount & Hsame); [lia | rewrite Z.sub_0_r; lia |].
  exists o, d. rewrite Z.sub_0_r in Hcount. auto.
Qed.
(** What the loop ends with is the answer of the network to its last
    request: the response that was resolved, or the failure of that
    attempt. *)
Lemma retryLoop_answer fuel a last tr :
  0 <= a <= Qfloor (o_retries httpOpts) ->
  (Z.to_nat (Qfloor (o_retries httpOpts) - a) < fuel)%nat ->
  exists o d,
    retryLoop fetch fuel urlStr init httpOpts a last tr = (o, tr ++ theFetch :: d)
    /\ sameTarget theFetch d
    /\ match o with
       | Ret res => fetch (tr ++ theFetch :: d) = Resolved res /\ retryable res = false
       | Throw e =>
           failureOf (fetch (tr ++ theFetch :: d)) = Some e /\ exists m r, e = ExnError m r
       | OutOfFuel => False
       end.
Proof.
  revert a last tr.
  induction fuel as [| fuel IH]; intros a last tr Ha Hfuel; [lia |].
  simpl.
  assert (Hguard : Qle_bool (inject_Z a) (o_retries httpOpts) = true)
    by (apply Qle_bool_inject_floor; lia).
  rewrite Hguard. unfold bind.
  destruct (failureOf (fetch (tr ++ [theFetch]))) as [err |] eqn:Hf.
  - rewrite (retryTurn_fail _ _ _ Hf).
    destruct (Qlt_bool (o_retries httpOpts) (inject_Z (a + 1))) eqn:Hlt.
    + exists (Throw err), []. unfold throw.
      split; [reflexivity |]. split; [constructor |]. split; [exact Hf |].
      destruct err as [| m r]; [| eauto].
      now apply failureOf_is_error in Hf.
    + assert (Hnext : a + 1 <= Qfloor (o_retries httpOpts)).
      { destruct (Z_lt_le_dec (Qfloor (o_retries httpOpts)) (a + 1)) as [Hc | Hc];
          [| exact Hc].
        apply Qlt_bool_floor_inject in Hc. congruence. }
      destruct (IH (a + 1) err
                   ((tr ++ [theFetch])
                      ++ observerEvents (o_onRetryAttempt httpOpts) (a + 1) err
                      ++ [EvSleep (backoffMs (a + 1))]))
        as (o & d & Hrun & Hsame & Hans); [lia | lia |].
      assert (Heq : ((tr ++ [theFetch])
                       ++ observerEvents (o_onRetryAttempt httpOpts) (a + 1) err
                       ++ [EvSleep (backoffMs (a + 1))]) ++ theFetch :: d
                    = tr ++ theFetch
                        :: (observerEvents (o_onRetryAttempt httpOpts) (a + 1) err
                              ++ [EvSleep (backoffMs (a + 1))]) ++ theFetch :: d)
        by (rewrite <- !app_assoc; reflexivity).
      rewrite Heq in Hrun, Hans.
      exists o,
        ((observerEvents (o_onRetryAttempt httpOpts) (a + 1) err
            ++ [EvSleep (backoffMs (a + 1))]) ++ theFetch :: d).
      split; [exact Hrun |]. split; [| exact Hans].
      apply Forall_app. split; [apply sameTarget_retry_events |].
      constructor; [reflexivity | exact Hsame].
  - destruct (failureOf_None _ Hf) as (res & Hres & Hnr).
    rewrite (retryTurn_ok _ _ _ Hres Hnr).
    exists (Ret res), []. unfold ret. split; [reflexivity |].
    split; [constructor | split; [exact Hres | exact Hnr]].
Qed.

(** With a non-negative number of retries the transport helper ends with
    the answer to its last request, and before that it has requested
    nothing but its own target. *)
Lemma requestWithRetry_answer tr :
  Qle_bool 0 (o_retries httpOpts) = true ->
  exists o d,
    requestWithRetry fetch urlStr init httpOpts tr = (o, tr ++ theFetch :: d)
    /\ sameTarget theFetch d
    /\ match o with
       | Ret res => fetch (tr ++ theFetch :: d) = Resolved res /\ retryable res = false
       | Throw e =>
           failureOf (fetch (tr ++ theFetch :: d)) = Some e /\ exists m r, e = ExnError m r
       | OutOfFuel => False
       end.
Proof.
  intros Hpos.
  assert (H0 : 0 <= Qfloor (o_retries httpOpts))
    by (apply (Qle_bool_inject_floor 0); exact Hpos).
  unfold requestWithRetry, retryFuel.
  apply retryLoop_answer; [lia | rewrite Z.sub_0_r; lia].
Qed.
End RetryFacts.

(** ** The retry loop against a network that answers by sequence number *)

Section ScriptedRetry.
Variable f : nat -> FetchOutcome.
Variables (urlStr : string) (init : RequestInit) (httpOpts : HttpOptions).

Local Abbreviation theFetch := (EvFetch urlStr init (o_timeoutMs httpOpts)).

Lemma last_cons_default {A} (l : list A) (x d : A) :
  List.last (x :: l) d = List.last l x.
Proof.
  revert x d. induction l as [| y l IH]; intros x d; [reflexivity |].
  change (List.last (x :: y :: l) d) with (List.last (y :: l) d).
  now rewrite (IH y d), (IH y x).
Qed.

Lemma fmap_seq_shift (a : Z) (n s : nat) :
  (fun i => a + 1 + Z.of_nat i) <$> seq s n = (fun i => a + Z.of_nat i) <$> seq (S s) n.
Proof.
  revert s. induction n as [| n IH]; intros s; [reflexivity |].
  cbn. rewrite IH. f_equal. lia.
Qed.

Lemma bySequence_next tr :
  bySequence f (tr ++ [theFetch]) = f (fetches tr).
Proof.
  unfold bySequence. rewrite fetches_app. simpl.
  replace (fetches tr + 1)%nat with (S (fetches tr)) by lia. reflexivity.
Qed.

(** Failures that are all retried move the loop forward by as many turns. *)
Lemma retryLoop_advance errs :
  forall fuel a last tr,
    nextFailures f tr errs ->
    0 <= a ->
    a + Z.of_nat (length errs) <= Qfloor (o_retries httpOpts) ->
    retryLoop (bySequence f) (length errs + fuel) urlStr init httpOpts a last tr =
    retryLoop (bySequence f) fuel urlStr init httpOpts
              (a + Z.of_nat (length errs)) (List.last errs last)
              (tr ++ failedTurns urlStr init httpOpts errs a).
Proof.
  induction errs as [| err errs IH]; intros fuel a last tr Hnext Ha Hle.
  - simpl. now rewrite Z.add_0_r, app_nil_r.
  - cbn [length Nat.add retryLoop].
    assert (Hguard : Qle_bool (inject_Z a) (o_retries httpOpts) = true).
    { apply Qle_bool_inject_floor. cbn [length] in Hle. lia. }
    rewrite Hguard. unfold bind.
    assert (Hf : failureOf (bySequence f (tr ++ [theFetch])) = Some err).
    { rewrite bySequence_next.
      specialize (Hnext O err eq_refl). now rewrite Nat.add_0_r in Hnext. }
    rewrite (retryTurn_fail _ _ _ _ _ _ _ Hf).
    assert (Hnb : Qlt_bool (o_retries httpOpts) (inject_Z (a + 1)) = false).
    { destruct (Qlt_bool _ _) eqn:E; [| reflexivity].
      apply Qlt_bool_floor_inject in E. cbn [length] in Hle. lia. }
    rewrite Hnb.
    rewrite IH.
    + f_equal.
      * cbn [length]. lia.
      * symmetry. apply last_cons_default.
      * cbn [failedTurns]. rewrite <- !app_assoc. reflexivity.
    + intros i e Hi.
      rewrite !fetches_app, observerEvents_no_fetch. simpl.
      specialize (Hnext (S i) e Hi).
      replace (fetches tr + 1 + 0 + i)%nat with (fetches tr + S i)%nat by lia.
      exact Hnext.
    + lia.
    + cbn [length] in Hle. lia.
Qed.

(** [k] failures, then a response that is not retryable, with [k <= retries]. *)
Lemma requestWithRetry_recovers errs res tr :
  nextFailures f tr errs ->
  f (fetches tr + length errs) = Resolved res ->
  retryable res = false ->
  Z.of_nat (length errs) <= Qfloor (o_retries httpOpts) ->
  requestWithRetry (bySequence f) urlStr init httpOpts tr =
    (Ret res, tr ++ failedTurns urlStr init httpOpts errs 0 ++ [theFetch]).
Proof.
  intros Hnext Hres Hnr Hle.
  unfold requestWithRetry, retryFuel.
  replace (S (Z.to_nat (Qfloor (o_retries httpOpts))))
    with (length errs + S (Z.to_nat (Qfloor (o_retries httpOpts)) - length errs))%nat
    by lia.
  rewrite retryLoop_advance; [| exact Hnext | lia | lia].
  cbn [retryLoop].
  assert (Hguard : Qle_bool (inject_Z (0 + Z.of_nat (length errs)))
                            (o_retries httpOpts) = true)
    by (apply Qle_bool_inject_floor; lia).
  rewrite Hguard. unfold bind.
  rewrite (retryTurn_ok _ _ _ _ _ _ res).
  - unfold ret. now rewrite app_assoc.
  - rewrite bySequence_next, fetches_app, fetches_failedTurns. exact Hres.
  - exact Hnr.
Qed.

(** More failures than [retries] allows: the failure of the last attempt
    made is thrown, and that attempt is followed by nothing. *)
Lemma requestWithRetry_exhausts errs err tr :
  nextFailures f tr (errs ++ [err]) ->
  Z.of_nat (length errs) = Qfloor (o_retries httpOpts) ->
  requestWithRetry (bySequence f) urlStr init httpOpts tr =
    (Throw err, tr ++ failedTurns urlStr init httpOpts errs 0 ++ [theFetch]).
Proof.
  intros Hnext Hlen.
  unfold requestWithRetry, retryFuel.
  replace (S (Z.to_nat (Qfloor (o_retries httpOpts))))
    with (length errs + 1)%nat by lia.
  rewrite retryLoop_advance; [| | lia | lia].
  - cbn [retryLoop].
    assert (Hguard : Qle_bool (inject_Z (0 + Z.of_nat (length errs)))
                              (o_retries httpOpts) = true)
      by (apply Qle_bool_inject_floor; lia).
    rewrite Hguard. unfold bind.
    rewrite (retryTurn_fail _ _ _ _ _ _ err).
    + assert (Hb : Qlt_bool (o_retries httpOpts)
                            (inject_Z (0 + Z.of_nat (length errs) + 1)) = true)
        by (apply Qlt_bool_floor_inject; lia).
      rewrite Hb. unfold throw. now rewrite app_assoc.
    + rewrite bySequence_next, fetches_app, fetches_failedTurns.
      apply Hnext. rewrite lookup_app_r by lia.
      now rewrite Nat.sub_diag.
  - intros i e Hi. apply Hnext. now apply lookup_app_l_Some.
Qed.

(** The observer hears of the retried attempts 1, 2, ..., in this order. *)
Lemma observed_failedTurns g errs a :
  o_onRetryAttempt httpOpts = Some g ->
  Forall (fun e => e <> ExnUndefined) errs ->
  attempt <$> observed (failedTurns urlStr init httpOpts errs a ++ [theFetch])
    = (fun i => a + Z.of_nat i) <$> seq 1 (length errs).
Proof.
  intros Hg Herrs. revert a.
  induction Herrs as [| err errs Herr _ IH]; intros a; [reflexivity |].
  cbn [failedTurns length]. rewrite Hg.
  destruct err as [| m r]; [congruence |].
  cbn. rewrite IH. f_equal. apply fmap_seq_shift.
Qed.
End ScriptedRetry.

(** ** The observer cannot influence the loop *)

Lemma retryTurn_observer_irrelevant fetch urlStr init httpOpts g1 g2 a tr :
  retryTurn fetch urlStr init (withObserver httpOpts g1) a tr
  = retryTurn fetch urlStr init (withObserver httpOpts g2) a tr.
Proof.
  destruct (failureOf (fetch (tr ++ [EvFetch urlStr init (o_timeoutMs httpOpts)])))
    as [err |] eqn:Hf.
  - rewrite !(retryTurn_fail _ _ _ _ _ _ err) by exact Hf. reflexivity.
  - destruct (failureOf_None _ Hf) as (res & Hres & Hnr).
    rewrite !(retryTurn_ok _ _ _ _ _ _ res) by assumption. reflexivity.
Qed.

Lemma retryLoop_observer_irrelevant fetch urlStr init httpOpts g1 g2 fuel :
  forall a last tr,
    retryLoop fetch fuel urlStr init (withObserver httpOpts g1) a last tr
    = retryLoop fetch fuel urlStr init (withObserver httpOpts g2) a last tr.
Proof.
  induction fuel as [| fuel IH]; intros a last tr; [reflexivity |].
  cbn [retryLoop]. cbn [withObserver o_retries].
  destruct (Qle_bool (inject_Z a) (o_retries httpOpts)); [| reflexivity].
  unfold bind. rewrite (retryTurn_observer_irrelevant _ _ _ _ g1 g2).
  destruct (retryTurn _ _ _ _ _ _) as [[x | e |] tr']; try reflexivity.
  destruct x; try reflexivity. apply IH.
Qed.

(** C6. The transport helper makes at most [retries + 1] requests, whatever
    the network does.  On a network whose next [k] answers are failures
    (a 429, a 5xx, or a rejected request) followed by an answer that is not
    retryable: when [k <= retries] the call returns that answer after
    [k + 1] requests and the observer, if there is one, is called exactly
    [k] times, with the attempts 1, 2, ..., k in this order; when
    [k > retries] the call throws the failure of its last attempt, the
    attempt number [floor retries + 1], as the loop caught it. *)
Theorem retry_loop_contract
        (fetch : Transport) (f : nat -> FetchOutcome)
        (urlStr : string) (init : RequestInit) (httpOpts : HttpOptions)
        (tr : list event) :
  Qle_bool 0 (o_retries httpOpts) = true ->
  (exists o d,
      requestWithRetry fetch urlStr init httpOpts tr = (o, tr ++ d)
      /\ o <> OutOfFuel
      /\ (inject_Z (Z.of_nat (fetches d)) <= o_retries httpOpts + 1)%Q)
  /\ (forall errs res,
         nextFailures f tr errs ->
         f (fetches tr + length errs)%nat = Resolved res ->
         retryable res = false ->
         (inject_Z (Z.of_nat (length errs)) <= o_retries httpOpts)%Q ->
         exists d,
           requestWithRetry (bySequence f) urlStr init httpOpts tr = (Ret res, tr ++ d)
           /\ fetches d = S (length errs)
           /\ (forall g, o_onRetryAttempt httpOpts = Some g ->
                         attempt <$> observed d = Z.of_nat <$> seq 1 (length errs)))
  /\ (forall errs,
         nextFailures f tr errs ->
         (o_retries httpOpts < inject_Z (Z.of_nat (length errs)))%Q ->
         exists err d,
           errs !! Z.to_nat (Qfloor (o_retries httpOpts)) = Some err
           /\ requestWithRetry (bySequence f) urlStr init httpOpts tr = (Throw err, tr ++ d)
           /\ fetches d = S (Z.to_nat (Qfloor (o_retries httpOpts)))).
Proof.
  intros Hpos.
  assert (H0 : 0 <= Qfloor (o_retries httpOpts))
    by (apply (Qle_bool_inject_floor 0); exact Hpos).
  split; [| split].
  - destruct (requestWithRetry_post fetch urlStr init httpOpts tr Hpos)
      as (o & d & Hrun & Hres & Hcount & _).
    exists o, (EvFetch urlStr init (o_timeoutMs httpOpts) :: d).
    split; [exact Hrun |]. split.
    + destruct Hres as [(res & -> & _) | (m & r & ->)]; discriminate.
    + apply Qle_trans with (inject_Z (Qfloor (o_retries httpOpts) + 1)).
      * rewrite <- Zle_Qle. simpl fetches. lia.
      * rewrite inject_Z_plus. apply Qplus_le_compat; [apply Qfloor_le | apply Qle_refl].
  - intros errs res Hnext Hres Hnr Hk.
    assert (Hk' : Z.of_nat (length errs) <= Qfloor (o_retries httpOpts))
      by (apply Qle_bool_inject_floor, Qle_bool_iff; exact Hk).
    eexists. split; [apply requestWithRetry_recovers; eassumption |].
    split.
    + rewrite fetches_app, fetches_failedTurns. simpl. lia.
    + intros g Hg.
      rewrite (observed_failedTurns urlStr init httpOpts g errs 0 Hg).
      * apply list_fmap_ext. intros _ i _. lia.
      * apply Forall_lookup_2. intros i e Hi.
        exact (failureOf_is_error _ _ (Hnext i e Hi)).
  - intros errs Hnext Hk.
    assert (Hk' : Qfloor (o_retries httpOpts) < Z.of_nat (length errs)).
    { apply Qlt_bool_floor_inject. unfold Qlt_bool.
      destruct (Qle_bool (inject_Z (Z.of_nat (length errs))) (o_retries httpOpts))
        eqn:E; [| reflexivity].
      apply Qle_bool_iff in E. exfalso. exact (Qlt_not_le _ _ Hk E). }
    set (n := Z.to_nat (Qfloor (o_retries httpOpts))) in *.
    destruct (lookup_lt_is_Some_2 errs n) as [err Herr]; [lia |].
    exists err. eexists. split; [exact Herr |].
    assert (Hsplit : take n errs ++ [err] = take (S n) errs)
      by (symmetry; now apply take_S_r).
    assert (Hlen : length (take n errs) = n) by (rewrite length_take; lia).
    split.
    + apply (requestWithRetry_exhausts f urlStr init httpOpts (take n errs) err).
      * intros i e Hi. apply Hnext. rewrite Hsplit in Hi.
        apply lookup_take_Some in Hi. tauto.
      * rewrite Hlen. unfold n. lia.
    + rewrite fetches_app, fetches_failedTurns, Hlen. simpl. lia.
Qed.

Lemma retry_loop_contract_witness :
  Qle_bool 0 (o_retries (sampleOptions 2 (Some throwingObserver))) = true
  /\ exists d,
      requestWithRetry (bySequence twoFailures) "https://rest/ping" GET
                       (sampleOptions 2 (Some throwingObserver)) []
      = (Ret (response 200 [("x-ratelimit-remaining-minute", "500")] []), [] ++ d)
      /\ fetches d = 3%nat
      /\ (forall g, Some throwingObserver = Some g -> attempt <$> observed d = [1; 2]).
Proof.
  split; [reflexivity |].
  destruct (retry_loop_contract (bySequence twoFailures) twoFailures
              "https://rest/ping" GET (sampleOptions 2 (Some throwingObserver)) []
              eq_refl) as (_ & Hrecover & _).
  apply (Hrecover [error500; error503]).
  - intros i err Hi. destruct i as [| [| i]]; simpl in Hi.
    + injection Hi as <-. reflexivity.
    + injection Hi as <-. reflexivity.
    + discriminate.
  - reflexivity.
  - reflexivity.
  - unfold Qle. simpl. lia.
Defined.

(** C7 (amended). When an attempt fails and a retry is still allowed, the
    observer is called first, with the attempt number, the status of the
    failure and its message, and the wait of
    [min(1000 * 2^(attempt-1), 4000)] milliseconds comes after the call and
    before the next request.  Whether the observer throws makes no
    difference to what the helper returns or does. *)
Theorem observer_then_backoff
        (fetch : Transport) (urlStr : string) (init : RequestInit)
        (httpOpts : HttpOptions) (g : Observer) (a : Z)
        (message : string) (response : option Response) (tr : list event) :
  o_onRetryAttempt httpOpts = Some g ->
  failureOf (fetch (tr ++ [EvFetch urlStr init (o_timeoutMs httpOpts)]))
    = Some (ExnError message response) ->
  Qle_bool (inject_Z (a + 1)) (o_retries httpOpts) = true ->
  retryTurn fetch urlStr init httpOpts a tr =
    (Ret (LoopContinue (a + 1) (ExnError message response)),
     tr ++ [EvFetch urlStr init (o_timeoutMs httpOpts);
            EvObserver {| attempt := a + 1;
                          ri_status := status <$> response;
                          ri_error := message |};
            EvSleep (Z.min (1000 * 2 ^ (a + 1 - 1)) 4000)])
  /\ (forall g',
         requestWithRetry fetch urlStr init (withObserver httpOpts g') tr
         = requestWithRetry fetch urlStr init httpOpts tr)
  /\ (forall f errs res,
         fetch = bySequence f ->
         nextFailures f tr errs ->
         f (fetches tr + length errs)%nat = Resolved res ->
         retryable res = false ->
         Z.of_nat (length errs) <= Qfloor (o_retries httpOpts) ->
         requestWithRetry fetch urlStr init httpOpts tr =
           (Ret res, tr ++ failedTurns urlStr init httpOpts errs 0
                        ++ [EvFetch urlStr init (o_timeoutMs httpOpts)])).
Proof.
  intros Hg Hf Hle. split; [| split].
  - rewrite (retryTurn_fail _ _ _ _ _ _ _ Hf).
    assert (Hnb : Qlt_bool (o_retries httpOpts) (inject_Z (a + 1)) = false).
    { unfold Qlt_bool. now rewrite Hle. }
    rewrite Hnb, Hg.
    rewrite <- app_assoc. destruct response; reflexivity.
  - intros g'.
    assert (Heta : httpOpts = withObserver httpOpts g).
    { destruct httpOpts as [t u r o]. simpl in Hg. now subst o. }
    rewrite Heta at 2.
    apply retryLoop_observer_irrelevant.
  - intros f errs res -> Hnext Hres Hnr Hk.
    now apply requestWithRetry_recovers.
Qed.

Lemma observer_then_backoff_witness :
  retryTurn (bySequence twoFailures) "https://rest/ping" GET
            (sampleOptions 2 (Some throwingObserver)) 0 []
  = (Ret (LoopContinue 1 error500),
     [EvFetch "https://rest/ping" GET 30000;
      EvObserver {| attempt := 1; ri_status := Some 500; ri_error := "HTTP 500" |};
      EvSleep 1000]).
Proof.
  exact (proj1 (observer_then_backoff (bySequence twoFailures) "https://rest/ping" GET
                  (sampleOptions 2 (Some throwingObserver)) throwingObserver 0
                  "HTTP 500" (Some (response 500 [] [])) []
                  eq_refl eq_refl eq_refl)).
Defined.

Lemma observer_after_delay_counterexample :
  ~ observerAfterDelay
      (snd (requestWithRetry (bySequence twoFailures) "https://rest/ping" GET
                             (sampleOptions 2 (Some throwingObserver)) [])).
Proof.
  intros Hclaim.
  destruct (Hclaim [EvFetch "https://rest/ping" GET 30000]
                   {| attempt := 1; ri_status := Some 500; ri_error := "HTTP 500" |}
                   [EvSleep 1000;
                    EvFetch "https://rest/ping" GET 30000;
                    EvObserver {| attempt := 2; ri_status := Some 503;
                                  ri_error := "HTTP 503" |};
                    EvSleep 2000;
                    EvFetch "https://rest/ping" GET 30000])
    as [pre Hpre]; [vm_compute; reflexivity |].
  destruct pre as [| e [| e' pre]]; simpl in Hpre; discriminate.
Qed.

(** ** Running the monad *)

Lemma bind_ret {A B} (m : M A) (k : A -> M B) tr a tr' :
  m tr = (Ret a, tr') -> bind m k tr = k a tr'.
Proof. intros Hm. unfold bind. now rewrite Hm. Qed.

Lemma bind_throw {A B} (m : M A) (k : A -> M B) tr e tr' :
  m tr = (Throw e, tr') -> bind m k tr = (Throw e, tr').
Proof. intros Hm. unfold bind. now rewrite Hm. Qed.

Lemma bind_assoc_run {A B C} (m : M A) (k1 : A -> M B) (k2 : B -> M C) t a t' :
  m t = (Ret a, t') -> bind (bind m k1) k2 t = bind (k1 a) k2 t'.
Proof. intros Hm. unfold bind. now rewrite Hm. Qed.

Lemma bind_assoc {A B C} (m : M A) (k1 : A -> M B) (k2 : B -> M C) tr :
  bind (bind m k1) k2 tr = bind m (fun x => bind (k1 x) k2) tr.
Proof. unfold bind. destruct (m tr) as [[a | e |] t]; reflexivity. Qed.

Lemma Qlt_bool_false_le (a b : Q) : Qlt_bool a b = false -> Qle_bool b a = true.
Proof. unfold Qlt_bool. now rewrite negb_false_iff. Qed.

Lemma Qle_bool_false_lt (a b : Q) : Qle_bool a b = false -> Qlt_bool b a = true.
Proof. unfold Qlt_bool. intros ->. reflexivity. Qed.

(** ** Validation of the configuration *)

Section ValidationFacts.
Context {P : Platform}.
Variable process_env : gmap string string.

(** The validation never touches the network. *)
Lemma createHttpOptions_trace httpCfg tr :
  snd (createHttpOptions httpCfg tr) = tr
  /\ fst (createHttpOptions httpCfg tr) <> OutOfFuel.
Proof.
  unfold createHttpOptions, newError, throw, ret.
  destruct (Qle_bool _ 0); [split; [reflexivity | discriminate] |].
  destruct (Qlt_bool _ 0); split; simpl; solve [reflexivity | discriminate].
Qed.

Lemma createHttpOptions_ok httpCfg tr httpOpts tr' :
  createHttpOptions httpCfg tr = (Ret httpOpts, tr') ->
  tr' = tr
  /\ Qlt_bool 0 (o_timeoutMs httpOpts) = true
  /\ Qle_bool 0 (o_retries httpOpts) = true
  /\ o_timeoutMs httpOpts = finiteOr (cfg_timeoutMs httpCfg) 30000
  /\ o_retries httpOpts = finiteOr (cfg_retries httpCfg) 0
  /\ o_onRetryAttempt httpOpts = cfg_onRetryAttempt httpCfg.
Proof.
  unfold createHttpOptions, newError, throw, ret.
  destruct (Qle_bool _ 0) eqn:Et; [discriminate |].
  destruct (Qlt_bool _ 0) eqn:Er; [discriminate |].
  intros [= <- <-]. simpl.
  repeat split; auto using Qle_bool_false_lt, Qlt_bool_false_le.
Qed.

Lemma validateConfig_trace config tr :
  snd (validateConfig process_env config tr) = tr
  /\ fst (validateConfig process_env config tr) <> OutOfFuel.
Proof.
  unfold validateConfig, bind.
  pose proof (createHttpOptions_trace (default emptyHttpCfg (http config)) tr) as [Ht Hf].
  destruct (createHttpOptions _ tr) as [[httpOpts | e |] tr0]; simpl in *; subst;
    [| split; [reflexivity | discriminate] | congruence].
  unfold newError, throw, ret.
  destruct (negb _ || num_lt0 _); [split; [reflexivity | discriminate] |].
  destruct (negb _ || num_le0 _); split; simpl; solve [reflexivity | discriminate].
Qed.

Lemma validateConfig_ok config tr httpOpts threshold ttl tr' :
  validateConfig process_env config tr = (Ret (httpOpts, threshold, ttl), tr') ->
  tr' = tr
  /\ createHttpOptions (default emptyHttpCfg (http config)) tr = (Ret httpOpts, tr)
  /\ Qle_bool 0 (o_retries httpOpts) = true
  /\ (exists t, threshold = Fin t /\ Qle_bool 0 t = true)
  /\ (exists d, ttl = Fin d /\ Qlt_bool 0 d = true)
  /\ threshold = numberSetting process_env (minRemainingThreshold config)
                               "THRESHOLD_REMAINING_MIN" 100
  /\ ttl = numberSetting process_env (ttlDays config) "BULLHORN_TTL" 30.
Proof.
  unfold validateConfig, bind.
  destruct (createHttpOptions _ tr) as [[opts | e |] tr0] eqn:Hc; try discriminate.
  destruct (createHttpOptions_ok _ _ _ _ Hc) as (-> & _ & Hr & _).
  unfold newError, throw, ret.
  set (th := numberSetting process_env (minRemainingThreshold config) _ _).
  set (tt := numberSetting process_env (ttlDays config) _ _).
  destruct (negb (num_isFinite th) || num_lt0 th) eqn:Eth; [discriminate |].
  destruct (negb (num_isFinite tt) || num_le0 tt) eqn:Ett; [discriminate |].
  intros [= <- <- <- <-].
  apply orb_false_iff in Eth as [Eth1 Eth2], Ett as [Ett1 Ett2].
  apply negb_false_iff in Eth1, Ett1.
  split; [reflexivity |]. split; [reflexivity |]. split; [exact Hr |].
  split; [| split; [| split; reflexivity]].
  - destruct th as [| | | t]; try discriminate. exists t. split; [reflexivity |].
    simpl in Eth2. now apply Qlt_bool_false_le.
  - destruct tt as [| | | d]; try discriminate. exists d. split; [reflexivity |].
    simpl in Ett2. now apply Qle_bool_false_lt.
Qed.
End ValidationFacts.

(** ** The existing-session path *)

Section ExistingFacts.
Context {P : Platform}.
Variable fetch : Transport.
Variable process_env : gmap string string.

(** [ping] never throws: it answers [ok] with the rate-limit header of the
    response, or not [ok] with the detail of the failure. *)
Lemma ping_run httpOpts restUrl restToken tr :
  Qle_bool 0 (o_retries httpOpts) = true ->
  exists d,
    let tr1 := tr ++ EvFetch (pingUrl restUrl) (pingInit restToken) (o_timeoutMs httpOpts) :: d in
    (exists res,
        requestWithRetry fetch (pingUrl restUrl) (pingInit restToken) httpOpts tr = (Ret res, tr1)
        /\ ping fetch httpOpts restUrl restToken tr =
             (Ret (PingOk (headers res !! "x-ratelimit-remaining-minute")
                          (basicLogFromResponse res)), tr1))
    \/ (exists m r,
        requestWithRetry fetch (pingUrl restUrl) (pingInit restToken) httpOpts tr
          = (Throw (ExnError m r), tr1)
        /\ ping fetch httpOpts restUrl restToken tr =
             (Ret (PingFail (exnStatus (ExnError m r)) m (exnStatusText (ExnError m r))), tr1)).
Proof.
  intros Hpos.
  destruct (requestWithRetry_post fetch (pingUrl restUrl) (pingInit restToken) httpOpts tr Hpos)
    as (o & d & Hrun & [(res & -> & _) | (m & r & ->)] & _).
  - exists d. left. exists res. split; [exact Hrun |].
    unfold ping, tryCatch, bind. rewrite Hrun. unfold ret. simpl.
    now destruct (headers res !! "x-ratelimit-remaining-minute").
  - exists d. right. exists m, r. split; [exact Hrun |].
    unfold ping, tryCatch, bind. rewrite Hrun. reflexivity.
Qed.

(** The function after a successful validation. *)
Lemma login_after_validation creds tokens config httpOpts threshold ttl tr :
  validateConfig process_env config tr = (Ret (httpOpts, threshold, ttl), tr) ->
  loginToBullhorn fetch process_env (ParamsObject creds tokens) config tr =
    match tryExisting fetch httpOpts threshold (default noTokens tokens) tr with
    | (Ret (Some r), tr1) => (Ret r, tr1)
    | (Ret None, tr1) =>
        fromRefresh fetch process_env httpOpts ttl (default noTokens tokens) creds tr1
    | (Throw e, tr1) => (Throw e, tr1)
    | (OutOfFuel, tr1) => (OutOfFuel, tr1)
    end.
Proof.
  intros Hv. unfold loginToBullhorn.
  rewrite (bind_ret _ _ _ _ _ Hv). unfold bind.
  destruct (tryExisting _ _ _ _ tr) as [[[r |] | e |] tr1]; reflexivity.
Qed.

(** C1. With [restUrl] and [restToken] supplied (present and not empty)
    and a configuration that passes validation, the first thing the
    function does is the ping request, repeated as the transport helper
    decides, and the helper ends with the answer to its last request.

    If that answer is a response (any status other than 429 and below 500:
    the status is not looked at, so a 401 counts as well), [ping] answers
    [ok] with the quota header of the response; a quota that is a finite
    number strictly above the threshold makes the function return at once,
    with method [existing], the four tokens of the caller and the header as
    it was received; a quota at or below the threshold, or one that is not
    a finite number, makes it go on with the refresh block.

    If that answer is a failure (the last attempt allowed was rejected or
    answered 429 or 500 and above), [ping] answers not [ok] with the status
    of the failure, nothing is returned or thrown, and the function goes on
    with the refresh block. *)
Theorem existing_session_path
        (creds : option BullhornCredentials) (tokens : TokenInput)
        (config : AuthConfig) (httpOpts : HttpOptions) (threshold ttl : jsnum)
        (tr : list event) :
  truthyS (restUrl tokens) = true ->
  truthyS (restToken tokens) = true ->
  validateConfig process_env config tr = (Ret (httpOpts, threshold, ttl), tr) ->
  exists o d,
    let pingRequest := EvFetch (pingUrl (ofOpt (restUrl tokens)))
                               (pingInit (ofOpt (restToken tokens)))
                               (o_timeoutMs httpOpts) in
    let tr1 := tr ++ pingRequest :: d in
    let call := loginToBullhorn fetch process_env (ParamsObject creds (Some tokens)) config tr in
    let next := fromRefresh fetch process_env httpOpts ttl tokens creds tr1 in
    let pinged := ping fetch httpOpts (ofOpt (restUrl tokens)) (ofOpt (restToken tokens)) tr in
    requestWithRetry fetch (pingUrl (ofOpt (restUrl tokens)))
                     (pingInit (ofOpt (restToken tokens))) httpOpts tr = (o, tr1)
    /\ sameTarget pingRequest d
    /\ match o with
       | Ret res =>
           let minRemaining := headers res !! "x-ratelimit-remaining-minute" in
           fetch tr1 = Resolved res
           /\ retryable res = false
           /\ pinged = (Ret (PingOk minRemaining (basicLogFromResponse res)), tr1)
           /\ (forall quota t,
                  parseInt10 (default "0" minRemaining) = Fin quota ->
                  threshold = Fin t ->
                  (t < quota)%Q ->
                  call = (Ret {| r_restUrl := ofOpt (restUrl tokens);
                                 r_restToken := ofOpt (restToken tokens);
                                 r_refreshToken := ofOpt (refreshToken tokens);
                                 r_accessToken := ofOpt (accessToken tokens);
                                 r_minRemaining := Some (default "" minRemaining);
                                 r_method := existing |}, tr1))
           /\ (forall quota t,
                  parseInt10 (default "0" minRemaining) = Fin quota ->
                  threshold = Fin t ->
                  (quota <= t)%Q ->
                  call = next)
           /\ (num_isFinite (parseInt10 (default "0" minRemaining)) = false -> call = next)
       | Throw e =>
           failureOf (fetch tr1) = Some e
           /\ (exists m r,
                  e = ExnError m r
                  /\ pinged = (Ret (PingFail (exnStatus e) m (exnStatusText e)), tr1))
           /\ call = next
       | OutOfFuel => False
       end.
Proof.
  intros Hurl Htok Hv.
  destruct (validateConfig_ok _ _ _ _ _ _ _ Hv) as (_ & _ & Hpos & _).
  rewrite (login_after_validation _ _ _ _ _ _ _ Hv).
  change (default noTokens (Some tokens)) with tokens.
  unfold tryExisting. rewrite Htok, Hurl. cbn [andb].
  destruct (requestWithRetry_answer fetch (pingUrl (ofOpt (restUrl tokens)))
              (pingInit (ofOpt (restToken tokens))) httpOpts tr Hpos)
    as (o & d & Hrun & Hsame & Hans).
  exists o, d. cbn zeta. split; [exact Hrun |]. split; [exact Hsame |].
  destruct o as [res | e |]; [| | contradiction].
  - destruct Hans as [Hfetch Hnr].
    set (mr := headers res !! "x-ratelimit-remaining-minute").
    assert (Hping : ping fetch httpOpts (ofOpt (restUrl tokens)) (ofOpt (restToken tokens)) tr
                    = (Ret (PingOk mr (basicLogFromResponse res)),
                       tr ++ EvFetch (pingUrl (ofOpt (restUrl tokens)))
                                     (pingInit (ofOpt (restToken tokens)))
                                     (o_timeoutMs httpOpts) :: d)).
    { unfold ping, tryCatch, bind. rewrite Hrun. unfold ret, mr. simpl.
      now destruct (headers res !! "x-ratelimit-remaining-minute"). }
    split; [exact Hfetch |]. split; [exact Hnr |]. split; [exact Hping |].
    rewrite (bind_ret _ _ _ _ _ Hping). cbn match.
    split; [| split].
    + intros quota t Hq -> Hlt. rewrite Hq. cbn.
      assert (Hgt : Qlt_bool t quota = true).
      { unfold Qlt_bool. apply negb_true_iff.
        destruct (Qle_bool quota t) eqn:E; [| reflexivity].
        apply Qle_bool_iff in E. exfalso. exact (Qlt_not_le _ _ Hlt E). }
      rewrite Hgt. reflexivity.
    + intros quota t Hq -> Hle. rewrite Hq. cbn.
      assert (Hgt : Qlt_bool t quota = false).
      { unfold Qlt_bool. apply negb_false_iff. now apply Qle_bool_iff. }
      rewrite Hgt. reflexivity.
    + intros Hnf. rewrite Hnf. reflexivity.
  - destruct Hans as (Hfail & m & r & ->).
    assert (Hping : ping fetch httpOpts (ofOpt (restUrl tokens)) (ofOpt (restToken tokens)) tr
                    = (Ret (PingFail (exnStatus (ExnError m r)) m
                                     (exnStatusText (ExnError m r))),
                       tr ++ EvFetch (pingUrl (ofOpt (restUrl tokens)))
                                     (pingInit (ofOpt (restToken tokens)))
                                     (o_timeoutMs httpOpts) :: d)).
    { unfold ping, tryCatch, bind. rewrite Hrun. reflexivity. }
    split; [exact Hfail |]. split; [exists m, r; split; [reflexivity | exact Hping] |].
    rewrite (bind_ret _ _ _ _ _ Hping). reflexivity.
Qed.

(** C10. With [restUrl] and [restToken] supplied and a configuration that
    passes validation, a ping that is answered without the
    [x-ratelimit-remaining-minute] header, or with a value that
    [parseInt] does not read as a finite number, never ends the call on the
    existing-session path: a missing header is read as 0, the validated
    threshold is not negative and the comparison is strict, so the function
    goes on with the refresh block. *)
Theorem missing_quota_falls_through
        (creds : option BullhornCredentials) (tokens : TokenInput)
        (config : AuthConfig) (httpOpts : HttpOptions) (threshold ttl : jsnum)
        (tr tr1 : list event) (res : Response) :
  truthyS (restUrl tokens) = true ->
  truthyS (restToken tokens) = true ->
  validateConfig process_env config tr = (Ret (httpOpts, threshold, ttl), tr) ->
  requestWithRetry fetch (pingUrl (ofOpt (restUrl tokens)))
                   (pingInit (ofOpt (restToken tokens))) httpOpts tr = (Ret res, tr1) ->
  (headers res !! "x-ratelimit-remaining-minute" = None
   \/ exists h, headers res !! "x-ratelimit-remaining-minute" = Some h
                /\ num_isFinite (parseInt10 h) = false) ->
  (headers res !! "x-ratelimit-remaining-minute" = None ->
   parseInt10 (default "0" (headers res !! "x-ratelimit-remaining-minute")) = Fin 0)
  /\ loginToBullhorn fetch process_env (ParamsObject creds (Some tokens)) config tr
     = fromRefresh fetch process_env httpOpts ttl tokens creds tr1.
Proof.
  intros Hurl Htok Hv Hrun Hquota.
  destruct (validateConfig_ok _ _ _ _ _ _ _ Hv) as (_ & _ & _ & (t & -> & Ht) & _).
  split; [intros ->; reflexivity |].
  rewrite (login_after_validation _ _ _ _ _ _ _ Hv).
  change (default noTokens (Some tokens)) with tokens.
  unfold tryExisting. rewrite Htok, Hurl. cbn [andb].
  assert (Hping : ping fetch httpOpts (ofOpt (restUrl tokens)) (ofOpt (restToken tokens)) tr
                  = (Ret (PingOk (headers res !! "x-ratelimit-remaining-minute")
                                 (basicLogFromResponse res)), tr1)).
  { unfold ping, tryCatch, bind. rewrite Hrun. unfold ret. simpl.
    now destruct (headers res !! "x-ratelimit-remaining-minute"). }
  rewrite (bind_ret _ _ _ _ _ Hping). cbn match.
  destruct Hquota as [-> | (h & -> & Hnf)].
  - change (parseInt10 (default "0" None)) with (Fin 0). cbn.
    unfold Qlt_bool. now rewrite Ht.
  - cbn [default from_option id]. now rewrite Hnf.
Qed.
End ExistingFacts.

(** ** Protocol operations: one request each *)

Lemma quiet_ret {A} (a : A) : quiet (ret a).
Proof. intros t. split; exact I || reflexivity. Qed.

Lemma quiet_newError {A} msg : quiet (@newError A msg).
Proof. intros t. split; exact I || reflexivity. Qed.

Lemma quiet_bind {A B} (m : M A) (k : A -> M B) :
  quiet m -> (forall a, quiet (k a)) -> quiet (bind m k).
Proof.
  intros Hm Hk t. unfold bind. specialize (Hm t).
  destruct (m t) as [[a | e |] t']; simpl in Hm; destruct Hm as [-> Hs].
  - apply Hk.
  - split; [reflexivity | exact Hs].
  - contradiction.
Qed.

Lemma quiet_json res : quiet (json res).
Proof. unfold json. destruct (body res); auto using quiet_ret, quiet_newError. Qed.

Lemma quiet_prop b k : quiet (prop b k).
Proof. unfold prop. destruct b; auto using quiet_ret, quiet_newError. Qed.

Create HintDb quiet.
#[local] Hint Resolve quiet_ret quiet_newError quiet_json quiet_prop : quiet.

Section OperationFacts.
Context {P : Platform}.
Variable fetch : Transport.
Variable process_env : gmap string string.
Variable httpOpts : HttpOptions.
Hypothesis retries_ok : Qle_bool 0 (o_retries httpOpts) = true.

(** A request followed by quiet work on the response. *)
Lemma request_then {A} (k : Response -> M A) urlStr init tr :
  (forall res, quiet (k res)) ->
  exists o tr',
    bind (requestWithRetry fetch urlStr init httpOpts) k tr = (o, tr')
    /\ settled o
    /\ startsWith (EvFetch urlStr init (o_timeoutMs httpOpts)) tr tr'.
Proof.
  intros Hk.
  destruct (requestWithRetry_post fetch urlStr init httpOpts tr retries_ok)
    as (o & d & Hrun & Hres & _ & Hsame).
  unfold bind. rewrite Hrun.
  destruct Hres as [(res & -> & _) | (m & r & ->)].
  - destruct (Hk res (tr ++ EvFetch urlStr init (o_timeoutMs httpOpts) :: d)) as [Ht Hs].
    destruct (k res _) as [o' t'] eqn:Hkr. simpl in Ht, Hs. subst t'.
    exists o', (tr ++ EvFetch urlStr init (o_timeoutMs httpOpts) :: d).
    split; [reflexivity |]. split; [exact Hs |]. exists d. auto.
  - eexists _, _. split; [reflexivity |]. split; [exact I |]. exists d. auto.
Qed.

Lemma loginInfo_run user tr :
  truthyS user = true ->
  exists o tr',
    loginInfo fetch httpOpts user tr = (o, tr')
    /\ settled o
    /\ startsWith (EvFetch (loginInfoUrl (default "" user)) GET (o_timeoutMs httpOpts)) tr tr'.
Proof.
  intros Hu. unfold loginInfo. rewrite Hu. cbn [negb].
  apply request_then. intros res.
  repeat (apply quiet_bind; [auto with quiet | intros ?]). auto with quiet.
Qed.

Lemma step3_run restUrl accessToken ttl tr :
  exists o tr',
    step3 fetch process_env httpOpts restUrl accessToken ttl tr = (o, tr')
    /\ settled o
    /\ startsWith (EvFetch (step3Url process_env restUrl accessToken ttl) POST
                           (o_timeoutMs httpOpts)) tr tr'.
Proof.
  unfold step3. apply request_then. intros res.
  repeat (apply quiet_bind; [auto with quiet | intros ?]). auto with quiet.
Qed.

Lemma step2_run oauthUrl cid secret code tr :
  exists o tr',
    step2 fetch httpOpts oauthUrl cid secret code tr = (o, tr')
    /\ settled o
    /\ startsWith (EvFetch (step2Url oauthUrl cid secret code) POST
                           (o_timeoutMs httpOpts)) tr tr'.
Proof.
  unfold step2. apply request_then. intros res.
  repeat (apply quiet_bind; [auto with quiet | intros ?]). auto with quiet.
Qed.

(** The refresh exchange never throws. *)
Lemma step0_run oauthUrl refreshTok cid secret tr :
  exists r0 tr',
    step0 fetch httpOpts oauthUrl refreshTok cid secret tr = (Ret r0, tr')
    /\ startsWith (EvFetch (step0Url oauthUrl refreshTok cid secret) POST
                           (o_timeoutMs httpOpts)) tr tr'.
Proof.
  unfold step0, tryCatch.
  destruct (request_then
              (fun response =>
                 bind (json response) (fun body =>
                 bind (prop body "access_token") (fun access_token =>
                 bind (prop body "refresh_token") (fun refresh_token =>
                 ret (Step0Ok access_token refresh_token (basicLogFromResponse response))))))
              (step0Url oauthUrl refreshTok cid secret) POST tr)
    as (o & tr' & Hrun & Hs & Hstart).
  { intros res. repeat (apply quiet_bind; [auto with quiet | intros ?]). auto with quiet. }
  rewrite Hrun.
  destruct o as [r0 | [| m r] |]; try contradiction.
  - eauto.
  - eexists _, tr'. split; [reflexivity | exact Hstart].
Qed.
End OperationFacts.

(** ** The refresh and access-token paths *)

Section PathFacts.
Context {P : Platform}.
Variable fetch : Transport.
Variable process_env : gmap string string.

(** The call, once the existing-session block has been left at its end. *)
Lemma login_from_refresh creds tokens config httpOpts threshold ttl tr tr1 :
  validateConfig process_env config tr = (Ret (httpOpts, threshold, ttl), tr) ->
  tryExisting fetch httpOpts threshold tokens tr = (Ret None, tr1) ->
  loginToBullhorn fetch process_env (ParamsObject creds (Some tokens)) config tr
  = fromRefresh fetch process_env httpOpts ttl tokens creds tr1.
Proof.
  intros Hv He. rewrite (login_after_validation _ _ _ _ _ _ _ _ _ Hv).
  change (default noTokens (Some tokens)) with tokens. now rewrite He.
Qed.

(** C2. With a refresh token, a client id, a client secret and a username
    supplied (present and not empty), and the existing-session block left
    without a return, the function calls [loginInfo] and then [step0], each
    starting with its own request; a failure of [loginInfo] is thrown to
    the caller.  The transport helper ends the request of [step0] with the
    answer to its last attempt.

    If that answer is a response whose body is a JSON object (any status
    other than 429 and below 500: the status is not looked at, so the body
    of a refusal counts as well), [step0] answers [ok] with the
    [access_token] and [refresh_token] fields of the body, [undefined] for
    a field that is missing; [step3] is called with the REST URL of
    [loginInfo] and that access token, and its result is returned with
    method [refresh], the two tokens of [step0] and the session of [step3];
    a failure of [step3] is thrown to the caller.

    If that answer is a response whose body is [null] or is not JSON, or a
    failure (the last attempt allowed was rejected or answered 429 or 500
    and above), [step0] answers not [ok], nothing is thrown and the
    function goes on with the access-token block. *)
Theorem refresh_path
        (creds : option BullhornCredentials) (tokens : TokenInput)
        (config : AuthConfig) (httpOpts : HttpOptions) (threshold ttl : jsnum)
        (tr tr1 : list event) :
  validateConfig process_env config tr = (Ret (httpOpts, threshold, ttl), tr) ->
  tryExisting fetch httpOpts threshold tokens tr = (Ret None, tr1) ->
  truthyS (refreshToken tokens) = true ->
  truthyS (credField clientId creds) = true ->
  truthyS (credField clientSecret creds) = true ->
  truthyS (credField username creds) = true ->
  let call := loginToBullhorn fetch process_env (ParamsObject creds (Some tokens)) config tr in
  let timeout := o_timeoutMs httpOpts in
  let user := credField username creds in
  let cid := ofOpt (credField clientId creds) in
  let secret := ofOpt (credField clientSecret creds) in
  let stale := ofOpt (refreshToken tokens) in
  exists o1 tr2,
    loginInfo fetch httpOpts user tr1 = (o1, tr2)
    /\ startsWith (EvFetch (loginInfoUrl (default "" user)) GET timeout) tr1 tr2
    /\ match o1 with
       | Ret info =>
           let exchanged := step0 fetch httpOpts (li_oauthUrl info) stale cid secret tr2 in
           exists o2 tr3,
             requestWithRetry fetch (step0Url (li_oauthUrl info) stale cid secret) POST
                              httpOpts tr2 = (o2, tr3)
             /\ startsWith (EvFetch (step0Url (li_oauthUrl info) stale cid secret)
                                    POST timeout) tr2 tr3
             /\ match o2 with
                | Ret res =>
                    fetch tr3 = Resolved res
                    /\ retryable res = false
                    /\ match body res with
                       | BodyObject fields =>
                           let newAccess := default VUndefined (fields !! "access_token") in
                           let newRefresh := default VUndefined (fields !! "refresh_token") in
                           exchanged = (Ret (Step0Ok newAccess newRefresh
                                                     (basicLogFromResponse res)), tr3)
                           /\ exists o3 tr4,
                               step3 fetch process_env httpOpts (li_restUrl info) newAccess
                                     ttl tr3 = (o3, tr4)
                               /\ startsWith
                                    (EvFetch (step3Url process_env (li_restUrl info)
                                                       newAccess ttl) POST timeout) tr3 tr4
                               /\ match o3 with
                                  | Ret r3 =>
                                      call = (Ret {| r_restUrl := s3_restUrl r3;
                                                     r_restToken := s3_restToken r3;
                                                     r_refreshToken := newRefresh;
                                                     r_accessToken := newAccess;
                                                     r_minRemaining := None;
                                                     r_method := refresh |}, tr4)
                                  | Throw e => call = (Throw e, tr4)
                                  | OutOfFuel => False
                                  end
                       | _ =>
                           (exists msg, exchanged = (Ret (Step0Fail None msg None), tr3))
                           /\ call = fromAccess fetch process_env httpOpts ttl tokens creds tr3
                       end
                | Throw e =>
                    failureOf (fetch tr3) = Some e
                    /\ (exists m r,
                           e = ExnError m r
                           /\ exchanged = (Ret (Step0Fail (exnStatus e) m (exnStatusText e)),
                                           tr3))
                    /\ call = fromAccess fetch process_env httpOpts ttl tokens creds tr3
                | OutOfFuel => False
                end
       | Throw e => call = (Throw e, tr2)
       | OutOfFuel => False
       end.
Proof.
  intros Hv He Hrt Hcid Hsec Huser. cbn zeta.
  destruct (validateConfig_ok _ _ _ _ _ _ _ Hv) as (_ & _ & Hpos & _).
  rewrite (login_from_refresh _ _ _ _ _ _ _ _ Hv He).
  unfold fromRefresh, tryRefresh. rewrite Hrt, Hcid, Hsec, Huser. cbn [andb].
  destruct (loginInfo_run fetch httpOpts Hpos (credField username creds) tr1 Huser)
    as (o1 & tr2 & Hli & Hs1 & Hst1).
  exists o1, tr2. split; [exact Hli |]. split; [exact Hst1 |].
  destruct o1 as [info | e |]; [| | contradiction].
  2: { unfold bind. now rewrite Hli. }
  set (urlStr := step0Url (li_oauthUrl info) (ofOpt (refreshToken tokens))
                          (ofOpt (credField clientId creds))
                          (ofOpt (credField clientSecret creds))).
  destruct (requestWithRetry_answer fetch urlStr POST httpOpts tr2 Hpos)
    as (o2 & d & Hrun & Hsame & Hans).
  exists o2, (tr2 ++ EvFetch urlStr POST (o_timeoutMs httpOpts) :: d).
  split; [exact Hrun |]. split; [exists d; split; [reflexivity | exact Hsame] |].
  set (tr3 := tr2 ++ EvFetch urlStr POST (o_timeoutMs httpOpts) :: d) in *.
  assert (Hstep : step0 fetch httpOpts (li_oauthUrl info) (ofOpt (refreshToken tokens))
                        (ofOpt (credField clientId creds))
                        (ofOpt (credField clientSecret creds)) tr2
                  = match o2 with
                    | Ret res =>
                        match body res with
                        | BodyObject fields =>
                            (Ret (Step0Ok (default VUndefined (fields !! "access_token"))
                                          (default VUndefined (fields !! "refresh_token"))
                                          (basicLogFromResponse res)), tr3)
                        | BodyNull =>
                            (Ret (Step0Fail None
                                    "Cannot read properties of null (reading 'access_token')"
                                    None), tr3)
                        | BodyInvalid =>
                            (Ret (Step0Fail None "Unexpected end of JSON input" None), tr3)
                        end
                    | Throw (ExnError m r) =>
                        (Ret (Step0Fail (exnStatus (ExnError m r)) m
                                        (exnStatusText (ExnError m r))), tr3)
                    | Throw ExnUndefined =>
                        (Throw (ExnError
                                  "Cannot read properties of undefined (reading 'message')"
                                  None), tr3)
                    | OutOfFuel => (OutOfFuel, tr3)
                    end).
  { unfold step0, tryCatch, bind. fold urlStr. rewrite Hrun.
    destruct o2 as [res | [| m r] |]; try reflexivity.
    unfold json. destruct (body res); reflexivity. }
  destruct o2 as [res | e |]; [| | contradiction].
  - destruct Hans as [Hfetch Hnr]. split; [exact Hfetch |]. split; [exact Hnr |].
    destruct (body res) as [| | fields].
    + split; [eexists; exact Hstep |].
      unfold bind. rewrite Hli. cbn. rewrite Hstep. reflexivity.
    + split; [eexists; exact Hstep |].
      unfold bind. rewrite Hli. cbn. rewrite Hstep. reflexivity.
    + cbn zeta. split; [exact Hstep |].
      destruct (step3_run fetch process_env httpOpts Hpos (li_restUrl info)
                  (default VUndefined (fields !! "access_token")) ttl tr3)
        as (o3 & tr4 & Hs3 & Hset3 & Hst3).
      exists o3, tr4. split; [exact Hs3 |]. split; [exact Hst3 |].
      unfold bind. rewrite Hli. cbn. rewrite Hstep. cbn. rewrite Hs3.
      destruct o3 as [r3 | e |]; [reflexivity | reflexivity | contradiction].
  - destruct Hans as (Hfail & m & r & ->).
    split; [exact Hfail |]. split; [exists m, r; split; [reflexivity | exact Hstep] |].
    unfold bind. rewrite Hli. cbn. rewrite Hstep. reflexivity.
Qed.

(** The call, once the first two blocks have been left at their ends. *)
Lemma login_from_access creds tokens config httpOpts threshold ttl tr tr1 tr2 :
  validateConfig process_env config tr = (Ret (httpOpts, threshold, ttl), tr) ->
  tryExisting fetch httpOpts threshold tokens tr = (Ret None, tr1) ->
  tryRefresh fetch process_env httpOpts ttl tokens creds tr1 = (Ret None, tr2) ->
  loginToBullhorn fetch process_env (ParamsObject creds (Some tokens)) config tr
  = fromAccess fetch process_env httpOpts ttl tokens creds tr2.
Proof.
  intros Hv He Hr. rewrite (login_from_refresh _ _ _ _ _ _ _ _ Hv He).
  unfold fromRefresh. now rewrite (bind_ret _ _ _ _ _ Hr).
Qed.

(** C3. With an access token supplied (present and not empty) and the two
    earlier blocks left without a return: if the caller gave a REST URL, the
    only request made is that of [step3] (repeated if it is retried), to that
    URL; otherwise, if a username is given, [loginInfo] is called and its
    REST URL is used; if no REST URL comes out of this, the function throws
    the error that names the missing input, at once.  When [step3] succeeds
    the result has method [access], the access token of the caller and the
    refresh token of the caller, if any.  The block never ends without a
    return or a throw, so the full login is not reached. *)
Theorem access_token_path
        (creds : option BullhornCredentials) (tokens : TokenInput)
        (config : AuthConfig) (httpOpts : HttpOptions) (threshold ttl : jsnum)
        (tr tr1 tr2 : list event) :
  validateConfig process_env config tr = (Ret (httpOpts, threshold, ttl), tr) ->
  tryExisting fetch httpOpts threshold tokens tr = (Ret None, tr1) ->
  tryRefresh fetch process_env httpOpts ttl tokens creds tr1 = (Ret None, tr2) ->
  truthyS (accessToken tokens) = true ->
  let call := loginToBullhorn fetch process_env (ParamsObject creds (Some tokens)) config tr in
  let timeout := o_timeoutMs httpOpts in
  let user := credField username creds in
  let restLogin (url : jsval) (t : list event) : Prop :=
    exists o3 t',
      step3 fetch process_env httpOpts url (ofOpt (accessToken tokens)) ttl t = (o3, t')
      /\ startsWith (EvFetch (step3Url process_env url (ofOpt (accessToken tokens)) ttl)
                             POST timeout) t t'
      /\ match o3 with
         | Ret s3 =>
             call = (Ret {| r_restUrl := s3_restUrl s3;
                            r_restToken := s3_restToken s3;
                            r_refreshToken := ofOpt (refreshToken tokens);
                            r_accessToken := ofOpt (accessToken tokens);
                            r_minRemaining := None;
                            r_method := access |}, t')
         | Throw e => call = (Throw e, t')
         | OutOfFuel => False
         end in
  (truthyS (restUrl tokens) = true -> restLogin (ofOpt (restUrl tokens)) tr2)
  /\ (truthyS (restUrl tokens) = false ->
      truthyS user = true ->
      exists o1 t3,
        loginInfo fetch httpOpts user tr2 = (o1, t3)
        /\ startsWith (EvFetch (loginInfoUrl (default "" user)) GET timeout) tr2 t3
        /\ match o1 with
           | Ret info =>
               if truthy (li_restUrl info) then restLogin (li_restUrl info) t3
               else call = (Throw missingRestUrl, t3)
           | Throw e => call = (Throw e, t3)
           | OutOfFuel => False
           end)
  /\ (truthyS (restUrl tokens) = false ->
      truthyS user = false ->
      call = (Throw missingRestUrl, tr2))
  /\ (forall t t', tryAccess fetch process_env httpOpts ttl tokens creds t <> (Ret None, t')).
Proof.
  intros Hv He Hr Hat. cbn zeta.
  destruct (validateConfig_ok _ _ _ _ _ _ _ Hv) as (_ & _ & Hpos & _).
  rewrite (login_from_access _ _ _ _ _ _ _ _ _ Hv He Hr).
  unfold fromAccess, tryAccess. rewrite Hat.
  match goal with
  | |- context [bind (bind ?m ?k1) ?k2 tr2] => set (K1 := k1); set (K2 := k2)
  end.
  assert (Hfinish : forall url t,
    truthy url = true ->
    exists o3 t',
      step3 fetch process_env httpOpts url (ofOpt (accessToken tokens)) ttl t = (o3, t')
      /\ startsWith (EvFetch (step3Url process_env url (ofOpt (accessToken tokens)) ttl)
                             POST (o_timeoutMs httpOpts)) t t'
      /\ match o3 with
         | Ret s3 =>
             bind (K1 url) K2 t
             = (Ret {| r_restUrl := s3_restUrl s3;
                       r_restToken := s3_restToken s3;
                       r_refreshToken := ofOpt (refreshToken tokens);
                       r_accessToken := ofOpt (accessToken tokens);
                       r_minRemaining := None;
                       r_method := access |}, t')
         | Throw e => bind (K1 url) K2 t = (Throw e, t')
         | OutOfFuel => False
         end).
  { intros url t Hurl.
    destruct (step3_run fetch process_env httpOpts Hpos url (ofOpt (accessToken tokens)) ttl t)
      as (o3 & t' & Hs3 & Hset & Hst).
    exists o3, t'. split; [exact Hs3 |]. split; [exact Hst |].
    unfold K1, K2. rewrite Hurl. cbn [negb]. unfold bind. rewrite Hs3.
    destruct o3 as [s3 | e |]; [reflexivity | reflexivity | contradiction]. }
  assert (Hmissing : forall url t,
    truthy url = false -> bind (K1 url) K2 t = (Throw missingRestUrl, t)).
  { intros url t Hurl. unfold K1, K2. rewrite Hurl. reflexivity. }
  split; [| split; [| split]].
  - intros Hurl. unfold truthyS in Hurl. rewrite Hurl. cbn [negb andb].
    rewrite (bind_assoc_run (ret (ofOpt (restUrl tokens))) K1 K2 tr2
                            (ofOpt (restUrl tokens)) tr2 eq_refl).
    now apply Hfinish.
  - intros Hurl Huser. unfold truthyS in Hurl. rewrite Hurl, Huser. cbn [negb andb].
    destruct (loginInfo_run fetch httpOpts Hpos (credField username creds) tr2 Huser)
      as (o1 & t3 & Hli & Hs1 & Hst1).
    exists o1, t3. split; [exact Hli |]. split; [exact Hst1 |].
    destruct o1 as [info | e |]; [| | contradiction].
    + rewrite (bind_assoc_run _ K1 K2 tr2 (li_restUrl info) t3)
        by (now rewrite (bind_ret _ _ _ _ _ Hli)).
      destruct (truthy (li_restUrl info)) eqn:Hinfo.
      * now apply Hfinish.
      * now apply Hmissing.
    + unfold bind. rewrite Hli. reflexivity.
  - intros Hurl Huser. unfold truthyS in Hurl. rewrite Hurl, Huser. cbn [negb andb].
    rewrite (bind_assoc_run (ret (ofOpt (restUrl tokens))) K1 K2 tr2
                            (ofOpt (restUrl tokens)) tr2 eq_refl).
    now apply Hmissing.
  - intros t t'. unfold K1. unfold bind, ret, newError, throw.
    destruct (negb (truthy (ofOpt (restUrl tokens))) && truthyS (credField username creds)).
    + destruct (loginInfo _ _ _ t) as [[info | e |] t0]; try discriminate.
      destruct (negb (truthy (li_restUrl info))); [discriminate |].
      destruct (step3 _ _ _ _ _ _ t0) as [[s3 | e |] t1]; discriminate.
    + destruct (negb (truthy (ofOpt (restUrl tokens)))); [discriminate |].
      destruct (step3 _ _ _ _ _ _ t) as [[s3 | e |] t1]; discriminate.
Qed.
End PathFacts.

(** ** Input validation *)

Section InputFacts.
Context {P : Platform}.
Variable fetch : Transport.
Variable process_env : gmap string string.

Lemma numberSetting_configured v name fallback :
  nullish v = false -> numberSetting process_env v name fallback = ToNumber v.
Proof.
  intros Hv. unfold numberSetting, coalesce. rewrite Hv.
  destruct v; try discriminate; reflexivity.
Qed.

(** What the validation lets through. *)
Lemma validateConfig_accepts config tr cfg :
  validateConfig process_env config tr = (Ret cfg, tr) ->
  (forall h q, http config = Some h -> cfg_timeoutMs h = VNum (Fin q) -> ~ (q <= 0)%Q)
  /\ (forall h q, http config = Some h -> cfg_retries h = VNum (Fin q) -> ~ (q < 0)%Q)
  /\ (nullish (minRemainingThreshold config) = false ->
      exists t, ToNumber (minRemainingThreshold config) = Fin t /\ ~ (t < 0)%Q)
  /\ (nullish (ttlDays config) = false ->
      exists d, ToNumber (ttlDays config) = Fin d /\ ~ (d <= 0)%Q).
Proof.
  destruct cfg as [[httpOpts threshold] ttl]. intros Hv.
  destruct (validateConfig_ok _ _ _ _ _ _ _ Hv)
    as (_ & Hc & _ & (t & Ht & Htpos) & (d & Hd & Hdpos) & Hth & Httl).
  destruct (createHttpOptions_ok _ _ _ _ Hc) as (_ & Htime & Hretr & Heqt & Heqr & _).
  repeat split.
  - intros h q Hh Hq Hle. rewrite Hh in Heqt. cbn in Heqt. rewrite Hq in Heqt.
    cbn in Heqt. rewrite Heqt in Htime.
    unfold Qlt_bool in Htime. apply negb_true_iff in Htime.
    apply Qle_bool_iff in Hle. congruence.
  - intros h q Hh Hq Hlt. rewrite Hh in Heqr. cbn in Heqr. rewrite Hq in Heqr.
    cbn in Heqr. rewrite Heqr in Hretr.
    apply Qle_bool_iff in Hretr. exact (Qlt_not_le _ _ Hlt Hretr).
  - intros Hnn. exists t. rewrite <- (numberSetting_configured _ "THRESHOLD_REMAINING_MIN" 100 Hnn).
    split; [congruence |]. intros Hlt. apply Qle_bool_iff in Htpos.
    exact (Qlt_not_le _ _ Hlt Htpos).
  - intros Hnn. exists d. rewrite <- (numberSetting_configured _ "BULLHORN_TTL" 30 Hnn).
    split; [congruence |]. intros Hle.
    unfold Qlt_bool in Hdpos. apply negb_true_iff in Hdpos.
    apply Qle_bool_iff in Hle. congruence.
Qed.

(** The validation ends with a configuration or with an error. *)
Lemma validateConfig_cases config tr :
  (exists cfg, validateConfig process_env config tr = (Ret cfg, tr))
  \/ (exists e, validateConfig process_env config tr = (Throw e, tr)).
Proof.
  destruct (validateConfig_trace process_env config tr) as [Ht Hf].
  destruct (validateConfig process_env config tr) as [[cfg | e |] t]; simpl in *; subst.
  - left. eauto.
  - right. eauto.
  - congruence.
Qed.

(** C5 (amended). A call is refused with an error, before any request is
    made, when [params] is not an object, when [timeoutMs] is a finite
    number that is not positive, when [retries] is a finite negative
    number, when [minRemainingThreshold] is given and does not convert to a
    finite number that is at least 0, or when [ttlDays] is given and does
    not convert to a finite number above 0.  A call with no tokens and no
    credentials never makes a request either: it throws the error of the
    validation if the configuration is refused, and otherwise the
    "Insufficient input" error, which lists the three accepted inputs. *)
Theorem validation_before_network (params : Params) (config : AuthConfig) (tr : list event) :
  ((exists v, params = NotAnObject v)
   \/ (exists h q, http config = Some h /\ cfg_timeoutMs h = VNum (Fin q) /\ (q <= 0)%Q)
   \/ (exists h q, http config = Some h /\ cfg_retries h = VNum (Fin q) /\ (q < 0)%Q)
   \/ (nullish (minRemainingThreshold config) = false
       /\ match ToNumber (minRemainingThreshold config) with
          | Fin t => (t < 0)%Q
          | _ => True
          end)
   \/ (nullish (ttlDays config) = false
       /\ match ToNumber (ttlDays config) with
          | Fin d => (d <= 0)%Q
          | _ => True
          end) ->
   exists e, loginToBullhorn fetch process_env params config tr = (Throw e, tr))
  /\ (forall tokens,
         params = ParamsObject None tokens ->
         tokens = None \/ tokens = Some noTokens ->
         (exists e, loginToBullhorn fetch process_env params config tr = (Throw e, tr))
         /\ (forall cfg,
                validateConfig process_env config tr = (Ret cfg, tr) ->
                loginToBullhorn fetch process_env params config tr
                = (Throw (ExnError insufficientInput None), tr))).
Proof.
  split.
  - intros Hbad.
    destruct params as [v | creds tokens]; [eexists; reflexivity |].
    destruct (validateConfig_cases config tr) as [[cfg Hv] | [e Hv]].
    + exfalso.
      destruct (validateConfig_accepts _ _ _ Hv) as (Htime & Hretr & Hth & Httl).
      destruct Hbad as [(v & Hp) | [(h & q & Hh & Hq & Hle) | [(h & q & Hh & Hq & Hlt)
                       | [(Hnn & Hbadth) | (Hnn & Hbadttl)]]]].
      * discriminate.
      * exact (Htime h q Hh Hq Hle).
      * exact (Hretr h q Hh Hq Hlt).
      * destruct (Hth Hnn) as (t & Ht & Hnot). rewrite Ht in Hbadth. contradiction.
      * destruct (Httl Hnn) as (d & Hd & Hnot). rewrite Hd in Hbadttl. contradiction.
    + exists e. unfold loginToBullhorn. now rewrite (bind_throw _ _ _ _ _ Hv).
  - intros tokens -> Htok.
    assert (Hok : forall cfg,
      validateConfig process_env config tr = (Ret cfg, tr) ->
      loginToBullhorn fetch process_env (ParamsObject None tokens) config tr
      = (Throw (ExnError insufficientInput None), tr)).
    { intros [[httpOpts threshold] ttl] Hv.
      rewrite (login_after_validation _ _ _ _ _ _ _ _ _ Hv).
      destruct Htok as [-> | ->]; reflexivity. }
    split; [| exact Hok].
    destruct (validateConfig_cases config tr) as [[cfg Hv] | [e Hv]].
    + eexists. exact (Hok cfg Hv).
    + exists e. unfold loginToBullhorn. now rewrite (bind_throw _ _ _ _ _ Hv).
Qed.
End InputFacts.

(** ** The authorize step *)

Section AuthorizeFacts.
Context {P : Platform}.
Variable fetch : Transport.

(** C8 (amended). Once the authorize request has been answered: without a
    [Location] header, or with one that [url.parse] refuses, [step1] throws;
    with any other [Location] header it returns, and the code it returns is
    what [querystring.parse] finds under [code] in the query of that header.
    When nothing is found there the code is [undefined], nothing is thrown,
    and the request of the code exchange that follows ends in
    [code=undefined]. *)
Theorem authorize_location
        (httpOpts : HttpOptions) (oauthUrl cid user pw : jsval)
        (tr tr1 : list event) (res : Response) :
  requestWithRetry fetch (step1Url oauthUrl cid user pw) step1Init httpOpts tr = (Ret res, tr1) ->
  (headers res !! "location" = None
   \/ (exists location, headers res !! "location" = Some location
                        /\ url_parse_query location = None) ->
   exists msg, step1 fetch httpOpts oauthUrl cid user pw tr = (Throw (ExnError msg None), tr1))
  /\ (forall location query,
         headers res !! "location" = Some location ->
         url_parse_query location = Some query ->
         step1 fetch httpOpts oauthUrl cid user pw tr
         = (Ret {| tmpAuthCode := queryCode query;
                   s1_raw := basicLogFromResponse res |}, tr1))
  /\ (forall location query secret,
         headers res !! "location" = Some location ->
         url_parse_query location = Some query ->
         queryCode query = QAbsent ->
         exists r,
           step1 fetch httpOpts oauthUrl cid user pw tr = (Ret r, tr1)
           /\ tmpAuthCode r = QAbsent
           /\ step2Url oauthUrl cid secret (tmpAuthCode r)
              = ToString oauthUrl +:+ "/token?grant_type=authorization_code&client_id="
                  +:+ ToString cid +:+ "&client_secret=" +:+ ToString secret
                  +:+ "&code=" +:+ "undefined").
Proof.
  intros Hrun.
  assert (Hloc : forall location query,
    headers res !! "location" = Some location ->
    url_parse_query location = Some query ->
    step1 fetch httpOpts oauthUrl cid user pw tr
    = (Ret {| tmpAuthCode := queryCode query;
              s1_raw := basicLogFromResponse res |}, tr1)).
  { intros location query Hl Hq. unfold step1. rewrite (bind_ret _ _ _ _ _ Hrun).
    rewrite Hl. cbn [parsedQuery]. rewrite Hq. reflexivity. }
  split; [| split].
  - intros [Hnone | (location & Hl & Hq)]; unfold step1; rewrite (bind_ret _ _ _ _ _ Hrun).
    + rewrite Hnone. eexists. reflexivity.
    + rewrite Hl. cbn [parsedQuery]. rewrite Hq. eexists. reflexivity.
  - exact Hloc.
  - intros location query secret Hl Hq Hcode. eexists.
    split; [exact (Hloc location query Hl Hq) |].
    cbn [tmpAuthCode]. rewrite Hcode. split; reflexivity.
Qed.
End AuthorizeFacts.

(** ** Request targets *)

(** C4. The refresh request built by [step0] for the refresh token [r&x=1]
    carries the token as it is, where the percent-encoded request has
    [r%26x%3D1]; in the same way [step3] inserts the access token and
    [step2] the client secret unencoded.  [loginInfo] and [step1] do encode
    the username and the password. *)
Theorem tokens_inserted_unencoded :
  step0Url (P := samplePlatform) (VStr "https://oauth") (VStr "r&x=1") (VStr "id") (VStr "sec")
    = "https://oauth/token?grant_type=refresh_token&refresh_token=r&x=1&client_id=id&client_secret=sec"
  /\ spec_step0Url (P := samplePlatform)
                   (VStr "https://oauth") (VStr "r&x=1") (VStr "id") (VStr "sec")
     = "https://oauth/token?grant_type=refresh_token&refresh_token=r%26x%3D1&client_id=id&client_secret=sec"
  /\ snd (step0 (P := samplePlatform) healthySession defaultOptions
                (VStr "https://oauth") (VStr "r&x=1") (VStr "id") (VStr "sec") [])
     = [EvFetch "https://oauth/token?grant_type=refresh_token&refresh_token=r&x=1&client_id=id&client_secret=sec"
                POST 30000]
  /\ step3Url (P := samplePlatform) ∅ (VStr "https://rest") (VStr "a b&c") (Fin 30)
     = "https://rest/login?version=*&access_token=a b&c&ttl=30"
  /\ step2Url (P := samplePlatform) (VStr "https://oauth") (VStr "id") (VStr "s#1") (QOne "CODE")
     = "https://oauth/token?grant_type=authorization_code&client_id=id&client_secret=s#1&code=CODE"
  /\ loginInfoUrl "a b&c"
     = "https://rest.bullhornstaffing.com/rest-services/loginInfo?username=a%20b%26c"
  /\ step1Url (P := samplePlatform) (VStr "https://oauth") (VStr "id") (VStr "a b") (VStr "p&q")
     = "https://oauth/authorize?client_id=id&response_type=code&action=Login&username=a%20b&password=p%26q".
Proof. repeat split; vm_compute; reflexivity. Qed.

(** ** Environment helpers *)

Lemma truthyS_Some (o : option string) :
  truthyS o = true <-> exists s, o = Some s /\ s <> "".
Proof.
  unfold truthyS. destruct o as [s |]; simpl.
  - rewrite negb_true_iff, bool_decide_eq_false. split.
    + intros Hs. eauto.
    + intros (s' & [= <-] & Hs). exact Hs.
  - split; [discriminate | intros (s & Hs & _); discriminate].
Qed.

(** C9 (amended). [credentialsFromEnv] returns the four values exactly when
    all four variables are set to non-empty strings, and [null] otherwise.
    [tokensFromEnv] returns an object that has, for each of the four token
    variables that is set, the corresponding key with the value of the
    variable (an empty value included), and no other key: a variable that is
    not set leaves no key behind, neither [undefined] nor an empty string. *)
Theorem environment_extraction (env : gmap string string) :
  (forall c,
      credentialsFromEnv env = Some c <->
      exists i s u p,
        env !! "BH_CLIENT_ID" = Some i /\ i <> ""
        /\ env !! "BH_CLIENT_SECRET" = Some s /\ s <> ""
        /\ env !! "BH_USERNAME" = Some u /\ u <> ""
        /\ env !! "BH_PASSWORD" = Some p /\ p <> ""
        /\ c = {| clientId := Some i; clientSecret := Some s;
                  username := Some u; password := Some p |})
  /\ tokensFromEnv env !! "restUrl" = Some <$> env !! "BH_REST_URL"
  /\ tokensFromEnv env !! "restToken" = Some <$> env !! "BH_REST_TOKEN"
  /\ tokensFromEnv env !! "refreshToken" = Some <$> env !! "BH_REFRESH_TOKEN"
  /\ tokensFromEnv env !! "accessToken" = Some <$> env !! "BH_ACCESS_TOKEN"
  /\ (forall k,
         k <> "restUrl" -> k <> "restToken" -> k <> "refreshToken" -> k <> "accessToken" ->
         tokensFromEnv env !! k = None)
  /\ tokenInputOf (tokensFromEnv env)
     = {| restUrl := env !! "BH_REST_URL"; restToken := env !! "BH_REST_TOKEN";
          refreshToken := env !! "BH_REFRESH_TOKEN";
          accessToken := env !! "BH_ACCESS_TOKEN" |}.
Proof.
  split.
  - intros c. unfold credentialsFromEnv.
    destruct (truthyS (env !! "BH_CLIENT_ID")) eqn:Ei;
      [| split; [discriminate | intros (i & s & u & p & Hi & Hin & _)];
         assert (truthyS (env !! "BH_CLIENT_ID") = true)
           by (apply truthyS_Some; eauto); congruence].
    destruct (truthyS (env !! "BH_CLIENT_SECRET")) eqn:Es;
      [| split; [discriminate | intros (i & s & u & p & _ & _ & Hs & Hsn & _)];
         assert (truthyS (env !! "BH_CLIENT_SECRET") = true)
           by (apply truthyS_Some; eauto); congruence].
    destruct (truthyS (env !! "BH_USERNAME")) eqn:Eu;
      [| split; [discriminate | intros (i & s & u & p & _ & _ & _ & _ & Hu & Hun & _)];
         assert (truthyS (env !! "BH_USERNAME") = true)
           by (apply truthyS_Some; eauto); congruence].
    destruct (truthyS (env !! "BH_PASSWORD")) eqn:Ep;
      [| split; [discriminate
                | intros (i & s & u & p & _ & _ & _ & _ & _ & _ & Hp & Hpn & _)];
         assert (truthyS (env !! "BH_PASSWORD") = true)
           by (apply truthyS_Some; eauto); congruence].
    cbn [andb].
    apply truthyS_Some in Ei as (i & Hi & Hin), Es as (s & Hs & Hsn),
          Eu as (u & Hu & Hun), Ep as (p & Hp & Hpn).
    rewrite Hi, Hs, Hu, Hp. split.
    + intros [= <-]. exists i, s, u, p. repeat split; assumption.
    + intros (i' & s' & u' & p' & [= <-] & _ & [= <-] & _ & [= <-] & _ & [= <-] & _ & ->).
      reflexivity.
  - unfold tokensFromEnv.
    destruct (env !! "BH_REST_URL") as [a |], (env !! "BH_REST_TOKEN") as [b |],
             (env !! "BH_REFRESH_TOKEN") as [c |], (env !! "BH_ACCESS_TOKEN") as [d |];
      repeat split; try (vm_compute; reflexivity);
      try reflexivity;
      intros k H1 H2 H3 H4; cbn;
      repeat (first [ rewrite lookup_delete_ne by congruence
                    | rewrite lookup_insert_ne by congruence
                    | case_bool_decide
                    | simplify_map_eq ]); try reflexivity; try congruence.
Qed.

(** * The statements on concrete calls *)

Lemma sample_validation :
  validateConfig (P := samplePlatform) ∅ threshold100 []
  = (Ret (defaultOptions, Fin 100, Fin 30), []).
Proof. vm_compute. reflexivity. Defined.

(** A ping answered 401, with the quota header of a live session: the
    refused token comes back as the session, and the refresh token and the
    credentials at hand are not used. *)
Lemma existing_session_path_witness :
  loginToBullhorn (P := samplePlatform) unauthorizedWithQuota ∅
                  (ParamsObject (Some fullCredentials) (Some staleTokens)) threshold100 []
  = (Ret {| r_restUrl := VStr "https://rest";
            r_restToken := VStr "bad";
            r_refreshToken := VStr "R1";
            r_accessToken := VUndefined;
            r_minRemaining := Some "500";
            r_method := existing |},
     [EvFetch "https://rest/ping"
              {| method := "GET"; redirect := None; reqHeaders := [("BhRestToken", "bad")] |}
              30000]).
Proof.
  destruct (existing_session_path (P := samplePlatform) unauthorizedWithQuota ∅
              (Some fullCredentials) staleTokens threshold100 defaultOptions
              (Fin 100) (Fin 30) [] eq_refl eq_refl sample_validation)
    as (o & d & Hrun & _ & Hcase).
  vm_compute in Hrun. injection Hrun as Ho Hd. subst o d.
  cbv beta iota zeta in Hcase.
  destruct Hcase as (_ & _ & _ & Hreturn & _).
  refine (Hreturn 500%Q 100%Q _ eq_refl _); vm_compute; reflexivity.
Defined.

Lemma missing_quota_falls_through_witness :
  loginToBullhorn (P := samplePlatform) unauthorized ∅
                  (ParamsObject None (Some sessionTokens)) threshold100 []
  = fromRefresh (P := samplePlatform) unauthorized ∅ defaultOptions (Fin 30) sessionTokens None
                [EvFetch "https://rest/ping"
                         {| method := "GET"; redirect := None;
                            reqHeaders := [("BhRestToken", "T")] |}
                         30000].
Proof.
  refine (proj2 (missing_quota_falls_through (P := samplePlatform) unauthorized ∅ None
                  sessionTokens threshold100 defaultOptions (Fin 100) (Fin 30) []
                  [EvFetch "https://rest/ping"
                           {| method := "GET"; redirect := None;
                              reqHeaders := [("BhRestToken", "T")] |}
                           30000]
                  (response 401 [] [])
                  eq_refl eq_refl sample_validation _ (or_introl _)));
    vm_compute; reflexivity.
Defined.

Lemma default_validation :
  validateConfig (P := samplePlatform) ∅ emptyConfig []
  = (Ret (defaultOptions, Fin 100, Fin 30), []).
Proof. vm_compute. reflexivity. Defined.

(** A refresh token refused with a 400 and an error body, by a caller who
    also gave the credentials of the full login: the call ends with method
    [refresh] and no token at all, and the full login is not tried. *)
Lemma refresh_path_witness :
  loginToBullhorn (P := samplePlatform) refusedRefresh ∅
                  (ParamsObject (Some fullCredentials) (Some refreshOnlyTokens)) emptyConfig []
  = (Ret {| r_restUrl := VUndefined;
            r_restToken := VUndefined;
            r_refreshToken := VUndefined;
            r_accessToken := VUndefined;
            r_minRemaining := None;
            r_method := refresh |},
     [EvFetch "https://rest.bullhornstaffing.com/rest-services/loginInfo?username=u"
              GET 30000;
      EvFetch "https://oauth/token?grant_type=refresh_token&refresh_token=R1&client_id=id&client_secret=sec"
              POST 30000;
      EvFetch "https://rest/login?version=*&access_token=undefined&ttl=30" POST 30000]).
Proof.
  assert (Hexisting :
    tryExisting (P := samplePlatform) refusedRefresh defaultOptions (Fin 100)
                refreshOnlyTokens []
    = (Ret None, [])) by (vm_compute; reflexivity).
  destruct (refresh_path (P := samplePlatform) refusedRefresh ∅ (Some fullCredentials)
              refreshOnlyTokens emptyConfig defaultOptions (Fin 100) (Fin 30) [] _
              default_validation Hexisting eq_refl eq_refl eq_refl eq_refl)
    as (o1 & tr2 & Hinfo & _ & Hcase).
  vm_compute in Hinfo. injection Hinfo as Ho Ht. subst o1 tr2.
  cbv beta iota zeta in Hcase.
  destruct Hcase as (o2 & tr3 & Hrun & _ & Hcase).
  vm_compute in Hrun. injection Hrun as Ho Ht. subst o2 tr3.
  cbv beta iota zeta in Hcase. cbn [body] in Hcase.
  destruct Hcase as (_ & _ & _ & o3 & tr4 & Hstep3 & _ & Hcase).
  vm_compute in Hstep3. injection Hstep3 as Ho Ht. subst o3 tr4.
  cbv beta iota in Hcase.
  etransitivity; [exact Hcase | vm_compute; reflexivity].
Defined.

Lemma access_token_path_witness :
  loginToBullhorn (P := samplePlatform) accessScenario ∅
                  (ParamsObject None (Some accessTokens)) emptyConfig []
  = (Ret {| r_restUrl := VStr "https://rest";
            r_restToken := VStr "RT";
            r_refreshToken := VUndefined;
            r_accessToken := VStr "A";
            r_minRemaining := None;
            r_method := access |},
     [EvFetch "https://rest/login?version=*&access_token=A&ttl=30" POST 30000]).
Proof.
  destruct (access_token_path (P := samplePlatform) accessScenario ∅ None accessTokens
              emptyConfig defaultOptions (Fin 100) (Fin 30) [] [] []
              default_validation eq_refl eq_refl eq_refl)
    as (Hdirect & _).
  destruct (Hdirect eq_refl) as (o3 & tr3 & Hstep3 & _ & Hcase).
  vm_compute in Hstep3. injection Hstep3 as Ho Ht. subst o3 tr3.
  cbv beta iota in Hcase.
  exact Hcase.
Defined.

Lemma validation_before_network_witness :
  exists e,
    loginToBullhorn (P := samplePlatform) healthySession ∅
                    (ParamsObject None (Some sessionTokens)) ttlZero []
    = (Throw e, []).
Proof.
  apply (proj1 (validation_before_network (P := samplePlatform) healthySession ∅
                  (ParamsObject None (Some sessionTokens)) ttlZero [])).
  right. right. right. right. split; [reflexivity |].
  simpl. apply Qle_refl.
Defined.

Lemma authorize_location_witness :
  step1 (P := samplePlatform) redirectWithCode defaultOptions
        (VStr "https://oauth") (VStr "id") (VStr "u") (VStr "p") []
  = (Ret {| tmpAuthCode := QOne "CODE";
            s1_raw := basicLogFromResponse
                        (response 302 [("location", "https://cb?code=CODE")] []) |},
     [EvFetch "https://oauth/authorize?client_id=id&response_type=code&action=Login&username=u&password=p"
              step1Init 30000]).
Proof.
  assert (Hrun :
    requestWithRetry redirectWithCode
      (step1Url (P := samplePlatform) (VStr "https://oauth") (VStr "id") (VStr "u") (VStr "p"))
      step1Init defaultOptions []
    = (Ret (response 302 [("location", "https://cb?code=CODE")] []),
       [EvFetch "https://oauth/authorize?client_id=id&response_type=code&action=Login&username=u&password=p"
                step1Init 30000])) by (vm_compute; reflexivity).
  destruct (authorize_location (P := samplePlatform) redirectWithCode defaultOptions
              (VStr "https://oauth") (VStr "id") (VStr "u") (VStr "p") [] _ _ Hrun)
    as (_ & Hlocation & _).
  rewrite (Hlocation "https://cb?code=CODE" (Some "code=CODE"))
    by (vm_compute; reflexivity).
  vm_compute. reflexivity.
Defined.

(** ** The scenarios of the test suite *)

Example test_full_login :
  loginToBullhorn (P := samplePlatform) fullLoginScenario ∅
                  (ParamsObject (Some fullCredentials) None) emptyConfig []
  = (Ret {| r_restUrl := VStr "https://rest";
            r_restToken := VStr "RT";
            r_refreshToken := VStr "R";
            r_accessToken := VStr "A";
            r_minRemaining := None;
            r_method := full |},
     [EvFetch "https://rest.bullhornstaffing.com/rest-services/loginInfo?username=u"
              GET 30000;
      EvFetch "https://oauth/authorize?client_id=id&response_type=code&action=Login&username=u&password=p"
              step1Init 30000;
      EvFetch "https://oauth/token?grant_type=authorization_code&client_id=id&client_secret=sec&code=CODE"
              POST 30000;
      EvFetch "https://rest/login?version=*&access_token=A&ttl=30" POST 30000]).
Proof. vm_compute. reflexivity. Qed.

Example test_refresh_path :
  loginToBullhorn (P := samplePlatform) refreshScenario ∅
                  (ParamsObject (Some fullCredentials) (Some staleTokens)) emptyConfig []
  = (Ret {| r_restUrl := VStr "https://rest";
            r_restToken := VStr "RT";
            r_refreshToken := VStr "R2";
            r_accessToken := VStr "A";
            r_minRemaining := None;
            r_method := refresh |},
     [EvFetch "https://rest/ping"
              {| method := "GET"; redirect := None; reqHeaders := [("BhRestToken", "bad")] |}
              30000;
      EvFetch "https://rest.bullhornstaffing.com/rest-services/loginInfo?username=u"
              GET 30000;
      EvFetch "https://oauth/token?grant_type=refresh_token&refresh_token=R1&client_id=id&client_secret=sec"
              POST 30000;
      EvFetch "https://rest/login?version=*&access_token=A&ttl=30" POST 30000]).
Proof. vm_compute. reflexivity. Qed.

Example test_insufficient_input :
  loginToBullhorn (P := samplePlatform) healthySession ∅
                  (ParamsObject (Some {| clientId := Some "id"; clientSecret := None;
                                         username := None; password := None |}) None)
                  emptyConfig []
  = (Throw (ExnError insufficientInput None), []).
Proof. vm_compute. reflexivity. Qed.

Example test_retry_callback_error :
  loginToBullhorn (P := samplePlatform) oneRejection ∅
                  (ParamsObject None (Some sessionTokens)) oneRetryObserved []
  = (Ret {| r_restUrl := VStr "https://rest";
            r_restToken := VStr "T";
            r_refreshToken := VUndefined;
            r_accessToken := VUndefined;
            r_minRemaining := Some "500";
            r_method := existing |},
     [EvFetch "https://rest/ping"
              {| method := "GET"; redirect := None; reqHeaders := [("BhRestToken", "T")] |}
              1000;
      EvObserver {| attempt := 1; ri_status := Some 500; ri_error := "Server error" |};
      EvSleep 1000;
      EvFetch "https://rest/ping"
              {| method := "GET"; redirect := None; reqHeaders := [("BhRestToken", "T")] |}
              1000]).
Proof. vm_compute. reflexivity. Qed.

Example test_invalid_configuration :
  fst (loginToBullhorn (P := samplePlatform) healthySession ∅ (ParamsObject None None)
         {| ttlDays := VStr "invalid"; minRemainingThreshold := VUndefined; http := None |} [])
  = Throw (ExnError "ttlDays must be a positive number" None)
  /\ fst (loginToBullhorn (P := samplePlatform) healthySession ∅ (ParamsObject None None)
            {| ttlDays := VUndefined; minRemainingThreshold := VNum (Fin (-1)); http := None |} [])
     = Throw (ExnError "minRemainingThreshold must be a non-negative number" None)
  /\ fst (loginToBullhorn (P := samplePlatform) healthySession ∅ (NotAnObject (VStr "string"))
            emptyConfig [])
     = Throw (ExnError "params must be an object with credentials and/or tokens" None).
Proof. repeat split; vm_compute; reflexivity. Qed.

(** ** Where the claims as worded fail *)

(** C5. A [timeoutMs] of minus infinity is not positive, yet it is replaced
    by the default and the call goes to the network and returns; and a call
    without tokens and credentials whose [ttlDays] is 0 is refused for its
    [ttlDays], not for insufficient input. *)
Lemma validation_before_network_counterexample :
  (cfg_timeoutMs <$> http timeoutMinusInfinity = Some (VNum NInf)
   /\ num_le0 NInf = true
   /\ loginToBullhorn (P := samplePlatform) healthySession ∅
                      (ParamsObject None (Some sessionTokens)) timeoutMinusInfinity []
      = (Ret {| r_restUrl := VStr "https://rest";
                r_restToken := VStr "T";
                r_refreshToken := VUndefined;
                r_accessToken := VUndefined;
                r_minRemaining := Some "500";
                r_method := existing |},
         [EvFetch "https://rest/ping"
                  {| method := "GET"; redirect := None; reqHeaders := [("BhRestToken", "T")] |}
                  30000]))
  /\ loginToBullhorn (P := samplePlatform) healthySession ∅ (ParamsObject None None) ttlZero []
     = (Throw (ExnError "ttlDays must be a positive number" None), []).
Proof. repeat split; vm_compute; reflexivity. Qed.

(** C8. The authorize response carries a [Location] header without a
    [code] parameter; [step1] returns, with no code, instead of throwing. *)
Lemma authorize_location_counterexample :
  step1 (P := samplePlatform) redirectWithoutCode defaultOptions
        (VStr "https://oauth") (VStr "id") (VStr "u") (VStr "p") []
  = (Ret {| tmpAuthCode := QAbsent;
            s1_raw := basicLogFromResponse (response 302 [("location", "https://cb")] []) |},
     [EvFetch "https://oauth/authorize?client_id=id&response_type=code&action=Login&username=u&password=p"
              step1Init 30000]).
Proof. vm_compute. reflexivity. Qed.

(** C9. All four credential variables are present, one of them empty, and
    [credentialsFromEnv] returns [null]. *)
Lemma environment_extraction_counterexample :
  (is_Some (emptyPasswordEnv !! "BH_CLIENT_ID")
   /\ is_Some (emptyPasswordEnv !! "BH_CLIENT_SECRET")
   /\ is_Some (emptyPasswordEnv !! "BH_USERNAME")
   /\ is_Some (emptyPasswordEnv !! "BH_PASSWORD"))
  /\ credentialsFromEnv emptyPasswordEnv = None.
Proof.
  split; [| vm_compute; reflexivity].
  repeat split; eexists; vm_compute; reflexivity.
Qed.

(** * Further properties of the code *)

(** ** Percent-encoding *)

Lemma allChars_app p s1 s2 :
  allChars p (s1 +:+ s2) = allChars p s1 && allChars p s2.
Proof.
  induction s1 as [| c s1 IH]; simpl; [reflexivity |].
  now rewrite IH, andb_assoc.
Qed.

Lemma hexDigit_safe n : (n < 16)%N -> uriSafe (hexDigit n) = true.
Proof.
  intros Hn.
  assert (Hcases : In n (List.map N.of_nat (seq 0 16))).
  { apply in_map_iff. exists (N.to_nat n). split; [apply N2Nat.id |].
    apply in_seq. lia. }
  simpl in Hcases.
  repeat (destruct Hcases as [<- | Hcases]; [vm_compute; reflexivity |]).
  contradiction.
Qed.

Lemma pctByte_safe b : (b < 256)%N -> allChars uriSafe (pctByte b) = true.
Proof.
  intros Hb. unfold pctByte. cbn [allChars].
  rewrite !hexDigit_safe.
  - reflexivity.
  - apply N.mod_lt. discriminate.
  - apply N.Div0.div_lt_upper_bound. exact Hb.
Qed.

Lemma N_of_ascii_bound c : (N_of_ascii c < 256)%N.
Proof. destruct c as [[] [] [] [] [] [] [] []]; vm_compute; reflexivity. Qed.

Lemma encodeChar_safe c : allChars uriSafe (encodeChar c) = true.
Proof.
  unfold encodeChar. pose proof (N_of_ascii_bound c) as Hc.
  destruct (uriUnreserved c) eqn:Hu.
  - cbn. unfold uriSafe. now rewrite Hu.
  - destruct (N.ltb (N_of_ascii c) 128) eqn:Hlt.
    + now apply pctByte_safe.
    + rewrite allChars_app, !pctByte_safe; [reflexivity | |].
      * assert ((N_of_ascii c) mod 64 < 64)%N by (apply N.mod_lt; discriminate). lia.
      * assert ((N_of_ascii c) / 64 < 4)%N
          by (apply N.Div0.div_lt_upper_bound; lia). lia.
Qed.

Lemma encodeChar_length c :
  (1 <= String.length (encodeChar c))%nat
  /\ (uriUnreserved c = false -> 3 <= String.length (encodeChar c))%nat.
Proof.
  unfold encodeChar. destruct (uriUnreserved c).
  - split; [simpl; lia | discriminate].
  - destruct (N.ltb (N_of_ascii c) 128); simpl; split; intros; lia.
Qed.

Lemma string_length_app s1 s2 :
  String.length (s1 +:+ s2) = (String.length s1 + String.length s2)%nat.
Proof. induction s1 as [| c s1 IH]; simpl; [reflexivity | now rewrite IH]. Qed.

Lemma encode_length s :
  (String.length s <= String.length (encodeURIComponentS s))%nat
  /\ (allChars uriUnreserved s = false ->
      String.length s < String.length (encodeURIComponentS s))%nat.
Proof.
  induction s as [| c s [IHle IHlt]]; simpl; [split; [lia | discriminate] |].
  rewrite string_length_app.
  destruct (encodeChar_length c) as [H1 H3].
  split; [lia |].
  destruct (uriUnreserved c) eqn:Hu; simpl.
  - intros Hs. specialize (IHlt Hs). lia.
  - intros _. specialize (H3 eq_refl). lia.
Qed.

(** X1. Whatever the input, the output of [encodeURIComponent] is made of
    unreserved characters and percent signs only, so an encoded value
    cannot hold an ampersand, an equals sign, a question mark, a hash, a
    slash, a plus sign or a space: the username sent by [loginInfo] and the
    username and password sent by [step1] cannot add or cut a query
    parameter. *)
Theorem encoded_value_is_inert (s : string) :
  allChars uriSafe (encodeURIComponentS s) = true
  /\ (forall c, memChar c "&=?#/+ " = true -> memChar c (encodeURIComponentS s) = false)
  /\ loginInfoUrl s
     = "https://rest.bullhornstaffing.com/rest-services/loginInfo?username="
         +:+ encodeURIComponentS s
  /\ (forall (P : Platform) (oauthUrl clientId password : jsval),
         step1Url oauthUrl clientId (VStr s) password
         = ToString oauthUrl +:+ "/authorize?client_id=" +:+ ToString clientId
             +:+ "&response_type=code&action=Login&username=" +:+ encodeURIComponentS s
             +:+ "&password=" +:+ encodeURIComponentS (ToString password)).
Proof.
  assert (Hall : allChars uriSafe (encodeURIComponentS s) = true).
  { induction s as [| c s IH]; simpl; [reflexivity |].
    now rewrite allChars_app, encodeChar_safe, IH. }
  split; [exact Hall |]. split; [| split; [reflexivity | intros; reflexivity]].
  intros c Hc.
  assert (Hunsafe : uriSafe c = false).
  { simpl in Hc. repeat (case_bool_decide; [subst c; reflexivity |]). discriminate. }
  revert Hall. generalize (encodeURIComponentS s) as t.
  induction t as [| d t IH]; simpl; [reflexivity |].
  intros Hall. apply andb_prop in Hall as [Hd Ht].
  rewrite (IH Ht), orb_false_r. apply bool_decide_eq_false. intros <-. congruence.
Qed.

(** X2. [_encodePasswordIfNeeded] returns its argument unchanged exactly
    when every character of the argument is unreserved (a letter, a digit
    or one of [-_.!~*'()]); any other character makes the result longer. *)
Theorem password_unchanged_iff_unreserved (password : string) :
  (_encodePasswordIfNeeded password = password <-> allChars uriUnreserved password = true)
  /\ (allChars uriUnreserved password = false ->
      String.length password < String.length (_encodePasswordIfNeeded password))%nat.
Proof.
  unfold _encodePasswordIfNeeded. split; [split |].
  - intros Heq. destruct (allChars uriUnreserved password) eqn:Hall; [reflexivity |].
    pose proof (proj2 (encode_length password) Hall) as Hlt.
    rewrite Heq in Hlt. lia.
  - induction password as [| c s IH]; simpl; [reflexivity |].
    intros Hall. apply andb_prop in Hall as [Hc Hs].
    unfold encodeChar. rewrite Hc. simpl. now rewrite (IH Hs).
  - apply encode_length.
Qed.

(** ** The options of the transport helper *)

(** X3. [createHttpOptions] makes no request.  It throws exactly when
    [timeoutMs] is a finite number that is not positive or, failing that,
    when [retries] is a finite negative number.  Otherwise it returns
    options whose time limit is positive and whose number of retries is not
    negative: a finite number is taken as given, and anything else (a
    missing value, NaN, an infinity, or a string such as ["5000"]) is
    replaced by 30000 and by 0; a missing or empty [userAgent] becomes
    ["bullhorn-auth-client"]. *)
Theorem http_options_defaults (httpCfg : HttpCfg) (tr : list event) :
  (createHttpOptions httpCfg tr
     = (Throw (ExnError "timeoutMs must be a positive number" None), tr)
   <-> exists q, cfg_timeoutMs httpCfg = VNum (Fin q) /\ (q <= 0)%Q)
  /\ (createHttpOptions httpCfg tr
        = (Throw (ExnError "retries must be a non-negative number" None), tr)
      <-> ~ (exists q, cfg_timeoutMs httpCfg = VNum (Fin q) /\ (q <= 0)%Q)
          /\ exists q, cfg_retries httpCfg = VNum (Fin q) /\ (q < 0)%Q)
  /\ (forall httpOpts tr',
         createHttpOptions httpCfg tr = (Ret httpOpts, tr') ->
         tr' = tr
         /\ (0 < o_timeoutMs httpOpts)%Q
         /\ (0 <= o_retries httpOpts)%Q
         /\ (forall q, cfg_timeoutMs httpCfg = VNum (Fin q) -> o_timeoutMs httpOpts = q)
         /\ ((forall q, cfg_timeoutMs httpCfg <> VNum (Fin q)) ->
             o_timeoutMs httpOpts = 30000%Q)
         /\ (forall q, cfg_retries httpCfg = VNum (Fin q) -> o_retries httpOpts = q)
         /\ ((forall q, cfg_retries httpCfg <> VNum (Fin q)) -> o_retries httpOpts = 0%Q)
         /\ (truthyS (cfg_userAgent httpCfg) = false ->
             o_userAgent httpOpts = "bullhorn-auth-client")).
Proof.
  assert (Hfin : forall v d,
    (exists q, v = VNum (Fin q) /\ finiteOr v d = q)
    \/ ((forall q, v <> VNum (Fin q)) /\ finiteOr v d = d)).
  { intros v d. destruct v as [| | b | [| | | q] | s];
      try (right; split; [intros q0; discriminate | reflexivity]).
    left. exists q. split; reflexivity. }
  assert (Htime : Qle_bool (finiteOr (cfg_timeoutMs httpCfg) 30000) 0 = true
                  <-> exists q, cfg_timeoutMs httpCfg = VNum (Fin q) /\ (q <= 0)%Q).
  { destruct (Hfin (cfg_timeoutMs httpCfg) 30000%Q) as [(q & Hq & Hf) | (Hno & Hf)];
      rewrite Hf.
    - rewrite Qle_bool_iff. split.
      + intros Hle. eauto.
      + intros (q' & Hq' & Hle). rewrite Hq in Hq'. injection Hq' as <-. exact Hle.
    - split; [discriminate |]. intros (q & Hq & _). destruct (Hno q Hq). }
  assert (Hretr : Qlt_bool (finiteOr (cfg_retries httpCfg) 0) 0 = true
                  <-> exists q, cfg_retries httpCfg = VNum (Fin q) /\ (q < 0)%Q).
  { destruct (Hfin (cfg_retries httpCfg) 0%Q) as [(q & Hq & Hf) | (Hno & Hf)];
      rewrite Hf.
    - unfold Qlt_bool. rewrite negb_true_iff. split.
      + intros Hle. exists q. split; [exact Hq |].
        apply Qnot_le_lt. intros Hc. apply Qle_bool_iff in Hc. congruence.
      + intros (q' & Hq' & Hlt). rewrite Hq in Hq'. injection Hq' as <-.
        destruct (Qle_bool 0 q) eqn:E; [| reflexivity].
        apply Qle_bool_iff in E. exfalso. exact (Qlt_not_le _ _ Hlt E).
    - split; [discriminate |]. intros (q & Hq & _). destruct (Hno q Hq). }
  unfold createHttpOptions, newError, throw, ret.
  destruct (Qle_bool (finiteOr (cfg_timeoutMs httpCfg) 30000) 0) eqn:Et.
  - split; [| split].
    + split; [intros _; now apply Htime | reflexivity].
    + split; [discriminate |]. intros [Hno _]. destruct Hno. now apply Htime.
    + discriminate.
  - assert (Hnot : ~ exists q, cfg_timeoutMs httpCfg = VNum (Fin q) /\ (q <= 0)%Q).
    { intros Hc. apply Htime in Hc. discriminate. }
    destruct (Qlt_bool (finiteOr (cfg_retries httpCfg) 0) 0) eqn:Er.
    + split; [| split].
      * split; [discriminate | intros Hc; destruct (Hnot Hc)].
      * split; [intros _; split; [exact Hnot | now apply Hretr] | reflexivity].
      * discriminate.
    + split; [| split].
      * split; [discriminate | intros Hc; destruct (Hnot Hc)].
      * split; [discriminate |]. intros [_ Hc]. apply Hretr in Hc. discriminate.
      * intros httpOpts tr' [= <- <-]. cbn.
        split; [reflexivity |].
        split; [apply Qnot_le_lt; intros Hc; apply Qle_bool_iff in Hc; congruence |].
        split; [apply Qle_bool_iff; now apply Qlt_bool_false_le |].
        split; [intros q ->; reflexivity |].
        split.
        { intros Hno. destruct (Hfin (cfg_timeoutMs httpCfg) 30000%Q)
            as [(q & Hq & _) | (_ & Hf)]; [destruct (Hno q Hq) | exact Hf]. }
        split; [intros q ->; reflexivity |].
        split.
        { intros Hno. destruct (Hfin (cfg_retries httpCfg) 0%Q)
            as [(q & Hq & _) | (_ & Hf)]; [destruct (Hno q Hq) | exact Hf]. }
        intros ->. reflexivity.
Qed.

(** ** The transport helper *)

Section MoreRetryFacts.
Variable fetch : Transport.
Variables (urlStr : string) (init : RequestInit) (httpOpts : HttpOptions).
Hypothesis retries_ok : Qle_bool 0 (o_retries httpOpts) = true.

Local Abbreviation theFetch := (EvFetch urlStr init (o_timeoutMs httpOpts)).

Lemma requestWithRetry_first_answer tr res :
  fetch (tr ++ [theFetch]) = Resolved res ->
  retryable res = false ->
  requestWithRetry fetch urlStr init httpOpts tr = (Ret res, tr ++ [theFetch]).
Proof.
  intros Hf Hnr. unfold requestWithRetry, retryFuel. cbn [retryLoop].
  change (inject_Z 0) with 0%Q. rewrite retries_ok.
  unfold bind. now rewrite (retryTurn_ok _ _ _ _ _ _ res Hf Hnr).
Qed.

(** X4. A first answer whose status is neither 429 nor 500 or above is
    returned at once, whatever the status (a 401 or a 404 is a response,
    not a failure): one request, no wait, no observer call.  And the helper
    never returns a response with status 429 or with a status of 500 or
    above. *)
Theorem only_429_and_5xx_are_failures (tr : list event) :
  (forall res,
      fetch (tr ++ [theFetch]) = Resolved res ->
      status res <> 429 ->
      status res < 500 ->
      requestWithRetry fetch urlStr init httpOpts tr = (Ret res, tr ++ [theFetch]))
  /\ (forall res tr',
         requestWithRetry fetch urlStr init httpOpts tr = (Ret res, tr') ->
         status res <> 429 /\ status res < 500).
Proof.
  split.
  - intros res Hf H429 H500. apply requestWithRetry_first_answer; [exact Hf |].
    unfold retryable. apply orb_false_iff. split; [apply Z.leb_gt | apply Z.eqb_neq]; lia.
  - intros res tr' Hrun.
    destruct (requestWithRetry_post fetch urlStr init httpOpts tr retries_ok)
      as (o & d & Hrun' & [(res' & -> & Hnr) | (m & r & ->)] & _);
      rewrite Hrun in Hrun'; [| discriminate].
    injection Hrun' as -> _.
    unfold retryable in Hnr. apply orb_false_iff in Hnr as [H5 H4].
    apply Z.leb_gt in H5. apply Z.eqb_neq in H4. lia.
Qed.

Lemma sleepTotal_app t1 t2 : sleepTotal (t1 ++ t2) = sleepTotal t1 + sleepTotal t2.
Proof.
  induction t1 as [| e t1 IH]; simpl; [reflexivity |].
  destruct e; rewrite IH; lia.
Qed.

Lemma sleeps_app t1 t2 : sleeps (t1 ++ t2) = (sleeps t1 + sleeps t2)%nat.
Proof.
  induction t1 as [| e t1 IH]; simpl; [reflexivity |].
  destruct e; rewrite IH; lia.
Qed.

Lemma observerEvents_no_sleep obs a err :
  sleepTotal (observerEvents obs a err) = 0 /\ sleeps (observerEvents obs a err) = O.
Proof. destruct obs, err; split; reflexivity. Qed.

Lemma backoffMs_range a : 1 <= a -> 1000 <= backoffMs a <= 4000.
Proof.
  intros Ha. rewrite (backoffMs_values a Ha).
  destruct (a =? 1); [lia |]. destruct (a =? 2); lia.
Qed.

(** The shape of what the loop adds to the trace. *)
Lemma retryLoop_shape fuel a last tr :
  0 <= a <= Qfloor (o_retries httpOpts) ->
  (Z.to_nat (Qfloor (o_retries httpOpts) - a) < fuel)%nat ->
  exists o d,
    retryLoop fetch fuel urlStr init httpOpts a last tr = (o, tr ++ d ++ [theFetch])
    /\ Z.of_nat (fetches d) <= Qfloor (o_retries httpOpts) - a
    /\ sleeps d = fetches d
    /\ 1000 * Z.of_nat (sleeps d) <= sleepTotal d <= 4000 * Z.of_nat (sleeps d).
Proof.
  revert a last tr.
  induction fuel as [| fuel IH]; intros a last tr Ha Hfuel; [lia |].
  simpl.
  assert (Hguard : Qle_bool (inject_Z a) (o_retries httpOpts) = true)
    by (apply Qle_bool_inject_floor; lia).
  rewrite Hguard. unfold bind.
  destruct (failureOf (fetch (tr ++ [theFetch]))) as [err |] eqn:Hf.
  - rewrite (retryTurn_fail _ _ _ _ _ _ _ Hf).
    destruct (Qlt_bool (o_retries httpOpts) (inject_Z (a + 1))) eqn:Hlt.
    + exists (Throw err), []. unfold throw. simpl. repeat split; lia.
    + assert (Hnext : a + 1 <= Qfloor (o_retries httpOpts)).
      { destruct (Z_lt_le_dec (Qfloor (o_retries httpOpts)) (a + 1)) as [Hc | Hc];
          [| exact Hc].
        apply Qlt_bool_floor_inject in Hc. congruence. }
      destruct (IH (a + 1) err
                   ((tr ++ [theFetch])
                      ++ observerEvents (o_onRetryAttempt httpOpts) (a + 1) err
                      ++ [EvSleep (backoffMs (a + 1))]))
        as (o & d & Hrun & Hcount & Hsl & Htot); [lia | lia |].
      exists o,
        (theFetch :: observerEvents (o_onRetryAttempt httpOpts) (a + 1) err
           ++ EvSleep (backoffMs (a + 1)) :: d).
      split.
      { rewrite Hrun. f_equal. rewrite <- !app_assoc. simpl.
        now rewrite <- !app_assoc. }
      destruct (observerEvents_no_sleep (o_onRetryAttempt httpOpts) (a + 1) err)
        as [Hos Hon].
      pose proof (backoffMs_range (a + 1) ltac:(lia)) as Hb.
      cbn [fetches sleeps sleepTotal isFetch].
      rewrite fetches_app, sleeps_app, sleepTotal_app, observerEvents_no_fetch, Hos, Hon.
      cbn [fetches sleeps sleepTotal isFetch].
      repeat split; lia.
  - destruct (failureOf_None _ Hf) as (res & Hres & Hnr).
    rewrite (retryTurn_ok _ _ _ _ _ _ _ Hres Hnr).
    exists (Ret res), []. unfold ret. simpl. repeat split; lia.
Qed.

(** X5. What the transport helper adds to the trace ends with a request:
    nothing is waited for, and the observer is not called, after the last
    attempt.  There is one wait less than there are requests; the waits
    together take at least 1000 and at most 4000 milliseconds times their
    number, and at most [4000 * floor retries] milliseconds. *)
Theorem waits_only_between_attempts (tr : list event) :
  exists o d,
    requestWithRetry fetch urlStr init httpOpts tr = (o, tr ++ d ++ [theFetch])
    /\ fetches (d ++ [theFetch]) = S (sleeps (d ++ [theFetch]))
    /\ 1000 * Z.of_nat (sleeps d) <= sleepTotal (d ++ [theFetch])
    /\ sleepTotal (d ++ [theFetch]) <= 4000 * Z.of_nat (sleeps d)
    /\ sleepTotal (d ++ [theFetch]) <= 4000 * Qfloor (o_retries httpOpts).
Proof.
  assert (H0 : 0 <= Qfloor (o_retries httpOpts))
    by (apply (Qle_bool_inject_floor 0); exact retries_ok).
  unfold requestWithRetry, retryFuel.
  destruct (retryLoop_shape (S (Z.to_nat (Qfloor (o_retries httpOpts)))) 0 ExnUndefined tr)
    as (o & d & Hrun & Hcount & Hsl & Htot); [lia | rewrite Z.sub_0_r; lia |].
  exists o, d. split; [exact Hrun |].
  rewrite fetches_app, sleeps_app, sleepTotal_app. simpl.
  repeat split; lia.
Qed.
End MoreRetryFacts.

(** ** How much a call can cost *)

Section CostFacts.
Context {P : Platform}.
Variable fetch : Transport.
Variable process_env : gmap string string.
Variable httpOpts : HttpOptions.
Hypothesis retries_ok : Qle_bool 0 (o_retries httpOpts) = true.

Lemma floor_retries_nonneg : 0 <= Qfloor (o_retries httpOpts).
Proof. apply (Qle_bool_inject_floor 0). exact retries_ok. Qed.

Lemma bounded_quiet {A} (m : M A) : quiet m -> bounded httpOpts 0 m.
Proof.
  intros Hq tr. destruct (Hq tr) as [Ht Hs].
  destruct (m tr) as [o t] eqn:Hm. simpl in *. subst t.
  exists o, []. rewrite app_nil_r. simpl. repeat split; [exact Hs | lia | lia].
Qed.

Lemma bounded_weaken {A} (m : M A) a b :
  (a <= b)%nat -> bounded httpOpts a m -> bounded httpOpts b m.
Proof.
  intros Hab Hm tr. destruct (Hm tr) as (o & d & Hrun & Hs & Hf & Hw).
  exists o, d. pose proof floor_retries_nonneg.
  repeat split; [exact Hrun | exact Hs | nia | nia].
Qed.

Lemma bounded_bind {A B} (m : M A) (k : A -> M B) a b :
  bounded httpOpts a m -> (forall x, bounded httpOpts b (k x)) ->
  bounded httpOpts (a + b) (bind m k).
Proof.
  intros Hm Hk tr. destruct (Hm tr) as (o & d & Hrun & Hs & Hf & Hw).
  unfold bind. rewrite Hrun. pose proof floor_retries_nonneg.
  destruct o as [x | [| msg r] |]; try contradiction.
  - destruct (Hk x (tr ++ d)) as (o' & d' & Hrun' & Hs' & Hf' & Hw').
    exists o', (d ++ d'). rewrite Hrun', app_assoc, fetches_app, sleepTotal_app.
    repeat split; [exact Hs' | nia | nia].
  - exists (Throw (ExnError msg r)), d. repeat split; [nia | nia].
Qed.

Lemma bounded_tryCatch {A} (m : M A) (h : exn -> M A) a :
  bounded httpOpts a m -> (forall msg r, quiet (h (ExnError msg r))) ->
  bounded httpOpts a (tryCatch m h).
Proof.
  intros Hm Hh tr. destruct (Hm tr) as (o & d & Hrun & Hs & Hf & Hw).
  unfold tryCatch. rewrite Hrun.
  destruct o as [x | [| msg r] |]; try contradiction.
  - exists (Ret x), d. auto.
  - destruct (Hh msg r (tr ++ d)) as [Ht Hs'].
    destruct (h (ExnError msg r) (tr ++ d)) as [o' t'] eqn:Hhr. simpl in *. subst t'.
    exists o', d. auto.
Qed.

Lemma bounded_ext {A} (m m' : M A) a :
  (forall tr, m tr = m' tr) -> bounded httpOpts a m -> bounded httpOpts a m'.
Proof. intros He Hm tr. rewrite <- He. apply Hm. Qed.

Lemma bounded_request urlStr init :
  bounded httpOpts 1 (requestWithRetry fetch urlStr init httpOpts).
Proof.
  intros tr.
  destruct (waits_only_between_attempts fetch urlStr init httpOpts retries_ok tr)
    as (o & d & Hrun & Hn & _ & _ & Hw).
  destruct (requestWithRetry_post fetch urlStr init httpOpts tr retries_ok)
    as (o' & d' & Hrun' & Hres & Hcount & _).
  rewrite Hrun in Hrun'. injection Hrun' as Ho Hd. subst o'.
  apply app_inv_head in Hd.
  exists o, (d ++ [EvFetch urlStr init (o_timeoutMs httpOpts)]).
  split; [exact Hrun |]. split.
  { destruct Hres as [(res & -> & _) | (m & r & ->)]; exact I. }
  pose proof floor_retries_nonneg. rewrite Hd. unfold retryFuel.
  split; [simpl; lia | rewrite <- Hd; lia].
Qed.

Lemma bounded_request_then {A} (k : Response -> M A) urlStr init :
  (forall res, quiet (k res)) ->
  bounded httpOpts 1 (bind (requestWithRetry fetch urlStr init httpOpts) k).
Proof.
  intros Hk. apply (bounded_bind _ _ 1 0); [apply bounded_request |].
  intros res. now apply bounded_quiet.
Qed.

Ltac quiet_steps :=
  intros; repeat (apply quiet_bind; [auto with quiet | intros ?]); auto with quiet.

Lemma bounded_loginInfo user : bounded httpOpts 1 (loginInfo fetch httpOpts user).
Proof.
  unfold loginInfo. destruct (negb (truthyS user)).
  - apply (bounded_weaken _ 0); [lia | apply bounded_quiet; auto with quiet].
  - apply bounded_request_then. quiet_steps.
Qed.

Lemma bounded_step3 restUrl accessToken ttl :
  bounded httpOpts 1 (step3 fetch process_env httpOpts restUrl accessToken ttl).
Proof. unfold step3. apply bounded_request_then. quiet_steps. Qed.

Lemma bounded_step2 oauthUrl cid secret code :
  bounded httpOpts 1 (step2 fetch httpOpts oauthUrl cid secret code).
Proof. unfold step2. apply bounded_request_then. quiet_steps. Qed.

Lemma quiet_parsedQuery location : quiet (parsedQuery location).
Proof.
  unfold parsedQuery. destruct location as [l |]; [| auto with quiet].
  destruct (url_parse_query l); auto with quiet.
Qed.

Lemma bounded_step1 oauthUrl cid user pw :
  bounded httpOpts 1 (step1 fetch httpOpts oauthUrl cid user pw).
Proof.
  unfold step1. apply bounded_request_then. intros res.
  apply quiet_bind; [apply quiet_parsedQuery | intros ?; auto with quiet].
Qed.

Lemma quiet_failure_handler {A} (mk : option Z -> string -> option string -> A) msg r :
  quiet (bind (exnMessage (ExnError msg r))
              (fun m => ret (mk (exnStatus (ExnError msg r)) m
                                (exnStatusText (ExnError msg r))))).
Proof. apply quiet_bind; [simpl; auto with quiet | intros ?; auto with quiet]. Qed.

Lemma bounded_step0 oauthUrl refreshTok cid secret :
  bounded httpOpts 1 (step0 fetch httpOpts oauthUrl refreshTok cid secret).
Proof.
  unfold step0. apply bounded_tryCatch.
  - apply bounded_request_then. quiet_steps.
  - intros msg r. apply (quiet_failure_handler Step0Fail).
Qed.

Lemma bounded_ping restUrl restToken :
  bounded httpOpts 1 (ping fetch httpOpts restUrl restToken).
Proof.
  unfold ping. apply bounded_tryCatch.
  - apply bounded_request_then. quiet_steps.
  - intros msg r. apply (quiet_failure_handler PingFail).
Qed.

Lemma bounded_tryExisting threshold tokens :
  bounded httpOpts 1 (tryExisting fetch httpOpts threshold tokens).
Proof.
  unfold tryExisting. destruct (truthyS (restToken tokens) && truthyS (restUrl tokens)).
  - apply (bounded_bind _ _ 1 0); [apply bounded_ping |].
    intros [mr raw | st msg stt]; [| apply bounded_quiet; auto with quiet].
    destruct (num_isFinite _ && num_gt _ _); apply bounded_quiet; auto with quiet.
  - apply (bounded_weaken _ 0); [lia | apply bounded_quiet; auto with quiet].
Qed.

Lemma bounded_fullLogin ttl creds :
  bounded httpOpts 4 (fullLogin fetch process_env httpOpts ttl creds).
Proof.
  unfold fullLogin. destruct (_ || _ || _ || _).
  - apply (bounded_weaken _ 0); [lia | apply bounded_quiet; auto with quiet].
  - apply (bounded_bind _ _ 1 3); [apply bounded_loginInfo | intros info].
    apply (bounded_bind _ _ 1 2); [apply bounded_step1 | intros s1].
    apply (bounded_bind _ _ 1 1); [apply bounded_step2 | intros s2].
    apply (bounded_bind _ _ 1 0); [apply bounded_step3 | intros s3].
    apply bounded_quiet; auto with quiet.
Qed.

(** The access-token block ends at its end only when no access token is
    given, and then it has done nothing. *)
Lemma bounded_fromAccess ttl tokens creds :
  bounded httpOpts 4 (fromAccess fetch process_env httpOpts ttl tokens creds).
Proof.
  unfold fromAccess, tryAccess. destruct (truthyS (accessToken tokens)).
  - apply (bounded_weaken _ 2); [lia |].
    eapply bounded_ext; [intros tr; symmetry; apply bind_assoc |].
    apply (bounded_bind _ _ 1 1).
    + destruct (negb _ && truthyS _).
      * apply (bounded_bind _ _ 1 0); [apply bounded_loginInfo |].
        intros info. apply bounded_quiet; auto with quiet.
      * apply (bounded_weaken _ 0); [lia | apply bounded_quiet; auto with quiet].
    + intros restUrl. destruct (negb (truthy restUrl)).
      * apply (bounded_weaken _ 0); [lia |].
        eapply bounded_ext
          with (m := @newError AuthResult
                  "accessToken provided but restUrl (or credentials.username to derive it) is missing");
          [reflexivity | apply bounded_quiet; auto with quiet].
      * eapply bounded_ext; [intros tr; symmetry; apply bind_assoc |].
        apply (bounded_bind _ _ 1 0); [apply bounded_step3 | intros s3].
        apply bounded_quiet. intros t. split; [reflexivity | exact I].
  - eapply bounded_ext with (m := fullLogin fetch process_env httpOpts ttl creds);
      [reflexivity | apply bounded_fullLogin].
Qed.

(** The refresh block is left at its end either untouched or after the two
    requests of a failed exchange. *)
Lemma bounded_fromRefresh ttl tokens creds :
  bounded httpOpts 6 (fromRefresh fetch process_env httpOpts ttl tokens creds).
Proof.
  unfold fromRefresh, tryRefresh. destruct (_ && _ && _ && _).
  - eapply bounded_ext; [intros tr; symmetry; apply bind_assoc |].
    apply (bounded_bind _ _ 1 5); [apply bounded_loginInfo | intros info].
    eapply bounded_ext; [intros tr; symmetry; apply bind_assoc |].
    apply (bounded_bind _ _ 1 4); [apply bounded_step0 | intros r0].
    destruct r0 as [newAccess newRefresh raw | st msg stt].
    + apply (bounded_weaken _ 1); [lia |].
      eapply bounded_ext; [intros tr; symmetry; apply bind_assoc |].
      apply (bounded_bind _ _ 1 0); [apply bounded_step3 | intros s3].
      apply bounded_quiet. intros t. split; [reflexivity | exact I].
    + eapply bounded_ext
        with (m := fromAccess fetch process_env httpOpts ttl tokens creds);
        [reflexivity | apply bounded_fromAccess].
  - apply (bounded_weaken _ 4); [lia |].
    eapply bounded_ext
      with (m := fromAccess fetch process_env httpOpts ttl tokens creds);
      [reflexivity | apply bounded_fromAccess].
Qed.
End CostFacts.

Section CallFacts.
Context {P : Platform}.
Variable fetch : Transport.
Variable process_env : gmap string string.

Lemma validateConfig_settled config tr :
  settled (fst (validateConfig process_env config tr)).
Proof.
  unfold validateConfig, bind, createHttpOptions, newError, throw, ret.
  repeat match goal with
         | |- context [if ?c then _ else _] => destruct c
         end; exact I.
Qed.

(** X6. Every call of [loginToBullhorn] ends, with a result or with a
    thrown error object, and only adds to what happened before.  A call
    whose configuration is refused makes no request.  Otherwise the call
    uses the transport helper at most seven times (the ping, the two
    requests of a failed refresh, the four requests of the full login), so
    it makes at most [7 * (floor retries + 1)] requests and waits at most
    [7 * 4000 * floor retries] milliseconds between attempts. *)
Theorem call_is_bounded (params : Params) (config : AuthConfig) (tr : list event) :
  exists o d,
    loginToBullhorn fetch process_env params config tr = (o, tr ++ d)
    /\ settled o
    /\ (forall httpOpts threshold ttl,
           validateConfig process_env config tr = (Ret (httpOpts, threshold, ttl), tr) ->
           Z.of_nat (fetches d) <= 7 * (Qfloor (o_retries httpOpts) + 1)
           /\ sleepTotal d <= 7 * (4000 * Qfloor (o_retries httpOpts)))
    /\ ((forall cfg, validateConfig process_env config tr <> (Ret cfg, tr)) -> d = []).
Proof.
  destruct params as [v | creds tokens].
  - exists (Throw (ExnError "params must be an object with credentials and/or tokens" None)), [].
    rewrite app_nil_r. split; [reflexivity |]. split; [exact I |].
    split; [| reflexivity].
    intros opts th ttl Hv.
    destruct (validateConfig_ok _ _ _ _ _ _ _ Hv) as (_ & _ & Hpos & _).
    pose proof (floor_retries_nonneg opts Hpos). simpl. lia.
  - destruct (validateConfig_cases process_env config tr)
      as [[[[opts th] ttl] Hv] | [e Hv]].
    + destruct (validateConfig_ok _ _ _ _ _ _ _ Hv) as (_ & _ & Hpos & _).
      assert (Hb : bounded opts 7
                (bind (tryExisting fetch opts th (default noTokens tokens))
                      (fun r1 => match r1 with
                                 | Some r => ret r
                                 | None => fromRefresh fetch process_env opts ttl
                                             (default noTokens tokens) creds
                                 end))).
      { apply (bounded_bind _ Hpos _ _ 1 6); [now apply bounded_tryExisting |].
        intros [r |].
        - apply (bounded_weaken _ Hpos _ 0); [lia |].
          apply bounded_quiet. auto with quiet.
        - now apply bounded_fromRefresh. }
      destruct (Hb tr) as (o & d & Hrun & Hs & Hf & Hw).
      exists o, d. split.
      { unfold loginToBullhorn. rewrite (bind_ret _ _ _ _ _ Hv). exact Hrun. }
      split; [exact Hs |]. split.
      * intros opts' th' ttl' Hv'. rewrite Hv in Hv'. injection Hv' as <- _ _.
        unfold retryFuel in Hf. pose proof (floor_retries_nonneg opts Hpos). lia.
      * intros Hno. destruct (Hno _ Hv).
    + exists (Throw e), []. rewrite app_nil_r. split.
      { unfold loginToBullhorn. now rewrite (bind_throw _ _ _ _ _ Hv). }
      split.
      { pose proof (validateConfig_settled config tr) as Hs. now rewrite Hv in Hs. }
      split; [| reflexivity].
      intros opts th ttl Hv'. rewrite Hv in Hv'. discriminate.
Qed.

(** ** What a result says about the call *)

Lemma tryExisting_returns httpOpts threshold tokens tr r tr' :
  tryExisting fetch httpOpts threshold tokens tr = (Ret (Some r), tr') ->
  truthyS (restUrl tokens) = true
  /\ truthyS (restToken tokens) = true
  /\ r_method r = existing
  /\ r_restUrl r = ofOpt (restUrl tokens)
  /\ r_restToken r = ofOpt (restToken tokens)
  /\ r_refreshToken r = ofOpt (refreshToken tokens)
  /\ r_accessToken r = ofOpt (accessToken tokens)
  /\ exists h, r_minRemaining r = Some h.
Proof.
  unfold tryExisting.
  destruct (truthyS (restToken tokens)) eqn:Ht; [| discriminate].
  destruct (truthyS (restUrl tokens)) eqn:Hu; [| discriminate].
  cbn [andb]. unfold bind.
  destruct (ping _ _ _ _ tr) as [[[mr raw | st msg stt] | e |] t]; try discriminate.
  destruct (num_isFinite _ && num_gt _ _); [| discriminate].
  intros [= <- <-]. cbn. repeat split; eauto.
Qed.

Lemma tryRefresh_returns httpOpts ttl tokens creds tr r tr' :
  tryRefresh fetch process_env httpOpts ttl tokens creds tr = (Ret (Some r), tr') ->
  truthyS (refreshToken tokens) = true
  /\ truthyS (credField clientId creds) = true
  /\ truthyS (credField clientSecret creds) = true
  /\ truthyS (credField username creds) = true
  /\ r_method r = refresh
  /\ r_minRemaining r = None.
Proof.
  unfold tryRefresh.
  destruct (truthyS (refreshToken tokens)); [| discriminate].
  destruct (truthyS (credField clientId creds)); [| discriminate].
  destruct (truthyS (credField clientSecret creds)); [| discriminate].
  destruct (truthyS (credField username creds)); [| discriminate].
  cbn [andb]. unfold bind.
  destruct (loginInfo _ _ _ tr) as [[info | e |] t1]; try discriminate.
  destruct (step0 _ _ _ _ _ _ t1) as [[[a rt raw | st msg stt] | e |] t2]; try discriminate.
  destruct (step3 _ _ _ _ _ _ t2) as [[s3 | e |] t3]; try discriminate.
  intros [= <- <-]. cbn. repeat split.
Qed.

Lemma tryAccess_returns httpOpts ttl tokens creds tr o tr' :
  tryAccess fetch process_env httpOpts ttl tokens creds tr = (Ret o, tr') ->
  match o with
  | Some r =>
      truthyS (accessToken tokens) = true
      /\ r_method r = access
      /\ r_accessToken r = ofOpt (accessToken tokens)
      /\ r_refreshToken r = ofOpt (refreshToken tokens)
      /\ r_minRemaining r = None
  | None => truthyS (accessToken tokens) = false /\ tr' = tr
  end.
Proof.
  unfold tryAccess.
  destruct (truthyS (accessToken tokens)); [| intros [= <- <-]; split; reflexivity].
  unfold bind, ret, newError, throw.
  destruct (negb (truthy (ofOpt (restUrl tokens))) && truthyS (credField username creds)).
  - destruct (loginInfo _ _ _ tr) as [[info | e |] t0]; try discriminate.
    destruct (negb (truthy (li_restUrl info))); [discriminate |].
    destruct (step3 _ _ _ _ _ _ t0) as [[s3 | e |] t1]; try discriminate.
    intros [= <- <-]. cbn. repeat split.
  - destruct (negb (truthy (ofOpt (restUrl tokens)))); [discriminate |].
    destruct (step3 _ _ _ _ _ _ tr) as [[s3 | e |] t1]; try discriminate.
    intros [= <- <-]. cbn. repeat split.
Qed.

Lemma fullLogin_returns httpOpts ttl creds tr r tr' :
  fullLogin fetch process_env httpOpts ttl creds tr = (Ret r, tr') ->
  truthyS (credField clientId creds) = true
  /\ truthyS (credField clientSecret creds) = true
  /\ truthyS (credField username creds) = true
  /\ truthyS (credField password creds) = true
  /\ r_method r = full
  /\ r_minRemaining r = None.
Proof.
  unfold fullLogin.
  destruct (truthyS (credField clientId creds)); [| discriminate].
  destruct (truthyS (credField clientSecret creds)); [| discriminate].
  destruct (truthyS (credField username creds)); [| discriminate].
  destruct (truthyS (credField password creds)); [| discriminate].
  cbn [negb orb]. unfold bind.
  destruct (loginInfo _ _ _ tr) as [[info | e |] t1]; try discriminate.
  destruct (step1 _ _ _ _ _ _ t1) as [[s1 | e |] t2]; try discriminate.
  destruct (step2 _ _ _ _ _ _ t2) as [[s2 | e |] t3]; try discriminate.
  destruct (step3 _ _ _ _ _ _ t3) as [[s3 | e |] t4]; try discriminate.
  intros [= <- <-]. cbn. repeat split.
Qed.

(** X7. The method of a result tells which inputs the caller gave.
    [existing]: a REST URL and a REST token, both not empty, and they are
    the ones returned, with the caller's other tokens and the quota header.
    [refresh]: a refresh token, a client id, a client secret and a username.
    [access]: an access token, returned as it is with the caller's refresh
    token.  [full]: all four credentials and no access token.  Only an
    [existing] result carries [minRemaining].  A [params] that is not an
    object never gives a result. *)
Theorem method_reflects_input
        (params : Params) (config : AuthConfig) (tr tr' : list event) (r : AuthResult) :
  loginToBullhorn fetch process_env params config tr = (Ret r, tr') ->
  exists creds tokens,
    params = ParamsObject creds tokens
    /\ let tk := default noTokens tokens in
       match r_method r with
       | existing =>
           truthyS (restUrl tk) = true /\ truthyS (restToken tk) = true
           /\ r_restUrl r = ofOpt (restUrl tk) /\ r_restToken r = ofOpt (restToken tk)
           /\ r_refreshToken r = ofOpt (refreshToken tk)
           /\ r_accessToken r = ofOpt (accessToken tk)
           /\ exists h, r_minRemaining r = Some h
       | refresh =>
           truthyS (refreshToken tk) = true
           /\ truthyS (credField clientId creds) = true
           /\ truthyS (credField clientSecret creds) = true
           /\ truthyS (credField username creds) = true
           /\ r_minRemaining r = None
       | access =>
           truthyS (accessToken tk) = true
           /\ r_accessToken r = ofOpt (accessToken tk)
           /\ r_refreshToken r = ofOpt (refreshToken tk)
           /\ r_minRemaining r = None
       | full =>
           truthyS (accessToken tk) = false
           /\ truthyS (credField clientId creds) = true
           /\ truthyS (credField clientSecret creds) = true
           /\ truthyS (credField username creds) = true
           /\ truthyS (credField password creds) = true
           /\ r_minRemaining r = None
       end.
Proof.
  destruct params as [v | creds tokens]; [discriminate |].
  intros Hrun. exists creds, tokens. split; [reflexivity |]. cbn zeta.
  revert Hrun. unfold loginToBullhorn, bind.
  destruct (validateConfig process_env config tr) as [[[[opts th] ttl] | e |] t0];
    try discriminate.
  destruct (tryExisting fetch opts th (default noTokens tokens) t0)
    as [[[r1 |] | e |] t1] eqn:He; try discriminate.
  { intros [= <- <-].
    destruct (tryExisting_returns _ _ _ _ _ _ He) as (? & ? & -> & ? & ? & ? & ? & ?).
    repeat split; assumption. }
  unfold fromRefresh, bind.
  destruct (tryRefresh fetch process_env opts ttl (default noTokens tokens) creds t1)
    as [[[r2 |] | e |] t2] eqn:Hr; try discriminate.
  { intros [= <- <-].
    destruct (tryRefresh_returns _ _ _ _ _ _ _ Hr) as (? & ? & ? & ? & -> & ?).
    repeat split; assumption. }
  unfold fromAccess, bind.
  destruct (tryAccess fetch process_env opts ttl (default noTokens tokens) creds t2)
    as [[[r3 |] | e |] t3] eqn:Ha; try discriminate.
  { intros [= <- <-].
    destruct (tryAccess_returns _ _ _ _ _ _ _ Ha) as (? & -> & ? & ? & ?).
    repeat split; assumption. }
  destruct (tryAccess_returns _ _ _ _ _ _ _ Ha) as [Hno _].
  intros Hf.
  destruct (fullLogin_returns _ _ _ _ _ _ Hf) as (? & ? & ? & ? & -> & ?).
  repeat split; assumption.
Qed.

(** ** The full login *)

(** The call, when no token of the caller is usable. *)
Lemma login_without_tokens creds tokens config httpOpts threshold ttl tr :
  validateConfig process_env config tr = (Ret (httpOpts, threshold, ttl), tr) ->
  truthyS (restToken (default noTokens tokens)) = false ->
  truthyS (refreshToken (default noTokens tokens)) = false ->
  truthyS (accessToken (default noTokens tokens)) = false ->
  loginToBullhorn fetch process_env (ParamsObject creds tokens) config tr
  = fullLogin fetch process_env httpOpts ttl creds tr.
Proof.
  intros Hv Hrt Hrf Hat.
  rewrite (login_after_validation _ _ _ _ _ _ _ _ _ Hv).
  unfold tryExisting. rewrite Hrt. cbn [andb]. unfold ret.
  unfold fromRefresh, tryRefresh. rewrite Hrf. cbn [andb].
  unfold bind at 1. unfold ret at 1.
  unfold fromAccess, tryAccess. rewrite Hat. reflexivity.
Qed.

Lemma step1_run httpOpts oauthUrl cid user pw tr :
  Qle_bool 0 (o_retries httpOpts) = true ->
  exists o tr',
    step1 fetch httpOpts oauthUrl cid user pw tr = (o, tr')
    /\ settled o
    /\ startsWith (EvFetch (step1Url oauthUrl cid user pw) step1Init
                           (o_timeoutMs httpOpts)) tr tr'.
Proof.
  intros Hpos. unfold step1. apply (request_then fetch httpOpts Hpos). intros res.
  apply quiet_bind; [apply quiet_parsedQuery | intros ?; auto with quiet].
Qed.

(** X8. When the caller gives no REST token, no refresh token and no access
    token, the call is the full login.  If one of the four credentials is
    missing or empty it throws the "Insufficient input" error without a
    request.  Otherwise it runs [loginInfo], [step1], [step2] and [step3]
    in this order, each starting with its own request: the OAuth URL of
    [loginInfo] goes to [step1] and [step2], the code of [step1] to
    [step2], the access token of [step2] and the REST URL of [loginInfo] to
    [step3]; the result has method [full], the two tokens of [step2] and
    the session of [step3].  The first step that throws ends the call with
    its error. *)
Theorem full_login_path
        (creds : option BullhornCredentials) (tokens : option TokenInput)
        (config : AuthConfig) (httpOpts : HttpOptions) (threshold ttl : jsnum)
        (tr : list event) :
  validateConfig process_env config tr = (Ret (httpOpts, threshold, ttl), tr) ->
  truthyS (restToken (default noTokens tokens)) = false ->
  truthyS (refreshToken (default noTokens tokens)) = false ->
  truthyS (accessToken (default noTokens tokens)) = false ->
  let call := loginToBullhorn fetch process_env (ParamsObject creds tokens) config tr in
  let timeout := o_timeoutMs httpOpts in
  let cid := ofOpt (credField clientId creds) in
  let secret := ofOpt (credField clientSecret creds) in
  let user := ofOpt (credField username creds) in
  let pw := ofOpt (credField password creds) in
  (truthyS (credField clientId creds) && truthyS (credField clientSecret creds)
   && truthyS (credField username creds) && truthyS (credField password creds) = false ->
   call = (Throw (ExnError insufficientInput None), tr))
  /\ (truthyS (credField clientId creds) && truthyS (credField clientSecret creds)
      && truthyS (credField username creds) && truthyS (credField password creds) = true ->
      exists o1 t1,
        loginInfo fetch httpOpts (credField username creds) tr = (o1, t1)
        /\ startsWith (EvFetch (loginInfoUrl (default "" (credField username creds)))
                               GET timeout) tr t1
        /\ match o1 with
           | Ret info =>
               exists o2 t2,
                 step1 fetch httpOpts (li_oauthUrl info) cid user pw t1 = (o2, t2)
                 /\ startsWith (EvFetch (step1Url (li_oauthUrl info) cid user pw)
                                        step1Init timeout) t1 t2
                 /\ match o2 with
                    | Ret s1 =>
                        exists o3 t3,
                          step2 fetch httpOpts (li_oauthUrl info) cid secret
                                (tmpAuthCode s1) t2 = (o3, t3)
                          /\ startsWith
                               (EvFetch (step2Url (li_oauthUrl info) cid secret
                                                  (tmpAuthCode s1)) POST timeout) t2 t3
                          /\ match o3 with
                             | Ret s2 =>
                                 exists o4 t4,
                                   step3 fetch process_env httpOpts (li_restUrl info)
                                         (s2_accessToken s2) ttl t3 = (o4, t4)
                                   /\ startsWith
                                        (EvFetch (step3Url process_env (li_restUrl info)
                                                           (s2_accessToken s2) ttl)
                                                 POST timeout) t3 t4
                                   /\ match o4 with
                                      | Ret s3 =>
                                          call = (Ret {| r_restUrl := s3_restUrl s3;
                                                         r_restToken := s3_restToken s3;
                                                         r_refreshToken := s2_refreshToken s2;
                                                         r_accessToken := s2_accessToken s2;
                                                         r_minRemaining := None;
                                                         r_method := full |}, t4)
                                      | Throw e => call = (Throw e, t4)
                                      | OutOfFuel => False
                                      end
                             | Throw e => call = (Throw e, t3)
                             | OutOfFuel => False
                             end
                    | Throw e => call = (Throw e, t2)
                    | OutOfFuel => False
                    end
           | Throw e => call = (Throw e, t1)
           | OutOfFuel => False
           end).
Proof.
  intros Hv Hrt Hrf Hat. cbn zeta.
  destruct (validateConfig_ok _ _ _ _ _ _ _ Hv) as (_ & _ & Hpos & _).
  rewrite (login_without_tokens _ _ _ _ _ _ _ Hv Hrt Hrf Hat).
  unfold fullLogin. rewrite <- !negb_andb.
  split.
  - intros ->. reflexivity.
  - intros Hall. rewrite Hall. cbn [negb].
    assert (Huser : truthyS (credField username creds) = true).
    { apply andb_prop in Hall as [Hall _]. now apply andb_prop in Hall as [_ Hu]. }
    destruct (loginInfo_run fetch httpOpts Hpos (credField username creds) tr Huser)
      as (o1 & t1 & H1 & Hs1 & Hst1).
    exists o1, t1. split; [exact H1 |]. split; [exact Hst1 |].
    destruct o1 as [info | e |];
      [| now rewrite (bind_throw _ _ _ _ _ H1) | contradiction].
    rewrite (bind_ret _ _ _ _ _ H1). cbv beta.
    destruct (step1_run httpOpts (li_oauthUrl info)
                (ofOpt (credField clientId creds)) (ofOpt (credField username creds))
                (ofOpt (credField password creds)) t1 Hpos)
      as (o2 & t2 & H2 & Hs2 & Hst2).
    exists o2, t2. split; [exact H2 |]. split; [exact Hst2 |].
    destruct o2 as [s1 | e |];
      [| now rewrite (bind_throw _ _ _ _ _ H2) | contradiction].
    rewrite (bind_ret _ _ _ _ _ H2). cbv beta.
    destruct (step2_run fetch httpOpts Hpos (li_oauthUrl info)
                (ofOpt (credField clientId creds)) (ofOpt (credField clientSecret creds))
                (tmpAuthCode s1) t2)
      as (o3 & t3 & H3 & Hs3 & Hst3).
    exists o3, t3. split; [exact H3 |]. split; [exact Hst3 |].
    destruct o3 as [s2 | e |];
      [| now rewrite (bind_throw _ _ _ _ _ H3) | contradiction].
    rewrite (bind_ret _ _ _ _ _ H3). cbv beta.
    destruct (step3_run fetch process_env httpOpts Hpos (li_restUrl info)
                (s2_accessToken s2) ttl t3)
      as (o4 & t4 & H4 & Hs4 & Hst4).
    exists o4, t4. split; [exact H4 |]. split; [exact Hst4 |].
    destruct o4 as [s3 | e |];
      [| now rewrite (bind_throw _ _ _ _ _ H4) | contradiction].
    now rewrite (bind_ret _ _ _ _ _ H4).
Qed.

(** ** Statuses below 500 are not looked at *)

Lemma not_retryable res : status res <> 429 -> status res < 500 -> retryable res = false.
Proof.
  intros H4 H5. unfold retryable. apply orb_false_iff.
  split; [apply Z.leb_gt | apply Z.eqb_neq]; lia.
Qed.

(** X9. [step3] does not look at the status of the answer.  For a first
    answer with any status below 500 other than 429 (a 401 as well as a
    200): if the body is a JSON object, [step3] returns its [restUrl] and
    [BhRestToken] fields, [undefined] for a field that is missing; if the
    body is [null] or is not JSON, it throws.  So a call on the
    access-token path whose token is refused with an error body still
    returns a result, with method [access] and no REST token. *)
Theorem rest_login_ignores_status
        (httpOpts : HttpOptions) (restUrl0 accessToken0 : jsval) (ttl : jsnum)
        (tr : list event) (res : Response) :
  Qle_bool 0 (o_retries httpOpts) = true ->
  fetch (tr ++ [EvFetch (step3Url process_env restUrl0 accessToken0 ttl) POST
                        (o_timeoutMs httpOpts)]) = Resolved res ->
  status res <> 429 ->
  status res < 500 ->
  let tr1 := tr ++ [EvFetch (step3Url process_env restUrl0 accessToken0 ttl) POST
                            (o_timeoutMs httpOpts)] in
  match body res with
  | BodyObject fields =>
      step3 fetch process_env httpOpts restUrl0 accessToken0 ttl tr
      = (Ret {| s3_restUrl := default VUndefined (fields !! "restUrl");
                s3_restToken := default VUndefined (fields !! "BhRestToken");
                s3_raw := basicLogFromResponse res |}, tr1)
      /\ (forall creds tokens config threshold,
             validateConfig process_env config tr = (Ret (httpOpts, threshold, ttl), tr) ->
             truthyS (restToken tokens) = false ->
             truthyS (refreshToken tokens) = false ->
             truthy restUrl0 = true ->
             truthy accessToken0 = true ->
             restUrl0 = ofOpt (restUrl tokens) ->
             accessToken0 = ofOpt (accessToken tokens) ->
             loginToBullhorn fetch process_env (ParamsObject creds (Some tokens)) config tr
             = (Ret {| r_restUrl := default VUndefined (fields !! "restUrl");
                       r_restToken := default VUndefined (fields !! "BhRestToken");
                       r_refreshToken := ofOpt (refreshToken tokens);
                       r_accessToken := ofOpt (accessToken tokens);
                       r_minRemaining := None;
                       r_method := access |}, tr1))
  | _ =>
      exists msg,
        step3 fetch process_env httpOpts restUrl0 accessToken0 ttl tr
        = (Throw (ExnError msg None), tr1)
  end.
Proof.
  intros Hpos Hf H4 H5. cbn zeta.
  pose proof (requestWithRetry_first_answer fetch _ _ httpOpts Hpos tr res Hf
                (not_retryable res H4 H5)) as Hrun.
  assert (Hstep : step3 fetch process_env httpOpts restUrl0 accessToken0 ttl tr
                  = bind (json res) (fun body =>
                      bind (prop body "restUrl") (fun restUrl =>
                      bind (prop body "BhRestToken") (fun BhRestToken =>
                      ret {| s3_restUrl := restUrl; s3_restToken := BhRestToken;
                             s3_raw := basicLogFromResponse res |})))
                      (tr ++ [EvFetch (step3Url process_env restUrl0 accessToken0 ttl) POST
                                      (o_timeoutMs httpOpts)])).
  { unfold step3. now rewrite (bind_ret _ _ _ _ _ Hrun). }
  unfold json in Hstep.
  destruct (body res) as [| | fields].
  - eexists. rewrite Hstep. reflexivity.
  - eexists. rewrite Hstep. reflexivity.
  - assert (Hs3 : step3 fetch process_env httpOpts restUrl0 accessToken0 ttl tr
                  = (Ret {| s3_restUrl := default VUndefined (fields !! "restUrl");
                            s3_restToken := default VUndefined (fields !! "BhRestToken");
                            s3_raw := basicLogFromResponse res |},
                     tr ++ [EvFetch (step3Url process_env restUrl0 accessToken0 ttl) POST
                                    (o_timeoutMs httpOpts)]))
      by (rewrite Hstep; reflexivity).
    split; [exact Hs3 |]. clear Hstep.
    intros creds tokens config threshold Hv Hrt Hrf Hu Ha -> ->.
    assert (He : tryExisting fetch httpOpts threshold tokens tr = (Ret None, tr))
      by (unfold tryExisting; rewrite Hrt; reflexivity).
    assert (Hr : tryRefresh fetch process_env httpOpts ttl tokens creds tr = (Ret None, tr))
      by (unfold tryRefresh; rewrite Hrf; reflexivity).
    rewrite (login_from_access fetch process_env creds tokens config httpOpts threshold
                               ttl tr tr tr Hv He Hr).
    unfold fromAccess, tryAccess.
    change (truthyS (accessToken tokens)) with (truthy (ofOpt (accessToken tokens))).
    rewrite Ha, Hu. cbn [negb andb].
    rewrite (bind_assoc_run (ret (ofOpt (restUrl tokens))) _ _ tr
                            (ofOpt (restUrl tokens)) tr eq_refl).
    cbv beta. rewrite Hu. cbn [negb].
    rewrite bind_assoc, (bind_ret _ _ _ _ _ Hs3). reflexivity.
Qed.

(** X10. [step0] does not look at the status either.  For a first answer
    with any status below 500 other than 429: if the body is a JSON object
    the exchange counts as done, with the [access_token] and
    [refresh_token] fields of the body, [undefined] when missing; if the
    body is [null] or is not JSON the exchange counts as failed, with no
    status.  So a refresh token refused with a 400 and an error body does
    not lead to the access-token block or the full login: the call goes on
    to [step3] with an undefined access token. *)
Theorem refresh_exchange_ignores_status
        (httpOpts : HttpOptions) (oauthUrl refreshTok cid secret : jsval)
        (tr : list event) (res : Response) :
  Qle_bool 0 (o_retries httpOpts) = true ->
  fetch (tr ++ [EvFetch (step0Url oauthUrl refreshTok cid secret) POST
                        (o_timeoutMs httpOpts)]) = Resolved res ->
  status res <> 429 ->
  status res < 500 ->
  let tr1 := tr ++ [EvFetch (step0Url oauthUrl refreshTok cid secret) POST
                            (o_timeoutMs httpOpts)] in
  match body res with
  | BodyObject fields =>
      step0 fetch httpOpts oauthUrl refreshTok cid secret tr
      = (Ret (Step0Ok (default VUndefined (fields !! "access_token"))
                      (default VUndefined (fields !! "refresh_token"))
                      (basicLogFromResponse res)), tr1)
      /\ (forall ttl tokens creds info t0,
             truthyS (refreshToken tokens) = true ->
             truthyS (credField clientId creds) = true ->
             truthyS (credField clientSecret creds) = true ->
             truthyS (credField username creds) = true ->
             loginInfo fetch httpOpts (credField username creds) t0 = (Ret info, tr) ->
             oauthUrl = li_oauthUrl info ->
             refreshTok = ofOpt (refreshToken tokens) ->
             cid = ofOpt (credField clientId creds) ->
             secret = ofOpt (credField clientSecret creds) ->
             fromRefresh fetch process_env httpOpts ttl tokens creds t0
             = match step3 fetch process_env httpOpts (li_restUrl info)
                           (default VUndefined (fields !! "access_token")) ttl tr1 with
               | (Ret s3, t) =>
                   (Ret {| r_restUrl := s3_restUrl s3;
                           r_restToken := s3_restToken s3;
                           r_refreshToken := default VUndefined (fields !! "refresh_token");
                           r_accessToken := default VUndefined (fields !! "access_token");
                           r_minRemaining := None;
                           r_method := refresh |}, t)
               | (Throw e, t) => (Throw e, t)
               | (OutOfFuel, t) => (OutOfFuel, t)
               end)
  | _ =>
      exists msg,
        step0 fetch httpOpts oauthUrl refreshTok cid secret tr
        = (Ret (Step0Fail None msg None), tr1)
  end.
Proof.
  intros Hpos Hf H4 H5. cbn zeta.
  pose proof (requestWithRetry_first_answer fetch _ _ httpOpts Hpos tr res Hf
                (not_retryable res H4 H5)) as Hrun.
  assert (Hstep : step0 fetch httpOpts oauthUrl refreshTok cid secret tr
                  = tryCatch
                      (bind (json res) (fun body =>
                       bind (prop body "access_token") (fun access_token =>
                       bind (prop body "refresh_token") (fun refresh_token =>
                       ret (Step0Ok access_token refresh_token
                                    (basicLogFromResponse res))))))
                      (fun error =>
                         bind (exnMessage error) (fun msg =>
                         ret (Step0Fail (exnStatus error) msg (exnStatusText error))))
                      (tr ++ [EvFetch (step0Url oauthUrl refreshTok cid secret) POST
                                      (o_timeoutMs httpOpts)])).
  { unfold step0, tryCatch. now rewrite (bind_ret _ _ _ _ _ Hrun). }
  unfold json in Hstep. destruct (body res) as [| | fields].
  - eexists. rewrite Hstep. reflexivity.
  - eexists. rewrite Hstep. reflexivity.
  - assert (Hs0 : step0 fetch httpOpts oauthUrl refreshTok cid secret tr
                  = (Ret (Step0Ok (default VUndefined (fields !! "access_token"))
                                  (default VUndefined (fields !! "refresh_token"))
                                  (basicLogFromResponse res)),
                     tr ++ [EvFetch (step0Url oauthUrl refreshTok cid secret) POST
                                    (o_timeoutMs httpOpts)]))
      by (rewrite Hstep; reflexivity).
    split; [exact Hs0 |]. clear Hstep.
    intros ttl tokens creds info t0 Hrf Hcid Hsec Huser Hli -> -> -> ->.
    unfold fromRefresh, tryRefresh. rewrite Hrf, Hcid, Hsec, Huser. cbn [andb].
    rewrite bind_assoc, (bind_ret _ _ _ _ _ Hli). cbv beta.
    rewrite bind_assoc, (bind_ret _ _ _ _ _ Hs0). cbv beta iota.
    rewrite bind_assoc. unfold bind.
    destruct (step3 _ _ _ _ _ _ _) as [[s3 | e |] t]; reflexivity.
Qed.

(** X11. The existing-session path does not look at the status of the
    ping.  A first answer to the ping with any status below 500 other than
    429 (a 401 as well as a 200) that carries a quota header above the
    threshold ends the call with method [existing], after that single
    request. *)
Theorem existing_session_ignores_status
        (creds : option BullhornCredentials) (tokens : TokenInput)
        (config : AuthConfig) (httpOpts : HttpOptions) (ttl : jsnum)
        (tr : list event) (res : Response) (h : string) (quota t : Q) :
  validateConfig process_env config tr = (Ret (httpOpts, Fin t, ttl), tr) ->
  truthyS (restUrl tokens) = true ->
  truthyS (restToken tokens) = true ->
  fetch (tr ++ [EvFetch (pingUrl (ofOpt (restUrl tokens)))
                        (pingInit (ofOpt (restToken tokens)))
                        (o_timeoutMs httpOpts)]) = Resolved res ->
  status res <> 429 ->
  status res < 500 ->
  headers res !! "x-ratelimit-remaining-minute" = Some h ->
  parseInt10 h = Fin quota ->
  (t < quota)%Q ->
  loginToBullhorn fetch process_env (ParamsObject creds (Some tokens)) config tr
  = (Ret {| r_restUrl := ofOpt (restUrl tokens);
            r_restToken := ofOpt (restToken tokens);
            r_refreshToken := ofOpt (refreshToken tokens);
            r_accessToken := ofOpt (accessToken tokens);
            r_minRemaining := Some h;
            r_method := existing |},
     tr ++ [EvFetch (pingUrl (ofOpt (restUrl tokens)))
                    (pingInit (ofOpt (restToken tokens)))
                    (o_timeoutMs httpOpts)]).
Proof.
  intros Hv Hu Ht Hf H4 H5 Hh Hq Hlt.
  destruct (validateConfig_ok _ _ _ _ _ _ _ Hv) as (_ & _ & Hpos & _).
  pose proof (requestWithRetry_first_answer fetch _ _ httpOpts Hpos tr res Hf
                (not_retryable res H4 H5)) as Hrun.
  rewrite (login_after_validation _ _ _ _ _ _ _ _ _ Hv).
  change (default noTokens (Some tokens)) with tokens.
  unfold tryExisting. rewrite Ht, Hu. cbn [andb].
  unfold bind, ping, tryCatch, bind. rewrite Hrun. unfold ret.
  rewrite Hh. cbn [default from_option id]. rewrite Hq. cbn.
  assert (Hgt : Qlt_bool t quota = true).
  { unfold Qlt_bool. apply negb_true_iff.
    destruct (Qle_bool quota t) eqn:E; [| reflexivity].
    apply Qle_bool_iff in E. exfalso. exact (Qlt_not_le _ _ Hlt E). }
  rewrite Hgt. reflexivity.
Qed.

(** ** The environment helpers and the call *)

Lemma tokenInputOf_tokensFromEnv (env : gmap string string) :
  tokenInputOf (tokensFromEnv env)
  = {| restUrl := env !! "BH_REST_URL"; restToken := env !! "BH_REST_TOKEN";
       refreshToken := env !! "BH_REFRESH_TOKEN";
       accessToken := env !! "BH_ACCESS_TOKEN" |}.
Proof.
  unfold tokensFromEnv.
  destruct (env !! "BH_REST_URL"), (env !! "BH_REST_TOKEN"),
           (env !! "BH_REFRESH_TOKEN"), (env !! "BH_ACCESS_TOKEN"); reflexivity.
Qed.

Lemma credentialsFromEnv_complete (env : gmap string string) c :
  credentialsFromEnv env = Some c ->
  truthyS (clientId c) = true /\ truthyS (clientSecret c) = true
  /\ truthyS (username c) = true /\ truthyS (password c) = true
  /\ username c = env !! "BH_USERNAME".
Proof.
  unfold credentialsFromEnv.
  destruct (truthyS (env !! "BH_CLIENT_ID")) eqn:Hi; [| discriminate].
  destruct (truthyS (env !! "BH_CLIENT_SECRET")) eqn:Hs; [| discriminate].
  destruct (truthyS (env !! "BH_USERNAME")) eqn:Hu; [| discriminate].
  destruct (truthyS (env !! "BH_PASSWORD")) eqn:Hp; [| discriminate].
  intros [= <-]. cbn. auto.
Qed.

(** X12. The call of the README,
    [loginToBullhorn({credentials: credentialsFromEnv(env), tokens: tokensFromEnv(env)})],
    in an environment that sets no REST token, refresh token or access
    token and with a valid configuration: when [credentialsFromEnv] returns
    [null] the call throws the "Insufficient input" error and makes no
    request; when it returns credentials they are always complete, and the
    call begins with the [loginInfo] request for [BH_USERNAME]. *)
Theorem env_credentials_suffice
        (env : gmap string string) (config : AuthConfig)
        (httpOpts : HttpOptions) (threshold ttl : jsnum) (tr : list event) :
  validateConfig process_env config tr = (Ret (httpOpts, threshold, ttl), tr) ->
  env !! "BH_REST_TOKEN" = None ->
  env !! "BH_REFRESH_TOKEN" = None ->
  env !! "BH_ACCESS_TOKEN" = None ->
  let call := loginToBullhorn fetch process_env
                (ParamsObject (credentialsFromEnv env)
                              (Some (tokenInputOf (tokensFromEnv env)))) config tr in
  match credentialsFromEnv env with
  | None => call = (Throw (ExnError insufficientInput None), tr)
  | Some c =>
      exists u o d,
        env !! "BH_USERNAME" = Some u
        /\ u <> ""
        /\ call = (o, tr ++ EvFetch (loginInfoUrl u) GET (o_timeoutMs httpOpts) :: d)
        /\ settled o
  end.
Proof.
  intros Hv Hrt Hrf Hat. cbn zeta.
  destruct (validateConfig_ok _ _ _ _ _ _ _ Hv) as (_ & _ & Hpos & _).
  rewrite (login_without_tokens (credentialsFromEnv env)
             (Some (tokenInputOf (tokensFromEnv env))) config httpOpts threshold ttl tr Hv);
    try (rewrite tokenInputOf_tokensFromEnv; cbn; rewrite ?Hrt, ?Hrf, ?Hat; reflexivity).
  destruct (credentialsFromEnv env) as [c |] eqn:Hc; [| reflexivity].
  destruct (credentialsFromEnv_complete env c Hc) as (Hi & Hs & Hu & Hp & Hname).
  destruct (proj1 (truthyS_Some (username c)) Hu) as (u & Hsome & Hne).
  exists u. unfold fullLogin. cbn [credField mbind option_bind].
  rewrite Hi, Hs, Hu, Hp. cbn [negb orb].
  destruct (loginInfo_run fetch httpOpts Hpos (username c) tr Hu)
    as (o1 & t1 & H1 & Hs1 & (d1 & -> & _)).
  rewrite Hsome in H1 |- *. cbn [default from_option id] in *.
  destruct o1 as [info | [| m r] |]; try contradiction.
  - rewrite (bind_ret _ _ _ _ _ H1). cbv beta.
    match goal with
    | |- context [bind ?m ?k (tr ++ ?f :: d1)] =>
        assert (Hb : bounded httpOpts 3 (bind m k))
    end.
    { apply (bounded_bind _ Hpos _ _ 1 2); [now apply bounded_step1 | intros s1].
      apply (bounded_bind _ Hpos _ _ 1 1); [now apply bounded_step2 | intros s2].
      apply (bounded_bind _ Hpos _ _ 1 0); [now apply bounded_step3 | intros s3].
      apply bounded_quiet. auto with quiet. }
    destruct (Hb (tr ++ EvFetch (loginInfoUrl u) GET (o_timeoutMs httpOpts) :: d1))
      as (o & d & Hrun & Hso & _).
    exists o, (d1 ++ d). rewrite Hrun, <- app_assoc.
    repeat split; [congruence | exact Hne | exact Hso].
  - rewrite (bind_throw _ _ _ _ _ H1).
    exists (Throw (ExnError m r)), d1. repeat split; [congruence | exact Hne].
Qed.

(** ** Where the two numbers of the configuration come from *)

(** X13. The threshold and the time to live are read from the
    configuration when it gives them (anything but [undefined] and [null]),
    otherwise from the environment variable when it is set, whatever it
    holds, otherwise from the default.  So if [BULLHORN_TTL] is set to the
    empty string, which [Number] reads as 0, and the configuration gives no
    [ttlDays], every call is refused before any request, although [step3]
    by itself would fall back to 30 days for the same variable. *)
Theorem setting_resolution
        (configured : jsval) (name : string) (fallback : Q) :
  (nullish configured = false ->
   numberSetting process_env configured name fallback = ToNumber configured)
  /\ (forall s, nullish configured = true -> process_env !! name = Some s ->
                numberSetting process_env configured name fallback = StringToNumber s)
  /\ (nullish configured = true -> process_env !! name = None ->
      numberSetting process_env configured name fallback = Fin fallback)
  /\ (process_env !! "BULLHORN_TTL" = Some "" ->
      StringToNumber "" = Fin 0 ->
      envTtl process_env = VNum (Fin 30)
      /\ forall params config tr,
          nullish (ttlDays config) = true ->
          exists e, loginToBullhorn fetch process_env params config tr = (Throw e, tr)).
Proof.
  unfold numberSetting, coalesce.
  split; [| split; [| split]].
  - intros Hn. now rewrite !Hn.
  - intros s -> ->. reflexivity.
  - intros -> ->. reflexivity.
  - intros Henv Hzero. split; [unfold envTtl; rewrite Henv; reflexivity |].
    intros params config tr Hnull.
    destruct params as [v | creds tokens]; [eexists; reflexivity |].
    destruct (validateConfig_cases process_env config tr) as [[cfg Hv] | [e Hv]].
    + exfalso. destruct cfg as [[opts th] ttl].
      destruct (validateConfig_ok _ _ _ _ _ _ _ Hv)
        as (_ & _ & _ & _ & (d & Hd & Hdpos) & _ & Httl).
      unfold numberSetting, coalesce in Httl. rewrite Hnull, Henv in Httl.
      cbn in Httl. rewrite Hzero in Httl. rewrite Hd in Httl.
      injection Httl as ->. discriminate.
    + exists e. unfold loginToBullhorn. now rewrite (bind_throw _ _ _ _ _ Hv).
Qed.
End CallFacts.

(** ** The user agent *)

Section UserAgentFacts.
Context {P : Platform}.
Variable fetch : Transport.
Variable process_env : gmap string string.
Variables (httpOpts : HttpOptions) (ua : string).

Local Abbreviation other := (withUserAgent httpOpts ua).

Lemma retryLoop_ua fuel u i a l tr :
  retryLoop fetch fuel u i other a l tr = retryLoop fetch fuel u i httpOpts a l tr.
Proof.
  revert a l tr. induction fuel as [| fuel IH]; intros a l tr; [reflexivity |].
  cbn [retryLoop]. change (o_retries other) with (o_retries httpOpts).
  destruct (Qle_bool _ _); [| reflexivity].
  unfold bind.
  change (retryTurn fetch u i other a) with (retryTurn fetch u i httpOpts a).
  destruct (retryTurn _ _ _ _ _ tr) as [[[res | e | a' e] | e |] t]; try reflexivity.
  apply IH.
Qed.

Lemma requestWithRetry_ua u i tr :
  requestWithRetry fetch u i other tr = requestWithRetry fetch u i httpOpts tr.
Proof. unfold requestWithRetry. apply retryLoop_ua. Qed.

Ltac same_request :=
  unfold tryCatch, bind; rewrite requestWithRetry_ua; reflexivity.

Lemma loginInfo_ua user tr :
  loginInfo fetch other user tr = loginInfo fetch httpOpts user tr.
Proof.
  unfold loginInfo. destruct (truthyS user); cbn [negb]; [same_request | reflexivity].
Qed.

Lemma step0_ua oauthUrl refreshTok cid secret tr :
  step0 fetch other oauthUrl refreshTok cid secret tr
  = step0 fetch httpOpts oauthUrl refreshTok cid secret tr.
Proof. unfold step0. same_request. Qed.

Lemma step1_ua oauthUrl cid user pw tr :
  step1 fetch other oauthUrl cid user pw tr = step1 fetch httpOpts oauthUrl cid user pw tr.
Proof. unfold step1. same_request. Qed.

Lemma step2_ua oauthUrl cid secret code tr :
  step2 fetch other oauthUrl cid secret code tr
  = step2 fetch httpOpts oauthUrl cid secret code tr.
Proof. unfold step2. same_request. Qed.

Lemma step3_ua restUrl0 accessToken0 ttl tr :
  step3 fetch process_env other restUrl0 accessToken0 ttl tr
  = step3 fetch process_env httpOpts restUrl0 accessToken0 ttl tr.
Proof. unfold step3. same_request. Qed.

Lemma ping_ua restUrl0 restToken0 tr :
  ping fetch other restUrl0 restToken0 tr = ping fetch httpOpts restUrl0 restToken0 tr.
Proof. unfold ping. same_request. Qed.

Ltac same_steps :=
  repeat (unfold bind;
          rewrite ?loginInfo_ua, ?step0_ua, ?step1_ua, ?step2_ua, ?step3_ua, ?ping_ua;
          try reflexivity;
          match goal with
          | |- context [match ?m ?t with _ => _ end] =>
              match type of (m t) with
              | (outcome _ * list event)%type => destruct (m t) as [[? | ? |] ?]
              end
          | |- context [match ?r with Step0Ok _ _ _ => _ | _ => _ end] => destruct r
          end);
  try reflexivity.

Lemma tryExisting_ua threshold tokens tr :
  tryExisting fetch other threshold tokens tr = tryExisting fetch httpOpts threshold tokens tr.
Proof.
  unfold tryExisting. destruct (_ && _); [| reflexivity]. same_steps.
Qed.

Lemma tryRefresh_ua ttl tokens creds tr :
  tryRefresh fetch process_env other ttl tokens creds tr
  = tryRefresh fetch process_env httpOpts ttl tokens creds tr.
Proof.
  unfold tryRefresh. destruct (_ && _); [| reflexivity]. same_steps.
Qed.

Lemma tryAccess_ua ttl tokens creds tr :
  tryAccess fetch process_env other ttl tokens creds tr
  = tryAccess fetch process_env httpOpts ttl tokens creds tr.
Proof.
  unfold tryAccess. destruct (truthyS (accessToken tokens)); [| reflexivity].
  destruct (negb (truthy (ofOpt (restUrl tokens))) && truthyS (credField username creds)).
  - same_steps; (destruct (negb (truthy _)); [reflexivity | now rewrite step3_ua]).
  - unfold bind, ret. destruct (negb (truthy (ofOpt (restUrl tokens)))); [reflexivity |].
    now rewrite step3_ua.
Qed.

Lemma fullLogin_ua ttl creds tr :
  fullLogin fetch process_env other ttl creds tr
  = fullLogin fetch process_env httpOpts ttl creds tr.
Proof.
  unfold fullLogin. destruct (_ || _); [reflexivity |]. same_steps.
Qed.

Lemma fromRefresh_ua ttl tokens creds tr :
  fromRefresh fetch process_env other ttl tokens creds tr
  = fromRefresh fetch process_env httpOpts ttl tokens creds tr.
Proof.
  unfold fromRefresh, fromAccess, bind. rewrite tryRefresh_ua.
  destruct (tryRefresh _ _ _ _ _ _ tr) as [[[r |] | e |] t]; try reflexivity.
  rewrite tryAccess_ua.
  destruct (tryAccess _ _ _ _ _ _ t) as [[[r |] | e |] t']; try reflexivity.
  apply fullLogin_ua.
Qed.
End UserAgentFacts.

Section UserAgentCall.
Context {P : Platform}.
Variable fetch : Transport.
Variable process_env : gmap string string.

Lemma validateConfig_ua config ua tr :
  validateConfig process_env (configWithUserAgent config ua) tr
  = match validateConfig process_env config tr with
    | (Ret (httpOpts, threshold, ttl), t) =>
        (Ret (withUserAgent httpOpts (if truthyS ua then default "" ua
                                      else "bullhorn-auth-client"),
              threshold, ttl), t)
    | other => other
    end.
Proof.
  unfold validateConfig, configWithUserAgent, createHttpOptions, bind, newError, throw, ret.
  cbn [http ttlDays minRemainingThreshold default from_option id
       cfg_timeoutMs cfg_retries cfg_userAgent cfg_onRetryAttempt].
  repeat match goal with
         | |- context [if ?c then _ else _] =>
             lazymatch c with
             | truthyS _ => fail
             | _ => destruct c
             end
         end; reflexivity.
Qed.

(** X14. The [userAgent] option is stored by [createHttpOptions] and read
    by nothing: the transport helper sends the headers of its caller only.
    Two calls that differ in [config.http.userAgent] alone make the same
    requests, with the same headers, and end in the same way. *)
Theorem user_agent_is_never_sent :
  (forall httpOpts ua urlStr init tr,
      requestWithRetry fetch urlStr init (withUserAgent httpOpts ua) tr
      = requestWithRetry fetch urlStr init httpOpts tr)
  /\ (forall params config ua tr,
         loginToBullhorn fetch process_env params (configWithUserAgent config ua) tr
         = loginToBullhorn fetch process_env params config tr).
Proof.
  split; [intros; apply requestWithRetry_ua |].
  intros [v | creds tokens] config ua tr; [reflexivity |].
  unfold loginToBullhorn, bind. rewrite validateConfig_ua.
  destruct (validateConfig process_env config tr) as [[[[opts th] ttl] | e |] t];
    try reflexivity.
  rewrite tryExisting_ua.
  destruct (tryExisting _ _ _ _ t) as [[[r |] | e |] t1]; try reflexivity.
  apply fromRefresh_ua.
Qed.
End UserAgentCall.

(** * The further properties on concrete calls *)

Lemma only_429_and_5xx_are_failures_witness :
  requestWithRetry unauthorized "https://rest/ping" GET defaultOptions []
  = (Ret (response 401 [] []), [EvFetch "https://rest/ping" GET 30000]).
Proof.
  refine (proj1 (only_429_and_5xx_are_failures unauthorized "https://rest/ping" GET
                   defaultOptions eq_refl [])
                (response 401 [] []) _ _ _).
  - vm_compute. reflexivity.
  - vm_compute. discriminate.
  - vm_compute. reflexivity.
Defined.

Lemma waits_only_between_attempts_witness :
  exists o d,
    requestWithRetry (bySequence twoFailures) "https://rest/ping" GET (sampleOptions 2 None) []
    = (o, [] ++ d ++ [EvFetch "https://rest/ping" GET 30000])
    /\ fetches (d ++ [EvFetch "https://rest/ping" GET 30000])
       = S (sleeps (d ++ [EvFetch "https://rest/ping" GET 30000]))
    /\ 1000 * Z.of_nat (sleeps d) <= sleepTotal (d ++ [EvFetch "https://rest/ping" GET 30000])
    /\ sleepTotal (d ++ [EvFetch "https://rest/ping" GET 30000]) <= 4000 * Z.of_nat (sleeps d)
    /\ sleepTotal (d ++ [EvFetch "https://rest/ping" GET 30000]) <= 4000 * 2.
Proof.
  exact (waits_only_between_attempts (bySequence twoFailures) "https://rest/ping" GET
           (sampleOptions 2 None) eq_refl []).
Defined.

(** The bound of seven uses of the transport helper is reached. *)
Lemma call_is_bounded_witness :
  exists o d,
    loginToBullhorn (P := samplePlatform) longestScenario ∅
                    (ParamsObject (Some fullCredentials) (Some staleTokens)) emptyConfig []
    = (o, d)
    /\ settled o
    /\ Z.of_nat (fetches d) = 7 * (Qfloor (o_retries defaultOptions) + 1).
Proof.
  destruct (call_is_bounded (P := samplePlatform) longestScenario ∅
              (ParamsObject (Some fullCredentials) (Some staleTokens)) emptyConfig [])
    as (o & d & Hrun & Hs & _).
  exists o, d. split; [exact Hrun |]. split; [exact Hs |].
  vm_compute in Hrun. injection Hrun as _ Hd. rewrite <- Hd. reflexivity.
Defined.

Lemma healthy_call :
  loginToBullhorn (P := samplePlatform) healthySession ∅
                  (ParamsObject None (Some sessionTokens)) threshold100 []
  = (Ret {| r_restUrl := VStr "https://rest";
            r_restToken := VStr "T";
            r_refreshToken := VUndefined;
            r_accessToken := VUndefined;
            r_minRemaining := Some "500";
            r_method := existing |},
     [EvFetch "https://rest/ping"
              {| method := "GET"; redirect := None; reqHeaders := [("BhRestToken", "T")] |}
              30000]).
Proof. vm_compute. reflexivity. Defined.

Lemma method_reflects_input_witness :
  truthyS (restUrl sessionTokens) = true /\ truthyS (restToken sessionTokens) = true.
Proof.
  destruct (method_reflects_input (P := samplePlatform) healthySession ∅ _ _ _ _ _ healthy_call)
    as (creds & tokens & Hp & Hcase).
  injection Hp as <- <-. cbv beta iota zeta in Hcase.
  change (default noTokens (Some sessionTokens)) with sessionTokens in Hcase.
  cbn [r_method] in Hcase.
  exact (conj (proj1 Hcase) (proj1 (proj2 Hcase))).
Defined.

Lemma full_login_path_witness :
  loginToBullhorn (P := samplePlatform) fullLoginScenario ∅
                  (ParamsObject (Some fullCredentials) None) emptyConfig []
  = (Ret {| r_restUrl := VStr "https://rest";
            r_restToken := VStr "RT";
            r_refreshToken := VStr "R";
            r_accessToken := VStr "A";
            r_minRemaining := None;
            r_method := full |},
     [EvFetch "https://rest.bullhornstaffing.com/rest-services/loginInfo?username=u"
              GET 30000;
      EvFetch "https://oauth/authorize?client_id=id&response_type=code&action=Login&username=u&password=p"
              step1Init 30000;
      EvFetch "https://oauth/token?grant_type=authorization_code&client_id=id&client_secret=sec&code=CODE"
              POST 30000;
      EvFetch "https://rest/login?version=*&access_token=A&ttl=30" POST 30000]).
Proof.
  destruct (full_login_path (P := samplePlatform) fullLoginScenario ∅ (Some fullCredentials)
              None emptyConfig defaultOptions (Fin 100) (Fin 30) []
              default_validation eq_refl eq_refl eq_refl)
    as (_ & Hfull).
  destruct (Hfull eq_refl) as (o1 & t1 & Hinfo & _ & Hcase).
  vm_compute in Hinfo. injection Hinfo as Ho Ht. subst o1 t1.
  cbv beta iota in Hcase.
  destruct Hcase as (o2 & t2 & Hstep1 & _ & Hcase).
  vm_compute in Hstep1. injection Hstep1 as Ho Ht. subst o2 t2.
  cbv beta iota in Hcase.
  destruct Hcase as (o3 & t3 & Hstep2 & _ & Hcase).
  vm_compute in Hstep2. injection Hstep2 as Ho Ht. subst o3 t3.
  cbv beta iota in Hcase.
  destruct Hcase as (o4 & t4 & Hstep3 & _ & Hcase).
  vm_compute in Hstep3. injection Hstep3 as Ho Ht. subst o4 t4.
  cbv beta iota in Hcase.
  exact Hcase.
Defined.

Lemma rest_login_ignores_status_witness :
  loginToBullhorn (P := samplePlatform) unauthorizedWithQuota ∅
                  (ParamsObject None (Some accessTokens)) emptyConfig []
  = (Ret {| r_restUrl := VUndefined;
            r_restToken := VUndefined;
            r_refreshToken := VUndefined;
            r_accessToken := VStr "A";
            r_minRemaining := None;
            r_method := access |},
     [EvFetch "https://rest/login?version=*&access_token=A&ttl=30" POST 30000]).
Proof.
  assert (Hf : unauthorizedWithQuota
                 ([] ++ [EvFetch (step3Url (P := samplePlatform) ∅ (VStr "https://rest")
                                           (VStr "A") (Fin 30)) POST
                                 (o_timeoutMs defaultOptions)])
               = Resolved (response 401 [("x-ratelimit-remaining-minute", "500")]
                                    [("errorMessage", VStr "Bad token")]))
    by (vm_compute; reflexivity).
  pose proof (rest_login_ignores_status (P := samplePlatform) unauthorizedWithQuota ∅
                defaultOptions (VStr "https://rest") (VStr "A") (Fin 30) [] _
                eq_refl Hf) as H.
  unfold response in H. cbn [body status] in H.
  destruct (H ltac:(discriminate) eq_refl) as [_ Hcall].
  etransitivity;
    [exact (Hcall None accessTokens emptyConfig (Fin 100) default_validation
                  eq_refl eq_refl eq_refl eq_refl eq_refl eq_refl)
    | vm_compute; reflexivity].
Defined.

Lemma refresh_exchange_ignores_status_witness :
  fromRefresh (P := samplePlatform) refusedRefresh ∅ defaultOptions (Fin 30)
              refreshOnlyTokens (Some fullCredentials) []
  = (Ret {| r_restUrl := VUndefined;
            r_restToken := VUndefined;
            r_refreshToken := VUndefined;
            r_accessToken := VUndefined;
            r_minRemaining := None;
            r_method := refresh |},
     [EvFetch "https://rest.bullhornstaffing.com/rest-services/loginInfo?username=u"
              GET 30000;
      EvFetch "https://oauth/token?grant_type=refresh_token&refresh_token=R1&client_id=id&client_secret=sec"
              POST 30000;
      EvFetch "https://rest/login?version=*&access_token=undefined&ttl=30" POST 30000]).
Proof.
  pose (info := {| li_oauthUrl := VStr "https://oauth"; li_restUrl := VStr "https://rest";
                   li_raw := basicLogFromResponse
                               (response 200 [] [("oauthUrl", VStr "https://oauth");
                                                 ("restUrl", VStr "https://rest")]) |}).
  pose (tr := [EvFetch "https://rest.bullhornstaffing.com/rest-services/loginInfo?username=u"
                       GET 30000]).
  assert (Hli : loginInfo refusedRefresh defaultOptions
                          (credField username (Some fullCredentials)) []
                = (Ret info, tr)) by (vm_compute; reflexivity).
  assert (Hf : refusedRefresh
                 (tr ++ [EvFetch (step0Url (P := samplePlatform) (VStr "https://oauth")
                                           (VStr "R1") (VStr "id") (VStr "sec")) POST
                                 (o_timeoutMs defaultOptions)])
               = Resolved (response 400 [] [("error", VStr "invalid_grant")]))
    by (vm_compute; reflexivity).
  pose proof (refresh_exchange_ignores_status (P := samplePlatform) refusedRefresh ∅
                defaultOptions (VStr "https://oauth") (VStr "R1") (VStr "id") (VStr "sec")
                tr _ eq_refl Hf) as H.
  unfold response in H. cbn [body status] in H.
  destruct (H ltac:(discriminate) eq_refl) as [_ Hcall].
  etransitivity;
    [exact (Hcall (Fin 30) refreshOnlyTokens (Some fullCredentials) info []
                  eq_refl eq_refl eq_refl eq_refl Hli eq_refl eq_refl eq_refl eq_refl)
    | vm_compute; reflexivity].
Defined.

Lemma existing_session_ignores_status_witness :
  loginToBullhorn (P := samplePlatform) unauthorizedWithQuota ∅
                  (ParamsObject None (Some sessionTokens)) threshold100 []
  = (Ret {| r_restUrl := VStr "https://rest";
            r_restToken := VStr "T";
            r_refreshToken := VUndefined;
            r_accessToken := VUndefined;
            r_minRemaining := Some "500";
            r_method := existing |},
     [EvFetch "https://rest/ping"
              {| method := "GET"; redirect := None; reqHeaders := [("BhRestToken", "T")] |}
              30000]).
Proof.
  refine (existing_session_ignores_status (P := samplePlatform) unauthorizedWithQuota ∅
            None sessionTokens threshold100 defaultOptions (Fin 30) []
            (response 401 [("x-ratelimit-remaining-minute", "500")]
                      [("errorMessage", VStr "Bad token")])
            "500" 500%Q 100%Q sample_validation eq_refl eq_refl _ _ _ _ _ _).
  - vm_compute. reflexivity.
  - vm_compute. discriminate.
  - vm_compute. reflexivity.
  - vm_compute. reflexivity.
  - vm_compute. reflexivity.
  - vm_compute. reflexivity.
Defined.

Lemma env_credentials_suffice_witness :
  exists u o d,
    credentialsEnv !! "BH_USERNAME" = Some u
    /\ u <> ""
    /\ loginToBullhorn (P := samplePlatform) fullLoginScenario ∅
         (ParamsObject (credentialsFromEnv credentialsEnv)
                       (Some (tokenInputOf (tokensFromEnv credentialsEnv)))) emptyConfig []
       = (o, [] ++ EvFetch (loginInfoUrl u) GET (o_timeoutMs defaultOptions) :: d)
    /\ settled o.
Proof.
  generalize (env_credentials_suffice (P := samplePlatform) fullLoginScenario ∅
                credentialsEnv emptyConfig defaultOptions (Fin 100) (Fin 30) []
                default_validation eq_refl eq_refl eq_refl).
  cbv zeta.
  destruct (credentialsFromEnv credentialsEnv) as [c |] eqn:Hc;
    [intros H; exact H | vm_compute in Hc; discriminate Hc].
Defined.

Lemma setting_resolution_witness :
  envTtl emptyTtlEnv = VNum (Fin 30)
  /\ forall params config tr,
      nullish (ttlDays config) = true ->
      exists e,
        loginToBullhorn (P := samplePlatform) healthySession emptyTtlEnv params config tr
        = (Throw e, tr).
Proof.
  exact (proj2 (proj2 (proj2 (setting_resolution (P := samplePlatform) healthySession
                                emptyTtlEnv VUndefined "BULLHORN_TTL" 30)))
               eq_refl eq_refl).
Defined.
